(** * The metrics-generator orchestration core of Tempo, embedded in Rocq

    The development follows two Go files of the repository:

    - [modules/generator/generator.go] (package [generator]): the service
      life cycle ([New], [starting], [stopping]), the push and query entry
      points, the tenant registry ([getOrCreateInstance], [createInstance])
      and the ring delegate ([OnRingInstanceRegister]);
    - [modules/generator/storage/instance.go] (package [storage]): the
      per-tenant storage ([New], [Close], [watchOverrides], [headersEqual]).

    Go values are embedded shallowly: [map[string]T] is a [gmap string T],
    slices are lists, [uint32] and [int] are [Z], [time.Duration] is a [Z]
    counting nanoseconds, an [error] is a value of the inductive type
    [error] and a function returning [(T, error)] returns a [result T].
    Code with side effects threads the state it touches explicitly.  What
    the two files call in other packages (the operating system, the
    Prometheus remote-write storage and agent WAL, dskit's ring, services
    and backoff, the Kafka client) is described by small executable models
    whose failures are chosen by an environment record, so that every
    error branch of the source can be taken. *)

From stdpp Require Import gmap strings list fin_maps.
From Stdlib Require Import ZArith Lia.

Local Open Scope Z_scope.

(** ** Errors and results *)

Module GoBase.

(** The [error] values that the two files create or pass on.
    [ErrUnconfigured] and [ErrReadOnly] are the package variables of
    generator.go; [ErrWrap] is [fmt.Errorf("<prefix>: %w", cause)];
    [ErrMulti] is the joined error of [tsdb_errors.NewMulti(...).Err()];
    [ErrOther] stands for an error made elsewhere. *)
#[warnings="-register-all"]
Inductive error : Type :=
| ErrUnconfigured
| ErrReadOnly
| ErrNoOrgID
| ErrOther (msg : string)
| ErrWrap (prefix : string) (cause : error)
| ErrMulti (errs : list error).

(** A Go result pair [(T, error)] with exactly one side set. *)
Inductive result (A : Type) : Type :=
| Ok (a : A)
| Err (e : error).
Arguments Ok {A} a.
Arguments Err {A} e.

Definition is_Err {A} (r : result A) : bool :=
  match r with Err _ => true | Ok _ => false end.

(** [time.Duration] counts nanoseconds. *)
Abbreviation Duration := Z (only parsing).
Definition Millisecond : Duration := 1000000.
Definition Second : Duration := 1000 * Millisecond.
Definition Minute : Duration := 60 * Second.

(** What [tsdb_errors.NewMulti] adds for one error: the errors of a
    joined error, the error itself otherwise. *)
Definition multi_errs (e : error) : list error :=
  match e with
  | ErrMulti (x :: l) => x :: l
  | _ => [e]
  end.

(** [tsdb_errors.NewMulti(errs...).Err()]: the nil errors are dropped and
    joined errors are taken apart; no error left gives nil, otherwise the
    joined error. *)
Definition NewMulti_Err (errs : list (option error)) : option error :=
  match concat (multi_errs <$> omap id errs) with
  | [] => None
  | es => Some (ErrMulti es)
  end.

End GoBase.
Export GoBase.

(** ** The ring delegate (generator.go, [OnRingInstanceRegister]) *)

Module Ring.

(** A ring token is a [uint32]. *)
Abbreviation token := Z (only parsing).
Definition uint32_card : Z := 2 ^ 32.

(** [ring.InstanceState] of dskit. *)
Inductive InstanceState := ACTIVE | LEAVING | PENDING | JOINING | LEFT.

(** The part of [ring.InstanceDesc] the delegate reads. *)
Record InstanceDesc := mkInstanceDesc {
  Addr : string;
  State : InstanceState;
  Tokens : list token
}.

Definition InstanceDesc_GetTokens (d : InstanceDesc) : list token := Tokens d.

(** [ring.Desc]: the instances of the ring by identifier. *)
Record Desc := mkDesc { Ingesters : gmap string InstanceDesc }.

(** [Desc.GetTokens] returns the tokens of every instance of the ring.
    dskit merges them in sorted order; the delegate only hands the slice
    to the generator as the taken tokens, so the order is not modelled. *)
Definition Desc_GetTokens (d : Desc) : list token :=
  concat (map (fun kv => Tokens kv.2) (map_to_list (Ingesters d))).

(** [ring.TokenGenerator] is the interface behind
    [ring.NewRandomTokenGenerator()]; a generator is given here by its
    [GenerateTokens] method. *)
Definition TokenGenerator := Z -> list token -> list token.

(** The generator draws random candidates and skips the taken ones, so
    its contract is what the delegate relies on: nothing for a count that
    is not positive, and otherwise that many distinct [uint32] tokens, none
    of them taken.  The random generator loops until it has found enough
    free tokens, hence the premise that enough tokens remain free. *)
Record TokenGenerator_ok (GenerateTokens : TokenGenerator) : Prop := {
  GenerateTokens_nonpos : forall n taken,
    n <= 0 -> GenerateTokens n taken = [];
  GenerateTokens_length : forall n taken,
    0 < n -> n + Z.of_nat (length taken) <= uint32_card ->
    Z.of_nat (length (GenerateTokens n taken)) = n;
  GenerateTokens_fresh : forall n taken t,
    n + Z.of_nat (length taken) <= uint32_card ->
    t ∈ GenerateTokens n taken -> (t ∉ taken) /\ (0 <= t < uint32_card);
  GenerateTokens_NoDup : forall n taken,
    n + Z.of_nat (length taken) <= uint32_card ->
    NoDup (GenerateTokens n taken)
}.

Definition ringNumTokens : Z := 256.

(** generator.go, [OnRingInstanceRegister].  The lifecycler and the
    instance identifier are ignored by the source ([_]). *)
Definition OnRingInstanceRegister (gen : TokenGenerator)
    (ringDesc : Desc) (instanceExists : bool) (instanceID : string)
    (instanceDesc : InstanceDesc) : InstanceState * list token :=
  let tokens : list token :=
    if instanceExists then InstanceDesc_GetTokens instanceDesc else [] in
  let takenTokens := Desc_GetTokens ringDesc in
  let newTokens :=
    gen (ringNumTokens - Z.of_nat (length tokens)) takenTokens in
  let tokens := tokens ++ newTokens in
  (ACTIVE, tokens).

(** A deterministic token generator that meets the contract: it tries the
    candidates [c], [c+1], ... and keeps the first [n] that are not taken.
    It stands for one run of the random generator. *)
Fixpoint first_fit (fuel : nat) (c : Z) (n : nat) (taken : list token)
    : list token :=
  match fuel, n with
  | _, O => []
  | O, _ => []
  | S fuel', S n' =>
      if bool_decide (c ∈ taken)
      then first_fit fuel' (c + 1) n taken
      else c :: first_fit fuel' (c + 1) n' taken
  end.

(** The taken tokens from [c] on; each candidate that first-fit skips is
    one of them. *)
Definition taken_from (c : Z) (taken : list token) : list token :=
  filter (fun t => c <= t) taken.

Definition first_fit_tokens : TokenGenerator := fun n taken =>
  first_fit (Z.to_nat n + length taken) 0 (Z.to_nat n) taken.

End Ring.

(** ** The storage package (storage/instance.go) and the world it acts on *)

Module Storage.

(** A path is the list of its elements; an element (the configured root,
    a tenant identifier, ["wal"]) is taken as clean and free of
    separators.  [filepath.Join] drops empty elements. *)
Abbreviation path := (list string) (only parsing).

Definition to_path (s : string) : path :=
  if decide (s = "") then [] else [s].

Definition filepath_Join (p : path) (elem : string) : path :=
  p ++ to_path elem.

(** The file system maps the paths that exist to what is there. *)
Inductive node := Dir | File (content : string).

(** [os.RemoveAll p] when it succeeds: [p] and everything below it is
    gone; the empty path is left alone. *)
Definition RemoveAll_fs (p : path) (fs : gmap path node) : gmap path node :=
  if decide (p = []) then fs
  else filter (fun kv => ¬ p `prefix_of` kv.1) fs.

(** The non-empty initial segments of a path, shortest first. *)
Definition prefixes (p : path) : list path :=
  (fun n => take n p) <$> seq 1 (length p).

Definition is_file (fs : gmap path node) (q : path) : bool :=
  match fs !! q with Some (File _) => true | _ => false end.

(** [os.MkdirAll p]: every missing directory on the way to [p] is made;
    it fails on the empty path and when a file is in the way. *)
Definition MkdirAll_fs (p : path) (fs : gmap path node)
    : option (gmap path node) :=
  if decide (p = []) then None
  else if existsb (is_file fs) (prefixes p) then None
  else Some (foldr (fun q acc => <[q := Dir]> acc) fs (prefixes p)).

(** The result of [generateTenantRemoteWriteConfigs] (config_util.go of
    the storage package, not among the files): its arguments, kept as
    they are. *)
Record RemoteWriteConfigs := mkRemoteWriteConfigs {
  rw_base : list string;
  rw_tenant : string;
  rw_headers : gmap string string;
  rw_addOrgIDHeader : bool;
  rw_sendNativeHistograms : bool
}.

(** The fields of [storage.Config] that instance.go reads. *)
Record Config := mkConfig {
  Path : string;
  RemoteWrite : list string;
  RemoteWriteAddOrgIDHeader : bool;
  RemoteWriteFlushDeadline : Duration
}.

(** The per-tenant overrides service at one moment. *)
Record Overrides := mkOverrides {
  MetricsGeneratorRemoteWriteHeaders : string -> gmap string string;
  MetricsGeneratorGenerateNativeHistograms : string -> string
}.

(** A [remote.Storage] of Prometheus: the configuration it forwards with
    ([None] before the first [ApplyConfig]) and whether it is closed. *)
Record RemoteStorage := mkRemoteStorage {
  rs_dir : path;
  rs_conf : option RemoteWriteConfigs;
  rs_closed : bool
}.

(** An [agent.DB] of Prometheus, the local WAL. *)
Record AgentDB := mkAgentDB {
  db_dir : path;
  db_closed : bool
}.

(** [storage.NewFanout(logger, wal, remoteStorage)]. *)
Record Fanout := mkFanout {
  primary : nat;
  secondary : nat
}.

(** storage/instance.go, [storageImpl].  [remote] and the two members of
    [storage] are handles of objects of the world; [closeCh] records
    whether the channel is closed; [watching] is the life of the goroutine
    started by [go s.watchOverrides()], which is not a field of the Go
    struct.  The [overrides] and [logger] fields refer to the overrides
    service and the log of the world. *)
Record storageImpl := mkStorageImpl {
  cfg : Config;
  walDir : path;
  remote : nat;
  storage : Fanout;
  tenantID : string;
  currentHeaders : gmap string string;
  sendNativeHistograms : bool;
  closeCh : bool;
  watching : bool
}.

Inductive level := Info | Warn | Error.

(** What the code does to the outside, in the order it does it. *)
Inductive event :=
| EvLog (l : level) (msg : string)
| EvRemoveAll (p : path) (ok : bool)
| EvMkdirAll (p : path) (ok : bool)
| EvRemoteNewStorage (h : nat)
| EvApplyConfig (h : nat) (c : RemoteWriteConfigs) (ok : bool)
| EvAgentOpen (dir : path) (ok : bool)
| EvGoWatchOverrides (s : nat)
| EvCloseCh (s : nat)
| EvWalClose (h : nat)
| EvRemoteClose (h : nat)
| EvPoll (tenant : string) (at_time : Z)
| EvWatcherReturn (s : nat)
| EvFailedTotalInc (tenant : string)
| EvPanic (msg : string)
| EvSleep (d : Duration)
| EvCall (name : string) (ok : bool)
| EvPing (attempt : Z) (ok : bool)
| EvSetReadOnly
| EvPushSpans (tenant : string)
| EvShutdownBegin (tenant : string)
| EvShutdownEnd (tenant : string).

Record World := mkWorld {
  fs : gmap path node;
  remotes : gmap nat RemoteStorage;
  wals : gmap nat AgentDB;
  storages : gmap nat storageImpl;
  next_handle : nat;
  update_failed_total : gmap string nat;
  now : Z;
  trace : list event
}.

(** How the outside answers.  Each field gives the error of one kind of
    call, [None] for success. *)
Record Env := mkEnv {
  RemoveAll_err : path -> option error;
  MkdirAll_err : path -> option error;
  ApplyConfig_err : RemoteWriteConfigs -> option error;
  agent_Open_err : path -> option error;
  wal_Close_err : path -> option error;
  remote_Close_err : path -> option error;
  HasNativeHistograms : string -> bool
}.

Definition set_fs (f : gmap path node) (w : World) : World :=
  mkWorld f (remotes w) (wals w) (storages w) (next_handle w)
    (update_failed_total w) (now w) (trace w).
Definition set_remotes (r : gmap nat RemoteStorage) (w : World) : World :=
  mkWorld (fs w) r (wals w) (storages w) (next_handle w)
    (update_failed_total w) (now w) (trace w).
Definition set_wals (d : gmap nat AgentDB) (w : World) : World :=
  mkWorld (fs w) (remotes w) d (storages w) (next_handle w)
    (update_failed_total w) (now w) (trace w).
Definition set_storages (s : gmap nat storageImpl) (w : World) : World :=
  mkWorld (fs w) (remotes w) (wals w) s (next_handle w)
    (update_failed_total w) (now w) (trace w).
Definition set_next_handle (n : nat) (w : World) : World :=
  mkWorld (fs w) (remotes w) (wals w) (storages w) n
    (update_failed_total w) (now w) (trace w).
Definition set_update_failed_total (c : gmap string nat) (w : World) : World :=
  mkWorld (fs w) (remotes w) (wals w) (storages w) (next_handle w)
    c (now w) (trace w).
Definition set_now (t : Z) (w : World) : World :=
  mkWorld (fs w) (remotes w) (wals w) (storages w) (next_handle w)
    (update_failed_total w) t (trace w).
Definition emit (e : event) (w : World) : World :=
  mkWorld (fs w) (remotes w) (wals w) (storages w) (next_handle w)
    (update_failed_total w) (now w) (trace w ++ [e]).

Definition log (l : level) (msg : string) : World -> World :=
  emit (EvLog l msg).

(** [time.Sleep d] *)
Definition time_Sleep (d : Duration) (w : World) : World :=
  emit (EvSleep d) (set_now (now w + d) w).

Section Calls.
Variable env : Env.

(** [os.RemoveAll].  A call that fails leaves the tree as it was. *)
Definition os_RemoveAll (p : path) (w : World) : option error * World :=
  match RemoveAll_err env p with
  | Some e => (Some e, emit (EvRemoveAll p false) w)
  | None => (None, emit (EvRemoveAll p true) (set_fs (RemoveAll_fs p (fs w)) w))
  end.

(** [os.MkdirAll] *)
Definition os_MkdirAll (p : path) (w : World) : option error * World :=
  match MkdirAll_err env p with
  | Some e => (Some e, emit (EvMkdirAll p false) w)
  | None =>
      match MkdirAll_fs p (fs w) with
      | None => (Some (ErrOther "mkdir: not a directory"),
                 emit (EvMkdirAll p false) w)
      | Some f => (None, emit (EvMkdirAll p true) (set_fs f w))
      end
  end.

(** [remote.NewStorage]: a new remote-write storage without a
    configuration. *)
Definition remote_NewStorage (dir : path) (w : World) : nat * World :=
  let h := next_handle w in
  (h, emit (EvRemoteNewStorage h)
        (set_next_handle (S h)
           (set_remotes (<[h := mkRemoteStorage dir None false]> (remotes w)) w))).

(** [ApplyConfig] of [remote.Storage]: a configuration that is refused
    leaves the storage with the configuration it had. *)
Definition remote_ApplyConfig (h : nat) (c : RemoteWriteConfigs) (w : World)
    : option error * World :=
  match ApplyConfig_err env c with
  | Some e => (Some e, emit (EvApplyConfig h c false) w)
  | None =>
      (None, emit (EvApplyConfig h c true)
               (set_remotes
                  (alter (fun r => mkRemoteStorage (rs_dir r) (Some c) (rs_closed r))
                     h (remotes w)) w))
  end.

(** [agent.Open]: opens the WAL below [dir], writing its first segment. *)
Definition agent_Open (dir : path) (w : World) : result nat * World :=
  match agent_Open_err env dir with
  | Some e => (Err e, emit (EvAgentOpen dir false) w)
  | None =>
      let h := next_handle w in
      let seg := filepath_Join (filepath_Join dir "wal") "00000000" in
      (Ok h, emit (EvAgentOpen dir true)
               (set_next_handle (S h)
                  (set_wals (<[h := mkAgentDB dir false]> (wals w))
                     (set_fs (<[seg := File ""]> (fs w)) w))))
  end.

(** [Close] of [agent.DB] *)
Definition wal_Close (h : nat) (w : World) : option error * World :=
  let err := match wals w !! h with
             | Some d => wal_Close_err env (db_dir d)
             | None => None
             end in
  (err, emit (EvWalClose h)
          (set_wals (alter (fun d => mkAgentDB (db_dir d) true) h (wals w)) w)).

(** [Close] of [remote.Storage] *)
Definition remote_Close (h : nat) (w : World) : option error * World :=
  let err := match remotes w !! h with
             | Some r => remote_Close_err env (rs_dir r)
             | None => None
             end in
  (err, emit (EvRemoteClose h)
          (set_remotes
             (alter (fun r => mkRemoteStorage (rs_dir r) (rs_conf r) true)
                h (remotes w)) w)).

(** The [Close] of the fanout storage: the primary, then the secondary,
    their errors joined. *)
Definition Fanout_Close (f : Fanout) (w : World) : option error * World :=
  let '(e1, w) := wal_Close (primary f) w in
  let '(e2, w) := remote_Close (secondary f) w in
  (NewMulti_Err [e1; e2], w).

End Calls.


Definition generateTenantRemoteWriteConfigs (base : list string)
    (tenant : string) (headers : gmap string string) (addOrgIDHeader : bool)
    (sendNativeHistograms : bool) : RemoteWriteConfigs :=
  mkRemoteWriteConfigs base tenant headers addOrgIDHeader sendNativeHistograms.

(** instance.go, [headersEqual].  [b[k]] of a key that is missing is the
    empty string. *)
Definition headersEqual (a b : gmap string string) : bool :=
  if negb (bool_decide (size a = size b)) then false
  else forallb (fun kv => bool_decide (default "" (b !! kv.1) = kv.2))
         (map_to_list a).

Definition set_cache (h : nat) (headers : gmap string string) (native : bool)
    (w : World) : World :=
  set_storages
    (alter (fun s => mkStorageImpl (cfg s) (walDir s) (remote s) (storage s)
                       (tenantID s) headers native (closeCh s) (watching s))
       h (storages w)) w.

Definition set_watching (h : nat) (b : bool) (w : World) : World :=
  set_storages
    (alter (fun s => mkStorageImpl (cfg s) (walDir s) (remote s) (storage s)
                       (tenantID s) (currentHeaders s) (sendNativeHistograms s)
                       (closeCh s) b)
       h (storages w)) w.

Definition set_closeCh (h : nat) (w : World) : World :=
  set_storages
    (alter (fun s => mkStorageImpl (cfg s) (walDir s) (remote s) (storage s)
                       (tenantID s) (currentHeaders s) (sendNativeHistograms s)
                       true (watching s))
       h (storages w)) w.

(** [metricStorageRemoteWriteUpdateFailed.WithLabelValues(tenant).Inc()] *)
Definition failed_total_Inc (tenant : string) (w : World) : World :=
  emit (EvFailedTotalInc tenant)
    (set_update_failed_total
       (<[tenant := S (default 0%nat (update_failed_total w !! tenant))]>
          (update_failed_total w)) w).

Definition tickerPeriod : Duration := 30 * Second.

(** What the [select] of [watchOverrides] receives: a tick, with the
    answers of the overrides service at that moment, or the closed
    [closeCh]. *)
Inductive selected :=
| SelTick (o : Overrides)
| SelCloseCh.

Section Code.
Variable env : Env.

(** instance.go, [New].  The result is the handle of the new
    [storageImpl]. *)
Definition New (cfg : Config) (o : Overrides) (tenant : string) (w : World)
    : result nat * World :=
  let walDir := filepath_Join (to_path (Path cfg)) tenant in
  let w := log Info "clearing old WAL on start up" w in
  let '(err, w) := os_RemoveAll env walDir w in
  let w := match err with
           | Some _ => log Warn "failed to remove wal on start up" w
           | None => w
           end in
  let w := log Info "creating WAL" w in
  let '(err, w) := os_MkdirAll env (filepath_Join walDir "wal") w in
  match err with
  | Some e => (Err (ErrWrap "could not create directory for metrics WAL" e), w)
  | None =>
      let '(remoteStorage, w) := remote_NewStorage walDir w in
      let headers := MetricsGeneratorRemoteWriteHeaders o tenant in
      let generateNativeHistograms :=
        MetricsGeneratorGenerateNativeHistograms o tenant in
      let sendNativeHistograms :=
        HasNativeHistograms env generateNativeHistograms in
      let remoteStorageConfig :=
        generateTenantRemoteWriteConfigs (RemoteWrite cfg) tenant headers
          (RemoteWriteAddOrgIDHeader cfg) sendNativeHistograms in
      let '(err, w) := remote_ApplyConfig env remoteStorage remoteStorageConfig w in
      match err with
      | Some e => (Err e, w)
      | None =>
          let '(r, w) := agent_Open env walDir w in
          match r with
          | Err e => (Err e, w)
          | Ok wal =>
              let s := mkStorageImpl cfg walDir remoteStorage
                         (mkFanout wal remoteStorage) tenant headers
                         sendNativeHistograms false false in
              let h := next_handle w in
              let w := set_next_handle (S h)
                         (set_storages (<[h := s]> (storages w)) w) in
              let w := emit (EvGoWatchOverrides h) (set_watching h true w) in
              (Ok h, w)
          end
      end
  end.

(** instance.go, [Close].  Closing a channel that is closed panics; the
    panic is recorded and the call goes no further. *)
Definition Close (h : nat) (w : World) : option error * World :=
  match storages w !! h with
  | None => (None, w)
  | Some s =>
      let w := log Info "closing WAL" w in
      if closeCh s then (None, emit (EvPanic "close of closed channel") w)
      else
        let w := emit (EvCloseCh h) (set_closeCh h w) in
        let '(e1, w) := Fanout_Close env (storage s) w in
        let '(e2, w) := os_RemoveAll env (walDir s) w in
        (NewMulti_Err [e1; e2], w)
  end.

(** The body of [case <-t.C] in [watchOverrides]. *)
Definition watch_tick (o : Overrides) (h : nat) (w : World) : World :=
  match storages w !! h with
  | None => w
  | Some s =>
      let newHeaders := MetricsGeneratorRemoteWriteHeaders o (tenantID s) in
      let newGenerateNativeHistograms :=
        MetricsGeneratorGenerateNativeHistograms o (tenantID s) in
      let newSendNativeHistograms :=
        HasNativeHistograms env newGenerateNativeHistograms in
      if negb (headersEqual (currentHeaders s) newHeaders)
         || negb (Bool.eqb (sendNativeHistograms s) newSendNativeHistograms)
      then
        let w := log Info "updating remote write configuration" w in
        let w := set_cache h newHeaders newSendNativeHistograms w in
        let '(err, w) :=
          remote_ApplyConfig env (remote s)
            (generateTenantRemoteWriteConfigs (RemoteWrite (cfg s))
               (tenantID s) newHeaders (RemoteWriteAddOrgIDHeader (cfg s))
               newSendNativeHistograms) w in
        match err with
        | Some e =>
            let w := failed_total_Inc (tenantID s) w in
            log Info "Failed to update remote write configuration. Remote write will continue with configuration" w
        | None => w
        end
      else w
  end.

(** The [for]/[select] loop of [watchOverrides], run on what the select
    receives.  The ticker was made at [start]; its [k]-th tick is due at
    [start + k * 30s].  An empty schedule leaves the goroutine blocked in
    the select; [closeCh] can only be received once it is closed, and
    then the goroutine returns. *)
Fixpoint watch_loop (start : Z) (k : Z) (sched : list selected) (h : nat)
    (w : World) : World :=
  match sched with
  | [] => w
  | SelTick o :: rest =>
      let due := start + k * tickerPeriod in
      let tenant := default "" (tenantID <$> storages w !! h) in
      let w := emit (EvPoll tenant due) (set_now (Z.max (now w) due) w) in
      watch_loop start (k + 1) rest h (watch_tick o h w)
  | SelCloseCh :: rest =>
      if default false (closeCh <$> storages w !! h)
      then emit (EvWatcherReturn h) (set_watching h false w)
      else watch_loop start k rest h w
  end.

Definition watchOverrides (sched : list selected) (h : nat) (w : World)
    : World :=
  watch_loop (now w) 1 sched h w.

End Code.

End Storage.

(** ** The generator package (generator.go) *)

Module Generator.
Import Storage.

Record RingConfig := mkRingConfig {
  KVStore : string;
  HeartbeatTimeout : Duration
}.

Record KafkaConfig := mkKafkaConfig { Topic : string }.

Record IngestConfig := mkIngestConfig {
  Enabled : bool;
  Kafka : KafkaConfig
}.

Record WALConfig := mkWALConfig { Filepath : string }.

(** The fields of [generator.Config] that generator.go reads. *)
Record Config := mkGConfig {
  Storage : Storage.Config;
  DisableGRPC : bool;
  Ring : RingConfig;
  Ingest : IngestConfig;
  TracesWAL : WALConfig;
  TracesQueryWAL : WALConfig;
  InstanceID : string;
  OverrideRingKey : string
}.

Record PushSpansRequest := mkPushSpansRequest { Batches : list string }.
Record PushResponse := mkPushResponse {}.

Record SpanMetricsRequest := mkSpanMetricsRequest { smQuery : string }.
Record SpanMetricsResponse := mkSpanMetricsResponse {
  Estimated : bool;
  SpanCount : Z;
  ErrorSpanCount : Z;
  Results : list string
}.

Record QueryRangeRequest := mkQueryRangeRequest { qrQuery : string }.
Record QueryRangeResponse := mkQueryRangeResponse {
  Series : list string;
  Message : string
}.

(** The composite literals [&tempopb.SpanMetricsResponse{}] and
    [&tempopb.QueryRangeResponse{}]: every field has its zero value. *)
Definition empty_SpanMetricsResponse : SpanMetricsResponse :=
  mkSpanMetricsResponse false 0 0 [].
Definition empty_QueryRangeResponse : QueryRangeResponse :=
  mkQueryRangeResponse [] "".

(** A request context: the tenant it carries, if any, and the moment it
    is cancelled, if ever. *)
Record Context := mkContext {
  orgID : option string;
  cancelled_at : option Z
}.

(** [user.ExtractOrgID] of dskit *)
Definition ExtractOrgID (ctx : Context) : result string :=
  match orgID ctx with
  | Some id => Ok id
  | None => Err ErrNoOrgID
  end.

(** The [instance] of instance.go, by the fields generator.go hands to
    [newInstance], and the requests pushed to it. *)
Record instance := mkInstance {
  instanceID : string;
  wal : nat;
  tracesWAL : option path;
  tracesQueryWAL : option path;
  pushed : list PushSpansRequest
}.

(** generator.go, [Generator].  [reg] lists the tenants whose temporary
    registry has been registered with the process registry;
    [ringLifecycler] and [subservices] are [None] for nil; the three
    Kafka clients are [true] once made.  The locks have no content. *)
Record Generator := mkGenerator {
  cfg : Config;
  overrides : Overrides;
  ringLifecycler : option string;
  instances : gmap string instance;
  subservices : option string;
  readOnly : bool;
  reg : gset string;
  kafkaClient : bool;
  kafkaAdm : bool;
  partitionClient : bool
}.

(** The answers of what generator.go calls outside the two files. *)
Record GEnv := mkGEnv {
  sys : Env;
  Validate_err : Config -> option error;
  kv_NewClient_err : string -> option error;
  toLifecyclerConfig_err : RingConfig -> option error;
  NewBasicLifecycler_err : string -> option error;
  NewManager_err : option error;
  StartManager_err : option error;
  StopManager_err : option error;
  NewGroupReaderClient_err : option error;
  Ping_err : Z -> option error;
  rand_Int63n : Z -> Z -> Z;
  tempodb_wal_New_err : path -> option error;
  newInstance_err : string -> option error;
  Register_err : string -> option error;
  instance_GetMetrics : instance -> SpanMetricsRequest -> result SpanMetricsResponse;
  instance_QueryRange : instance -> QueryRangeRequest -> result QueryRangeResponse
}.

Definition set_instances (m : gmap string instance) (g : Generator) : Generator :=
  mkGenerator (cfg g) (overrides g) (ringLifecycler g) m (subservices g)
    (readOnly g) (reg g) (kafkaClient g) (kafkaAdm g) (partitionClient g).
Definition set_subservices (s : option string) (g : Generator) : Generator :=
  mkGenerator (cfg g) (overrides g) (ringLifecycler g) (instances g) s
    (readOnly g) (reg g) (kafkaClient g) (kafkaAdm g) (partitionClient g).
Definition set_readOnly (b : bool) (g : Generator) : Generator :=
  mkGenerator (cfg g) (overrides g) (ringLifecycler g) (instances g)
    (subservices g) b (reg g) (kafkaClient g) (kafkaAdm g) (partitionClient g).
Definition set_reg (r : gset string) (g : Generator) : Generator :=
  mkGenerator (cfg g) (overrides g) (ringLifecycler g) (instances g)
    (subservices g) (readOnly g) r (kafkaClient g) (kafkaAdm g)
    (partitionClient g).
Definition set_kafkaClient (b : bool) (g : Generator) : Generator :=
  mkGenerator (cfg g) (overrides g) (ringLifecycler g) (instances g)
    (subservices g) (readOnly g) (reg g) b (kafkaAdm g) (partitionClient g).
Definition set_aux_clients (g : Generator) : Generator :=
  mkGenerator (cfg g) (overrides g) (ringLifecycler g) (instances g)
    (subservices g) (readOnly g) (reg g) (kafkaClient g) true true.

(** dskit's [backoff.Config] and [backoff.Backoff] *)
Record BackoffConfig := mkBackoffConfig {
  MinBackoff : Duration;
  MaxBackoff : Duration;
  MaxRetries : Z
}.

Record Backoff := mkBackoff {
  bcfg : BackoffConfig;
  numRetries : Z;
  nextDelayMin : Duration;
  nextDelayMax : Duration
}.

Definition doubleDuration (value max : Duration) : Duration :=
  if 2 * value <=? max then 2 * value else max.

(** The goroutine that runs [stopping], by the statement it is at. *)
Inductive pc :=
| PcStopSubservices
| PcSleep
| PcStopIncoming
| PcStopKafka
| PcWgAdd
| PcRange (rest : list string)
| PcWait
| PcReturned.

(** [stopping] and the goroutines it starts: where [stopping] is, the
    generator, the world, the counter of the [sync.WaitGroup], and the
    tenants whose goroutine has been started, has entered
    [inst.shutdown()] and has called [wg.Done()]. *)
Record config := mkConfig' {
  main : pc;
  gen : Generator;
  world : World;
  wg : Z;
  spawned : gset string;
  begun : gset string;
  finished : gset string
}.

(** Which goroutine the scheduler runs next. *)
Inductive choice :=
| RunMain
| RunBegin (id : string)
| RunEnd (id : string).

(** A call whose only modelled effect is that it happened. *)
Definition call (name : string) (err : option error) (w : World)
    : option error * World :=
  (err, emit (EvCall name (bool_decide (err = None))) w).

Section Code.
Variable env : GEnv.

(** generator.go, [New] *)
Definition New (cfg : Config) (overrides : Overrides) (w : World)
    : result Generator * World :=
  if decide (Path (Storage cfg) = "") then (Err ErrUnconfigured, w)
  else
    match Validate_err env cfg with
    | Some e => (Err e, w)
    | None =>
        let '(err, w) := os_MkdirAll (sys env) (to_path (Path (Storage cfg))) w in
        match err with
        | Some e => (Err (ErrWrap "failed to mkdir on storage path" e), w)
        | None =>
            let g := mkGenerator cfg overrides None ∅ None false ∅
                       false false false in
            if negb (DisableGRPC cfg) then
              let '(err, w) :=
                call "kv.NewClient" (kv_NewClient_err env (KVStore (Ring cfg))) w in
              match err with
              | Some e => (Err (ErrWrap "create KV store client" e), w)
              | None =>
                  match toLifecyclerConfig_err env (Ring cfg) with
                  | Some e => (Err (ErrWrap "invalid ring lifecycler config" e), w)
                  | None =>
                      let '(err, w) :=
                        call "ring.NewBasicLifecycler"
                          (NewBasicLifecycler_err env (OverrideRingKey cfg)) w in
                      match err with
                      | Some e => (Err (ErrWrap "create ring lifecycler" e), w)
                      | None =>
                          (Ok (mkGenerator cfg overrides
                                 (Some (OverrideRingKey cfg)) ∅ None false ∅
                                 false false false), w)
                      end
                  end
              end
            else (Ok g, w)
        end
    end.

(** generator.go, [stopIncomingRequests] *)
Definition stopIncomingRequests (g : Generator) (w : World)
    : Generator * World :=
  (set_readOnly true g, emit EvSetReadOnly w).

(** [tempodb_wal.New] (tempodb/wal, not among the files): taken by its
    outcome. *)
Definition tempodb_wal_New (p : path) (w : World) : result path * World :=
  match tempodb_wal_New_err env p with
  | Some e => (Err e, emit (EvCall "tempodb_wal.New" false) w)
  | None => (Ok p, emit (EvCall "tempodb_wal.New" true) w)
  end.

(** Modelled from the spec: [newInstance] of instance.go, which is not
    among the files.  A Tenant Instance wraps the tenant's storage, the
    traces WALs it is given and its in-memory state, empty at first. *)
Definition newInstance (id : string) (wal : nat)
    (tracesWAL tracesQueryWAL : option path) (w : World)
    : result instance * World :=
  match newInstance_err env id with
  | Some e => (Err e, emit (EvCall "newInstance" false) w)
  | None => (Ok (mkInstance id wal tracesWAL tracesQueryWAL []),
             emit (EvCall "newInstance" true) w)
  end.

(** Modelled from the spec: the body of [instance.shutdown] of
    instance.go, which is not among the files.  An Instance owns its
    shutdown sequence: flush, close, deregister; the close is the
    [Close] of its storage, whose error is logged. *)
Definition shutdown_body (inst : instance) (w : World) : World :=
  let w := emit (EvCall "instance.flush" true) w in
  let '(err, w) := Storage.Close (sys env) (wal inst) w in
  let w := match err with
           | Some _ => log Error "closing wal failed" w
           | None => w
           end in
  emit (EvCall "instance.deregister" true) w.

Definition shutdown (inst : instance) (w : World) : World :=
  emit (EvShutdownEnd (instanceID inst))
    (shutdown_body inst (emit (EvShutdownBegin (instanceID inst)) w)).

(** Modelled from the spec: [instance.pushSpans] of instance.go, which
    is not among the files.  The spans are applied to the tenant's
    derived-metrics state, kept here as the requests received. *)
Definition pushSpans (inst : instance) (req : PushSpansRequest) : instance :=
  mkInstance (instanceID inst) (wal inst) (tracesWAL inst)
    (tracesQueryWAL inst) (pushed inst ++ [req]).

(** [g.reg.Register(reg)]: registering the temporary registry of a
    tenant fails when that tenant's metrics are registered already. *)
Definition reg_Register (id : string) (g : Generator) (w : World)
    : option error * Generator * World :=
  match Register_err env id with
  | Some e => (Some e, g, emit (EvCall "Register" false) w)
  | None =>
      if decide (id ∈ reg g)
      then (Some (ErrOther "duplicate metrics collector registration attempted"),
            g, emit (EvCall "Register" false) w)
      else (None, set_reg ({[id]} ∪ reg g) g, emit (EvCall "Register" true) w)
  end.

(** The traces WAL of a tenant, made only when a path is configured. *)
Definition optional_wal (c : WALConfig) (id : string) (w : World)
    : result (option path) * World :=
  if decide (Filepath c = "") then (Ok None, w)
  else
    let '(r, w) := tempodb_wal_New (filepath_Join (to_path (Filepath c)) id) w in
    match r with
    | Err e => (Err e, w)
    | Ok p => (Ok (Some p), w)
    end.

(** generator.go, [createInstance] *)
Definition createInstance (id : string) (g : Generator) (w : World)
    : result instance * Generator * World :=
  let '(r, w) := Storage.New (sys env) (Storage (cfg g)) (overrides g) id w in
  match r with
  | Err e => (Err e, g, w)
  | Ok wal =>
      let '(r, w) := optional_wal (TracesWAL (cfg g)) id w in
      match r with
      | Err e => let '(_, w) := Storage.Close (sys env) wal w in (Err e, g, w)
      | Ok tracesWAL =>
          let '(r, w) := optional_wal (TracesQueryWAL (cfg g)) id w in
          match r with
          | Err e => let '(_, w) := Storage.Close (sys env) wal w in (Err e, g, w)
          | Ok tracesQueryWAL =>
              let '(r, w) := newInstance id wal tracesWAL tracesQueryWAL w in
              match r with
              | Err e =>
                  let '(_, w) := Storage.Close (sys env) wal w in (Err e, g, w)
              | Ok inst =>
                  let '(err, g', w) := reg_Register id g w in
                  match err with
                  | Some e => (Err e, g, shutdown inst w)
                  | None => (Ok inst, g', w)
                  end
              end
          end
      end
  end.

(** generator.go, [getInstanceByID]: the instance and the [ok] of the
    map read, as an option. *)
Definition getInstanceByID (id : string) (g : Generator) : option instance :=
  instances g !! id.

(** generator.go, [getOrCreateInstance] *)
Definition getOrCreateInstance (instanceID : string) (g : Generator)
    (w : World) : result instance * Generator * World :=
  match getInstanceByID instanceID g with
  | Some inst => (Ok inst, g, w)
  | None =>
      match instances g !! instanceID with
      | Some inst => (Ok inst, g, w)
      | None =>
          let '(r, g, w) := createInstance instanceID g w in
          match r with
          | Err e => (Err e, g, w)
          | Ok inst =>
              (Ok inst, set_instances (<[instanceID := inst]> (instances g)) g, w)
          end
      end
  end.

(** generator.go, [PushSpans] *)
Definition PushSpans (ctx : Context) (req : PushSpansRequest)
    (g : Generator) (w : World) : result PushResponse * Generator * World :=
  if readOnly g then (Err ErrReadOnly, g, w)
  else
    match ExtractOrgID ctx with
    | Err e => (Err e, g, w)
    | Ok instanceID =>
        let '(r, g, w) := getOrCreateInstance instanceID g w in
        match r with
        | Err e => (Err e, g, w)
        | Ok inst =>
            let g := set_instances
                       (<[instanceID := pushSpans inst req]> (instances g)) g in
            (Ok mkPushResponse, g, emit (EvPushSpans instanceID) w)
        end
    end.

(** generator.go, [GetMetrics].  The test [!ok || instance == nil] is the
    [None] of the registry read: the registry never holds a nil pointer,
    its only store being that of the instance a successful
    [createInstance] returned. *)
Definition GetMetrics (ctx : Context) (req : SpanMetricsRequest)
    (g : Generator) : result SpanMetricsResponse * Generator :=
  match ExtractOrgID ctx with
  | Err e => (Err e, g)
  | Ok instanceID =>
      match getInstanceByID instanceID g with
      | None => (Ok empty_SpanMetricsResponse, g)
      | Some inst => (instance_GetMetrics env inst req, g)
      end
  end.

(** generator.go, [QueryRange], with the same test. *)
Definition QueryRange (ctx : Context) (req : QueryRangeRequest)
    (g : Generator) : result QueryRangeResponse * Generator :=
  match ExtractOrgID ctx with
  | Err e => (Err e, g)
  | Ok instanceID =>
      match getInstanceByID instanceID g with
      | None => (Ok empty_QueryRangeResponse, g)
      | Some inst => (instance_QueryRange env inst req, g)
      end
  end.

(** *** Start-up *)

(** [ctx.Err() != nil]: the context is cancelled from [cancelled_at] on. *)
Definition ctx_Err (ctx : Context) (w : World) : bool :=
  match cancelled_at ctx with
  | Some t => bool_decide (t <= now w)
  | None => false
  end.

(** dskit's [backoff.New] *)
Definition backoff_New (c : BackoffConfig) : Backoff :=
  mkBackoff c 0 (MinBackoff c) (doubleDuration (MinBackoff c) (MaxBackoff c)).

(** dskit's [Backoff.Ongoing] *)
Definition Ongoing (ctx : Context) (b : Backoff) (w : World) : bool :=
  negb (ctx_Err ctx w)
  && ((MaxRetries (bcfg b) =? 0) || (numRetries b <? MaxRetries (bcfg b))).

(** dskit's [Backoff.ErrCause] *)
Definition ErrCause (ctx : Context) (b : Backoff) (w : World) : option error :=
  if ctx_Err ctx w then Some (ErrOther "context canceled")
  else if negb (MaxRetries (bcfg b) =? 0) && (MaxRetries (bcfg b) <=? numRetries b)
  then Some (ErrOther "terminated after retries")
  else None.

(** dskit's [Backoff.NextDelay]: one more retry is counted and a delay
    is drawn between the two bounds, which then double until the upper
    one has reached the cap.  [rand.Int63n(n)] lies in [[0, n)]. *)
Definition NextDelay (b : Backoff) : Duration * Backoff :=
  let n := numRetries b + 1 in
  if nextDelayMax b <=? nextDelayMin b
  then (nextDelayMin b, mkBackoff (bcfg b) n (nextDelayMin b) (nextDelayMax b))
  else
    let width := nextDelayMax b - nextDelayMin b in
    let sleepTime := nextDelayMin b + (rand_Int63n env (numRetries b) width) mod width in
    if nextDelayMax b <? MaxBackoff (bcfg b)
    then (sleepTime,
          mkBackoff (bcfg b) n
            (doubleDuration (nextDelayMin b) (MaxBackoff (bcfg b)))
            (doubleDuration (nextDelayMax b) (MaxBackoff (bcfg b))))
    else (sleepTime, mkBackoff (bcfg b) n (nextDelayMin b) (nextDelayMax b)).

(** dskit's [Backoff.Wait]: sleeps the next delay, or until the context
    is cancelled when that comes first. *)
Definition Wait (ctx : Context) (b : Backoff) (w : World) : Backoff * World :=
  let '(sleepTime, b) := NextDelay b in
  if Ongoing ctx b w then
    let d := match cancelled_at ctx with
             | Some t => Z.min sleepTime (t - now w)
             | None => sleepTime
             end in
    (b, time_Sleep d w)
  else (b, w).

(** [g.kafkaClient.Ping(ctx)], the connectivity probe. *)
Definition kafka_Ping (attempt : Z) (w : World) : option error * World :=
  let err := Ping_err env attempt in
  (err, emit (EvPing attempt (bool_decide (err = None))) w).

(** The [for boff.Ongoing()] loop of [starting].  [None] when the fuel
    does not reach the end of the loop. *)
Fixpoint ping_loop (fuel : nat) (ctx : Context) (boff : Backoff) (w : World)
    : option (Backoff * World) :=
  match fuel with
  | O => None
  | S fuel' =>
      if Ongoing ctx boff w then
        let '(err, w) := kafka_Ping (numRetries boff) w in
        match err with
        | None => Some (boff, w)
        | Some _ =>
            let w := log Warn "ping kafka; will retry" w in
            let '(boff, w) := Wait ctx boff w in
            ping_loop fuel' ctx boff w
        end
      else Some (boff, w)
  end.

Definition starting_backoff : BackoffConfig :=
  mkBackoffConfig (100 * Millisecond) Minute 10.

(** generator.go, [starting], the part on the ring. *)
Definition starting_ring (g : Generator) (w : World)
    : option error * Generator * World :=
  if negb (DisableGRPC (cfg g)) then
    let '(err, w) := call "services.NewManager" (NewManager_err env) w in
    match err with
    | Some e =>
        (Some (ErrWrap "unable to start metrics-generator dependencies" e),
         set_subservices None g, w)
    | None =>
        let g := set_subservices (Some "manager") g in
        let '(err, w) :=
          call "services.StartManagerAndAwaitHealthy" (StartManager_err env) w in
        match err with
        | Some e =>
            (Some (ErrWrap "unable to start metrics-generator dependencies" e), g, w)
        | None => (None, g, w)
        end
    end
  else (None, g, w).

(** generator.go, [starting], the part on the streaming source. *)
Definition starting_ingest (fuel : nat) (ctx : Context) (g : Generator)
    (w : World) : option (option error * Generator * World) :=
  if Enabled (Ingest (cfg g)) then
    let '(err, w) :=
      call "ingest.NewGroupReaderClient" (NewGroupReaderClient_err env) w in
    match err with
    | Some e => Some (Some (ErrWrap "failed to create kafka reader client" e), g, w)
    | None =>
        let g := set_kafkaClient true g in
        let boff := backoff_New starting_backoff in
        match ping_loop fuel ctx boff w with
        | None => None
        | Some (boff, w) =>
            match ErrCause ctx boff w with
            | Some e => Some (Some (ErrWrap "failed to ping kafka" e), g, w)
            | None =>
                let w := emit (EvCall "kadm.NewClient" true) w in
                let w := emit (EvCall "ingest.NewPartitionOffsetClient" true) w in
                Some (None, set_aux_clients g, w)
            end
        end
    end
  else Some (None, g, w).

(** The deferred function of [starting]. *)
Definition starting_deferred (err : option error) (g : Generator) (w : World)
    : World :=
  match err, subservices g with
  | Some _, Some _ =>
      let '(stopErr, w) :=
        call "services.StopManagerAndAwaitStopped" (StopManager_err env) w in
      match stopErr with
      | Some _ => log Error "failed to gracefully stop metrics-generator dependencies" w
      | None => w
      end
  | _, _ => w
  end.

(** generator.go, [starting] *)
Definition starting (fuel : nat) (ctx : Context) (g : Generator) (w : World)
    : option (option error * Generator * World) :=
  let '(err, g, w) := starting_ring g w in
  match err with
  | Some e => Some (Some e, g, starting_deferred (Some e) g w)
  | None =>
      match starting_ingest fuel ctx g w with
      | None => None
      | Some (err, g, w) => Some (err, g, starting_deferred err g w)
      end
  end.

(** *** Shutdown *)

Definition set_main (p : pc) (c : config) : config :=
  mkConfig' p (gen c) (world c) (wg c) (spawned c) (begun c) (finished c).
Definition set_world (p : pc) (w : World) (c : config) : config :=
  mkConfig' p (gen c) w (wg c) (spawned c) (begun c) (finished c).

(** One step of the goroutine that runs [stopping].  [order] is the
    order in which [range g.instances] visits the tenants.  [wg.Wait()]
    cannot step while the counter is not zero.  [stopKafka] is in another
    file of the package (generator_kafka.go) and is taken as the event of
    its call. *)
Definition step_main (order : list string) (c : config) : option config :=
  match main c with
  | PcStopSubservices =>
      match subservices (gen c) with
      | Some _ =>
          let '(err, w) :=
            call "services.StopManagerAndAwaitStopped" (StopManager_err env)
              (world c) in
          let w := match err with
                   | Some _ => log Error "failed to stop metrics-generator dependencies" w
                   | None => w
                   end in
          Some (set_world PcSleep w c)
      | None => Some (set_main PcSleep c)
      end
  | PcSleep => Some (set_world PcStopIncoming (time_Sleep (5 * Second) (world c)) c)
  | PcStopIncoming =>
      let '(g, w) := stopIncomingRequests (gen c) (world c) in
      Some (mkConfig' PcStopKafka g w (wg c) (spawned c) (begun c) (finished c))
  | PcStopKafka =>
      if Enabled (Ingest (cfg (gen c)))
      then Some (set_world PcWgAdd (emit (EvCall "stopKafka" true) (world c)) c)
      else Some (set_main PcWgAdd c)
  | PcWgAdd =>
      Some (mkConfig' (PcRange order) (gen c) (world c)
              (wg c + Z.of_nat (size (instances (gen c))))
              (spawned c) (begun c) (finished c))
  | PcRange [] => Some (set_main PcWait c)
  | PcRange (id :: rest) =>
      Some (mkConfig' (PcRange rest) (gen c) (world c) (wg c)
              ({[id]} ∪ spawned c) (begun c) (finished c))
  | PcWait => if wg c =? 0 then Some (set_main PcReturned c) else None
  | PcReturned => None
  end.

(** The goroutine of tenant [id] enters [inst.shutdown()]. *)
Definition step_begin (id : string) (c : config) : option config :=
  if decide (id ∈ spawned c ∧ id ∉ begun c) then
    Some (mkConfig' (main c) (gen c) (emit (EvShutdownBegin id) (world c))
            (wg c) (spawned c) ({[id]} ∪ begun c) (finished c))
  else None.

(** The goroutine of tenant [id] leaves [inst.shutdown()] and calls
    [wg.Done()]. *)
Definition step_end (id : string) (c : config) : option config :=
  if decide (id ∈ begun c ∧ id ∉ finished c) then
    match instances (gen c) !! id with
    | Some inst =>
        Some (mkConfig' (main c) (gen c)
                (emit (EvShutdownEnd id) (shutdown_body inst (world c)))
                (wg c - 1) (spawned c) (begun c) ({[id]} ∪ finished c))
    | None => None
    end
  else None.

Definition step (order : list string) (ch : choice) (c : config)
    : option config :=
  match ch with
  | RunMain => step_main order c
  | RunBegin id => step_begin id c
  | RunEnd id => step_end id c
  end.

Fixpoint run (order : list string) (sched : list choice) (c : config)
    : option config :=
  match sched with
  | [] => Some c
  | ch :: rest =>
      match step order ch c with
      | Some c' => run order rest c'
      | None => None
      end
  end.

Definition stopping_init (g : Generator) (w : World) : config :=
  mkConfig' PcStopSubservices g w 0 ∅ ∅ ∅.

(** generator.go, [stopping], under a schedule of its goroutines: the
    state in which it has returned, if the schedule takes it there. *)
Definition stopping (order : list string) (sched : list choice)
    (g : Generator) (w : World) : option (Generator * World) :=
  match run order sched (stopping_init g w) with
  | Some c =>
      match main c with
      | PcReturned => Some (gen c, world c)
      | _ => None
      end
  | None => None
  end.

(** What stopping the subservices leaves in the trace. *)
Definition sub_events (g : Generator) : list event :=
  match subservices g with
  | Some _ =>
      match StopManager_err env with
      | Some _ =>
          [EvCall "services.StopManagerAndAwaitStopped" false;
           EvLog Error "failed to stop metrics-generator dependencies"]
      | None => [EvCall "services.StopManagerAndAwaitStopped" true]
      end
  | None => []
  end.

(** What [stopping] does before it starts the shutdown goroutines. *)
Definition stop_prefix (g : Generator) : list event :=
  sub_events g
  ++ [EvSleep (5 * Second); EvSetReadOnly]
  ++ (if Enabled (Ingest (cfg g)) then [EvCall "stopKafka" true] else []).

(** What [stopping] has done when it is at a given statement. *)
Definition main_events (g : Generator) (p : pc) : list event :=
  match p with
  | PcStopSubservices => []
  | PcSleep => sub_events g
  | PcStopIncoming => sub_events g ++ [EvSleep (5 * Second)]
  | PcStopKafka => sub_events g ++ [EvSleep (5 * Second); EvSetReadOnly]
  | _ => stop_prefix g
  end.

End Code.

(** generator.go, [CheckReady].  [registered] is the answer of
    [g.ringLifecycler.IsRegistered()]. *)
Definition CheckReady (registered : bool) (g : Generator) : option error :=
  match ringLifecycler g with
  | None => None
  | Some _ =>
      if negb registered
      then Some (ErrOther "metrics-generator check ready failed: not registered in the ring")
      else None
  end.

End Generator.

(** ** Statements of the specification and test data *)

Module Claims.
Import Ring.


(** A ring in which another replica holds three tokens. *)
Definition ring_one_peer : Desc :=
  mkDesc {[ "peer" := mkInstanceDesc "10.0.0.2" ACTIVE [0; 1; 2] ]}.




Import Storage.

(** The events that a run added to the trace. *)
Definition new_events (w w' : World) : list event :=
  drop (length (trace w)) (trace w').

Definition is_ApplyConfig (e : event) : bool :=
  match e with EvApplyConfig _ _ _ => true | _ => false end.

(** Whether a run tried to reapply the remote-write configuration. *)
Definition reapplied (w w' : World) : bool :=
  existsb is_ApplyConfig (new_events w w').

(** No cached header has the empty string as its value. *)
Definition no_empty_value (m : gmap string string) : Prop :=
  forall k, m !! k ≠ Some "".


(** Two states of a [storageImpl] that differ at most in the cached
    overrides. *)
Definition same_but_cache (s s' : storageImpl) : Prop :=
  Storage.cfg s' = Storage.cfg s /\ walDir s' = walDir s /\
  remote s' = remote s /\ storage s' = storage s /\
  tenantID s' = tenantID s /\ closeCh s' = closeCh s /\
  watching s' = watching s.

(** What one poll reads from the overrides of a tenant. *)
Definition polled_headers (o : Overrides) (s : storageImpl) : gmap string string :=
  MetricsGeneratorRemoteWriteHeaders o (tenantID s).

Definition polled_native (env : Env) (o : Overrides) (s : storageImpl) : bool :=
  HasNativeHistograms env (MetricsGeneratorGenerateNativeHistograms o (tenantID s)).

(** The remote-write configuration made from a poll. *)
Definition polled_conf (env : Env) (o : Overrides) (s : storageImpl)
    : RemoteWriteConfigs :=
  generateTenantRemoteWriteConfigs (RemoteWrite (Storage.cfg s)) (tenantID s)
    (polled_headers o s) (RemoteWriteAddOrgIDHeader (Storage.cfg s))
    (polled_native env o s).

(** A poll sees a change: the test of [watchOverrides]. *)
Definition change_seen (env : Env) (o : Overrides) (s : storageImpl) : bool :=
  negb (headersEqual (currentHeaders s) (polled_headers o s))
  || negb (Bool.eqb (sendNativeHistograms s) (polled_native env o s)).

(** The WAL directory of a tenant. *)
Definition walDir_of (cfg : Storage.Config) (tenant : string) : path :=
  filepath_Join (to_path (Path cfg)) tenant.

(** What storage construction itself puts below the WAL directory: the
    directory, its [wal] subdirectory and the first segment of the WAL. *)
Definition created_by_New (walDir : path) : list (path * node) :=
  [(walDir, Dir);
   (filepath_Join walDir "wal", Dir);
   (filepath_Join (filepath_Join walDir "wal") "00000000", File "")].

(** The WAL directory holds nothing but what construction put there. *)
Definition fresh_wal_dir (walDir : path) (fs : gmap path node) : Prop :=
  forall q n, walDir `prefix_of` q -> fs !! q = Some n ->
              (q, n) ∈ created_by_New walDir.

(** Nothing exists at or below a path. *)
Definition absent (p : path) (fs : gmap path node) : Prop :=
  forall q, p `prefix_of` q -> fs !! q = None.

(** The pre-clean as the specification words it: whenever construction
    completes, the WAL directory is free of leftovers. *)
Definition preclean_spec (env : Env) (cfg : Storage.Config) (o : Overrides)
    (tenant : string) (w : World) : Prop :=
  forall h w1,
    Storage.New env cfg o tenant w = (Ok h, w1) ->
    fresh_wal_dir (walDir_of cfg tenant) (fs w1).

(** The events of a construction that completes. *)
Definition New_events (env : Env) (cfg : Storage.Config) (o : Overrides) (tenant : string)
    (next : nat) : list event :=
  let walDir := walDir_of cfg tenant in
  [EvLog Info "clearing old WAL on start up"]
  ++ match RemoveAll_err env walDir with
     | None => [EvRemoveAll walDir true]
     | Some _ => [EvRemoveAll walDir false;
                  EvLog Warn "failed to remove wal on start up"]
     end
  ++ [EvLog Info "creating WAL";
      EvMkdirAll (filepath_Join walDir "wal") true;
      EvRemoteNewStorage next;
      EvApplyConfig next
        (generateTenantRemoteWriteConfigs (RemoteWrite cfg) tenant
           (MetricsGeneratorRemoteWriteHeaders o tenant)
           (RemoteWriteAddOrgIDHeader cfg)
           (HasNativeHistograms env (MetricsGeneratorGenerateNativeHistograms o tenant)))
        true;
      EvAgentOpen walDir true;
      EvGoWatchOverrides (S (S next))].

Definition world0 : World := mkWorld ∅ ∅ ∅ ∅ 0 ∅ 0 [].

Definition has_native (s : string) : bool :=
  bool_decide (s = "native") || bool_decide (s = "both").

(** An environment in which nothing fails. *)
Definition env_ok : Env :=
  mkEnv (fun _ => None) (fun _ => None) (fun _ => None) (fun _ => None)
    (fun _ => None) (fun _ => None) has_native.

(** An environment whose remote-write storage refuses a configuration
    with a header named [bad]. *)
Definition env_bad_header : Env :=
  mkEnv (fun _ => None) (fun _ => None)
    (fun c => if decide (is_Some (rw_headers c !! "bad"))
              then Some (ErrOther "invalid header") else None)
    (fun _ => None) (fun _ => None) (fun _ => None) has_native.

(** An environment in which the WAL directory of tenant [t] cannot be
    removed. *)
Definition env_rm_fails : Env :=
  mkEnv (fun p => if decide (p = ["/var/tempo"; "t"])
                  then Some (ErrOther "unlinkat: permission denied") else None)
    (fun _ => None) (fun _ => None) (fun _ => None) (fun _ => None)
    (fun _ => None) has_native.

(** The disk after a crash: tenant [t] has left a WAL segment behind. *)
Definition world_crashed : World :=
  mkWorld
    (<[ ["/var/tempo"; "t"; "wal"; "00000007"] := File "stale" ]>
       (<[ ["/var/tempo"; "t"; "wal"] := Dir ]>
          (<[ ["/var/tempo"; "t"] := Dir ]>
             {[ ["/var/tempo"] := Dir ]})))
    ∅ ∅ ∅ 0 ∅ 0 [].

Definition cfg0 : Storage.Config :=
  mkConfig "/var/tempo" ["http://sink/api/v1/write"] true (60 * Second).

(** The world after the storage of tenant [t] has been rebuilt on the
    disk left by the crash. *)
Definition world_rebuilt : World :=
  Eval vm_compute in
    (Storage.New (mkEnv (fun _ => None) (fun _ => None) (fun _ => None)
                    (fun _ => None) (fun _ => None) (fun _ => None) has_native)
       cfg0 (mkOverrides (fun _ => ∅) (fun _ => "classic")) "t" world_crashed).2.

Definition ovr (headers : gmap string string) (mode : string) : Overrides :=
  mkOverrides (fun _ => headers) (fun _ => mode).

Definition ovr_plain : Overrides := ovr ∅ "classic".
Definition ovr_bad : Overrides := ovr {[ "bad" := "1" ]} "classic".
Definition ovr_auth : Overrides := ovr {[ "X-Auth" := "k" ]} "native".

(** The world after the storage of tenant [t] has been built. *)
Definition world_t (env : Env) : World :=
  (Storage.New env cfg0 ovr_plain "t" world0).2.

(** The handle of that storage. *)
Definition h_t : nat := 2.

(** That storage, the configuration applied when it was built, and its
    remote-write storage. *)
Definition s_t : storageImpl :=
  mkStorageImpl cfg0 ["/var/tempo"; "t"] 0 (mkFanout 1 0) "t" ∅ false
    false true.

Definition c_t : RemoteWriteConfigs :=
  mkRemoteWriteConfigs ["http://sink/api/v1/write"] "t" ∅ true false.

Definition r_t : RemoteStorage :=
  mkRemoteStorage ["/var/tempo"; "t"] (Some c_t) false.


Import Generator.

(** A generator environment in which nothing fails, over a given
    environment of the storage package. *)
Definition genv (e : Env) : GEnv :=
  mkGEnv e (fun _ => None) (fun _ => None) (fun _ => None) (fun _ => None)
    None None None None (fun _ => None) (fun _ _ => 0) (fun _ => None)
    (fun _ => None) (fun _ => None)
    (fun _ _ => Ok (mkSpanMetricsResponse false 1 0 ["series"]))
    (fun _ _ => Ok (mkQueryRangeResponse ["series"] "")).

Definition gcfg0 : Generator.Config :=
  mkGConfig cfg0 false (mkRingConfig "memberlist" (60 * Second))
    (mkIngestConfig true (mkKafkaConfig "tempo")) (mkWALConfig "")
    (mkWALConfig "") "generator-0" "metrics-generator".

(** A configuration without a storage path. *)
Definition gcfg_nopath : Generator.Config :=
  mkGConfig (mkConfig "" ["http://sink/api/v1/write"] true (60 * Second))
    false (mkRingConfig "memberlist" (60 * Second))
    (mkIngestConfig true (mkKafkaConfig "tempo")) (mkWALConfig "")
    (mkWALConfig "") "generator-0" "metrics-generator".

(** Two worlds with the same files and the same objects; the trace and
    the clock may differ. *)
Definition same_objects (w w' : World) : Prop :=
  fs w' = fs w /\ remotes w' = remotes w /\ wals w' = wals w /\
  storages w' = storages w.

(** The storage with handle [h] has been closed: its channel is closed,
    and so are its WAL and its remote-write storage. *)
Definition storage_closed (h : nat) (w : World) : Prop :=
  exists s d r,
    storages w !! h = Some s /\ closeCh s = true /\
    wals w !! primary (storage s) = Some d /\ db_closed d = true /\
    remotes w !! secondary (storage s) = Some r /\ rs_closed r = true.

(** Nothing that a call acquired is still held after it: no new path on
    the disk, no new remote-write storage or WAL left open. *)
Definition rolled_back (w w' : World) : Prop :=
  (forall q, is_Some (fs w' !! q) -> is_Some (fs w !! q)) /\
  (forall h r, remotes w' !! h = Some r -> remotes w !! h = None ->
               rs_closed r = true) /\
  (forall h d, wals w' !! h = Some d -> wals w !! h = None ->
               db_closed d = true).

(** A failed construction as the specification words it: the error is
    returned, everything acquired is rolled back, and the registry is
    unchanged. *)
Definition getOrCreate_spec (env : GEnv) (id : string) (g : Generator)
    (w : World) : Prop :=
  forall e g' w',
    getOrCreateInstance env id g w = (Err e, g', w') ->
    instances g' = instances g /\ rolled_back w w'.

(** An environment in which the WAL cannot be opened. *)
Definition env_open_fails : Env :=
  mkEnv (fun _ => None) (fun _ => None) (fun _ => None)
    (fun _ => Some (ErrOther "open WAL: corrupted segment"))
    (fun _ => None) (fun _ => None) has_native.

(** A generator environment in which the temporary registry cannot be
    registered. *)
Definition genv_register_fails : GEnv :=
  mkGEnv env_ok (fun _ => None) (fun _ => None) (fun _ => None) (fun _ => None)
    None None None None (fun _ => None) (fun _ _ => 0) (fun _ => None)
    (fun _ => None)
    (fun _ => Some (ErrOther "duplicate metrics collector registration attempted"))
    (fun _ _ => Ok (mkSpanMetricsResponse false 1 0 ["series"]))
    (fun _ _ => Ok (mkQueryRangeResponse ["series"] "")).

(** The backoff of [starting] in one of its states: the configuration
    is the one [starting] passes, between no and ten retries are counted,
    and the bounds of the next delay lie between 100 ms and one minute. *)
Definition boff_ok (b : Backoff) : Prop :=
  bcfg b = starting_backoff /\ 0 <= numRetries b <= 10 /\
  100 * Millisecond <= nextDelayMin b /\ nextDelayMin b <= Minute /\
  nextDelayMax b <= Minute.

Definition is_Ping (e : event) : bool :=
  match e with EvPing _ _ => true | _ => false end.

(** The number of probes in a list of events. *)
Definition count_pings (evs : list event) : nat :=
  length (List.filter is_Ping evs).

(** The construction of one of the two auxiliary clients. *)
Definition is_aux (e : event) : bool :=
  match e with
  | EvCall name _ =>
      bool_decide (name = "kadm.NewClient")
      || bool_decide (name = "ingest.NewPartitionOffsetClient")
  | _ => false
  end.

(** What a failed probe leaves in the trace: the probe, the warning and the
    sleep of the backoff, which is at most the cap and, unless the context
    can be cancelled, at least the initial delay. *)
Definition retry_event (ctx : Context) (e : event) : Prop :=
  match e with
  | EvPing _ false => True
  | EvLog Warn _ => True
  | EvSleep d =>
      d <= 60 * Second /\ (cancelled_at ctx = None -> 100 * Millisecond <= d)
  | _ => False
  end.

(** An event that is neither a probe, nor a sleep, nor the construction
    of an auxiliary client. *)
Definition plain (e : event) : bool :=
  match e with
  | EvPing _ _ | EvSleep _ => false
  | _ => negb (is_aux e)
  end.

(** Every sleep in a list of events is one of the backoff. *)
Definition sleeps_bounded (ctx : Context) (evs : list event) : Prop :=
  forall d, EvSleep d ∈ evs ->
    d <= 60 * Second /\ (cancelled_at ctx = None -> 100 * Millisecond <= d).

(** [stopping] has not yet reached its loop over the instances. *)
Definition before_range (p : pc) : bool :=
  match p with
  | PcStopSubservices | PcSleep | PcStopIncoming | PcStopKafka | PcWgAdd => true
  | _ => false
  end.

(** [stopping] has not yet marked the generator read-only. *)
Definition before_readOnly (p : pc) : bool :=
  match p with
  | PcStopSubservices | PcSleep | PcStopIncoming => true
  | _ => false
  end.

(** The tenants that the loop of [stopping] has still to visit. *)
Definition to_visit (p : pc) : list string :=
  match p with PcRange rest => rest | _ => [] end.

(** The shutdown of tenant [id] has begun in a list of events. *)
Definition shutdown_begun (id : string) (par : list event) : Prop :=
  exists p1 p2, par = p1 ++ [EvShutdownBegin id] ++ p2.

(** The shutdown of tenant [id] has begun and ended in a list of events. *)
Definition shutdown_done (id : string) (par : list event) : Prop :=
  exists p1 p2 p3,
    par = p1 ++ [EvShutdownBegin id] ++ p2 ++ [EvShutdownEnd id] ++ p3.

(** What holds of every state that [stopping] of generator [g] in world
    [w] can reach. *)
Record stop_inv (env : GEnv) (g : Generator) (w : World) (c : config)
    : Prop := {
  inv_instances : instances (gen c) = instances g;
  inv_cfg : Generator.cfg (gen c) = Generator.cfg g;
  inv_subservices : subservices (gen c) = subservices g;
  inv_readOnly : before_readOnly (main c) = false -> readOnly (gen c) = true;
  inv_trace : exists par,
    trace (world c) = trace w ++ main_events env g (main c) ++ par /\
    (before_range (main c) = true -> par = []) /\
    (forall id, id ∈ begun c -> shutdown_begun id par) /\
    (forall id, id ∈ finished c -> shutdown_done id par);
  inv_spawned : before_range (main c) = true -> spawned c = ∅;
  inv_begun : begun c ⊆ spawned c;
  inv_finished : finished c ⊆ begun c;
  inv_dom : spawned c ⊆ dom (instances g);
  inv_to_visit : forall id, id ∈ to_visit (main c) -> id ∈ dom (instances g);
  inv_wg : wg c = (if before_range (main c) then 0
                   else Z.of_nat (size (instances g)))
                  - Z.of_nat (size (finished c));
  inv_returned : main c = PcReturned -> finished c = dom (instances g)
}.

(** A generator that has been running: its ring services are started and
    no tenant has pushed yet. *)
Definition gen0 : Generator :=
  mkGenerator gcfg0 ovr_plain (Some "metrics-generator") ∅ (Some "manager")
    false ∅ true true true.

(** A generator environment in which Kafka is never reached. *)
Definition genv_kafka_down : GEnv :=
  mkGEnv env_ok (fun _ => None) (fun _ => None) (fun _ => None) (fun _ => None)
    None None None None
    (fun _ => Some (ErrOther "dial tcp: connection refused"))
    (fun k _ => 7919 * (k + 1)) (fun _ => None)
    (fun _ => None) (fun _ => None)
    (fun _ _ => Ok (mkSpanMetricsResponse false 1 0 ["series"]))
    (fun _ _ => Ok (mkQueryRangeResponse ["series"] "")).

(** A generator environment in which Kafka is reached at the fourth
    probe. *)
Definition genv_kafka_slow : GEnv :=
  mkGEnv env_ok (fun _ => None) (fun _ => None) (fun _ => None) (fun _ => None)
    None None None None
    (fun k => if k <? 3 then Some (ErrOther "dial tcp: connection refused")
              else None)
    (fun k _ => 7919 * (k + 1)) (fun _ => None)
    (fun _ => None) (fun _ => None)
    (fun _ _ => Ok (mkSpanMetricsResponse false 1 0 ["series"]))
    (fun _ _ => Ok (mkQueryRangeResponse ["series"] "")).

(** The generator as [New] returns it. *)
Definition gen_new : Generator :=
  mkGenerator gcfg0 ovr_plain (Some "metrics-generator") ∅ None false ∅
    false false false.

(** The context of the service, never cancelled. *)
Definition ctx_bg : Context := mkContext None None.

Definition ctx_t : Context := mkContext (Some "t") None.
Definition ctx_u : Context := mkContext (Some "u") None.
Definition req1 : PushSpansRequest := mkPushSpansRequest ["batch-1"].

(** A series of calls of [PushSpans], with the result of each. *)
Fixpoint pushes (env : GEnv) (calls : list (Context * PushSpansRequest))
    (g : Generator) (w : World)
    : list (result PushResponse) * Generator * World :=
  match calls with
  | [] => ([], g, w)
  | (ctx, req) :: rest =>
      let '(r, g, w) := PushSpans env ctx req g w in
      let '(rs, g, w) := pushes env rest g w in
      (r :: rs, g, w)
  end.

(** The generator and the world after tenants [t] and [u] have each
    pushed once. *)
Definition pushed2 : list (result PushResponse) * Generator * World :=
  pushes (genv env_ok) [(ctx_t, req1); (ctx_u, req1)] gen0 world0.
Definition gen2 : Generator := pushed2.1.2.
Definition world2 : World := pushed2.2.

(** A schedule of [stopping] for these two tenants in which the two
    shutdowns overlap: [t] begins, [u] begins, [u] ends, [t] ends. *)
Definition sched2 : list choice :=
  [RunMain; RunMain; RunMain; RunMain; RunMain;
   RunMain; RunBegin "t"; RunMain; RunBegin "u"; RunMain;
   RunEnd "u"; RunEnd "t"; RunMain].

(** The schedule that runs [stopping] up to its wait, then one shutdown
    goroutine after the other, then lets [stopping] return. *)
Definition sched_seq (order : list string) : list choice :=
  replicate 5 RunMain
  ++ replicate (S (length order)) RunMain
  ++ flat_map (fun id => [RunBegin id; RunEnd id]) order
  ++ [RunMain].

(** Where that schedule leaves the generator and the world. *)
Definition stopped2 : Generator * World :=
  default (gen2, world2) (stopping (genv env_ok) ["t"; "u"] sched2 gen2 world2).

(** *** Statements on the construction of an instance *)

(** The error of the step of [createInstance] that makes a traces WAL for
    a tenant: none when no path is configured, otherwise that of
    [tempodb_wal.New] on the path joined with the tenant. *)
Definition traces_wal_err (env : GEnv) (c : WALConfig) (id : string)
    : option error :=
  if decide (Filepath c = "") then None
  else tempodb_wal_New_err env (filepath_Join (to_path (Filepath c)) id).

(** The error of the final step of [createInstance], the registration of
    the temporary registry. *)
Definition registration_err (env : GEnv) (id : string) (g : Generator)
    : option error :=
  match Register_err env id with
  | Some e => Some e
  | None =>
      if decide (id ∈ reg g)
      then Some (ErrOther "duplicate metrics collector registration attempted")
      else None
  end.

(** *** Statements on the handshake of [starting] *)

(** [starting] gets as far as the probe loop: the ring part, if there is
    one, goes through, and the Kafka client is made. *)
Definition handshake_reached (env : GEnv) (g : Generator) : Prop :=
  (DisableGRPC (Generator.cfg g) = false ->
   NewManager_err env = None /\ StartManager_err env = None) /\
  NewGroupReaderClient_err env = None.

(** The first [n] probes fail and, if there is one among the ten, the
    next one succeeds. *)
Definition first_success (env : GEnv) (n : Z) : Prop :=
  0 <= n <= 10 /\
  (forall k, 0 <= k < n -> Ping_err env k ≠ None) /\
  (n < 10 -> Ping_err env n = None).

(** What the ring part of a start that goes through leaves in the
    trace. *)
Definition ring_events (g : Generator) : list event :=
  if DisableGRPC (Generator.cfg g) then []
  else [EvCall "services.NewManager" true;
        EvCall "services.StartManagerAndAwaitHealthy" true].

(** The failed probes from number [j] on, each with its warning and the
    sleep that follows it. *)
Fixpoint retry_trace (j : Z) (ds : list Duration) : list event :=
  match ds with
  | [] => []
  | d :: ds' =>
      [EvPing j false; EvLog Warn "ping kafka; will retry"; EvSleep d]
      ++ retry_trace (j + 1) ds'
  end.

(** The delay after the failed probe number [j] of an exponential
    backoff that starts at 100 ms. *)
Definition backoff_window (j : Z) (d : Duration) : Prop :=
  100 * Millisecond * 2 ^ j <= d < 200 * Millisecond * 2 ^ j.

(** How the handshake ends when the first success is at probe [n]: with
    that probe and the two auxiliary clients, or, when all ten probes
    fail, with the tenth failure, after which there is no sleep. *)
Definition handshake_last (n : Z) : list event :=
  if n <? 10
  then [EvPing n true; EvCall "kadm.NewClient" true;
        EvCall "ingest.NewPartitionOffsetClient" true]
  else [EvPing 9 false; EvLog Warn "ping kafka; will retry"].

Definition handshake_err (n : Z) : option error :=
  if n <? 10 then None
  else Some (ErrWrap "failed to ping kafka" (ErrOther "terminated after retries")).

(** The backoff of [starting] when [j] probes have failed. *)
Definition boff_at (j : Z) (b : Backoff) : Prop :=
  bcfg b = starting_backoff /\ numRetries b = j /\
  nextDelayMin b = 100 * Millisecond * 2 ^ j /\
  nextDelayMax b = Z.min (200 * Millisecond * 2 ^ j) Minute.

(** What the deferred function of [starting] adds when the probes are
    exhausted: the stop of the ring subservices, if there are any, and the
    log of its failure. *)
Definition handshake_cleanup (env : GEnv) (g : Generator) (n : Z) : list event :=
  if n <? 10 then []
  else if DisableGRPC (Generator.cfg g) && bool_decide (subservices g = None)
  then []
  else match StopManager_err env with
       | Some _ =>
           [EvCall "services.StopManagerAndAwaitStopped" false;
            EvLog Error "failed to gracefully stop metrics-generator dependencies"]
       | None => [EvCall "services.StopManagerAndAwaitStopped" true]
       end.

End Claims.

(** ** What the code keeps: the statements of further properties *)

Module Invariants.
Import Storage Generator.

(** An attempt to apply a remote-write configuration that was refused. *)
Definition is_failed_apply (e : event) : bool :=
  match e with EvApplyConfig _ _ false => true | _ => false end.

Definition count_failed (evs : list event) : nat :=
  length (List.filter is_failed_apply evs).

(** What the poll task leaves alone between two worlds: the files, the
    WALs, and of every storage and remote-write storage everything but
    the cached overrides, the configuration applied and the life of the
    task itself. *)
Definition watcher_frame (w w' : World) : Prop :=
  fs w' = fs w /\ wals w' = wals w /\ next_handle w' = next_handle w /\
  (forall h s, storages w !! h = Some s ->
     exists s', storages w' !! h = Some s' /\
       Storage.cfg s' = Storage.cfg s /\ walDir s' = walDir s /\
       remote s' = remote s /\ storage s' = storage s /\
       tenantID s' = tenantID s /\ closeCh s' = closeCh s) /\
  (forall r x, remotes w !! r = Some x ->
     exists x', remotes w' !! r = Some x' /\
       rs_dir x' = rs_dir x /\ rs_closed x' = rs_closed x).

(** The cached overrides of a storage are those of the configuration its
    remote-write storage forwards with. *)
Definition cache_applied (w : World) (h : nat) : Prop :=
  exists s r c,
    storages w !! h = Some s /\ remotes w !! remote s = Some r /\
    rs_conf r = Some c /\
    rw_headers c = currentHeaders s /\
    rw_sendNativeHistograms c = sendNativeHistograms s.

(** The stop of the ring subservices. *)
Definition is_stop_manager (e : event) : bool :=
  match e with
  | EvCall name _ => bool_decide (name = "services.StopManagerAndAwaitStopped")
  | _ => false
  end.

(** What the deferred function of [starting] leaves in the trace when it
    stops the subservices. *)
Definition deferred_stop_events (env : GEnv) : list event :=
  match StopManager_err env with
  | Some _ =>
      [EvCall "services.StopManagerAndAwaitStopped" false;
       EvLog Error "failed to gracefully stop metrics-generator dependencies"]
  | None => [EvCall "services.StopManagerAndAwaitStopped" true]
  end.

(** From [w] to [w'] no storage, WAL or remote-write storage is lost,
    made or reopened. *)
Definition closes_mono (w w' : World) : Prop :=
  (forall h s, storages w !! h = Some s ->
     exists s', storages w' !! h = Some s' /\ storage s' = storage s /\
                walDir s' = walDir s /\
                (closeCh s = true -> closeCh s' = true)) /\
  (forall h, storages w !! h = None -> storages w' !! h = None) /\
  (forall h d, wals w !! h = Some d ->
     exists d', wals w' !! h = Some d' /\
                (db_closed d = true -> db_closed d' = true)) /\
  (forall h r, remotes w !! h = Some r ->
     exists r', remotes w' !! h = Some r' /\
                (rs_closed r = true -> rs_closed r' = true)).

(** Every storage whose channel is closed has its WAL and its
    remote-write storage closed. *)
Definition closed_wf (w : World) : Prop :=
  forall h s, storages w !! h = Some s -> closeCh s = true ->
    (forall d, wals w !! primary (storage s) = Some d -> db_closed d = true) /\
    (forall r, remotes w !! secondary (storage s) = Some r -> rs_closed r = true).

(** From [w] to [w'] the trace has only grown, and for every storage
    that was open in [w] and is closed in [w'] what was added holds the
    close of its channel and, after it, the call that removes its WAL
    directory, with its outcome. *)
Definition removal_rel (env : Env) (w w' : World) : Prop :=
  exists evs,
    trace w' = trace w ++ evs /\
    forall h s s',
      storages w !! h = Some s -> closeCh s = false ->
      storages w' !! h = Some s' -> closeCh s' = true ->
      exists pre post,
        evs = pre ++ EvCloseCh h :: post /\
        EvRemoveAll (walDir s) (bool_decide (RemoveAll_err env (walDir s) = None))
          ∈ post.

(** The storage of every tenant whose shutdown has ended is closed. *)
Definition shut_inv (g : Generator) (c : config) : Prop :=
  forall id inst s,
    id ∈ finished c -> instances g !! id = Some inst ->
    storages (world c) !! wal inst = Some s -> closeCh s = true.

(** The string holds a path separator. *)
Fixpoint has_separator (s : string) : bool :=
  match s with
  | EmptyString => false
  | String a s' => bool_decide (String a "" = "/") || has_separator s'
  end.

(** A string that names one element of a path: [filepath.Join] appends it
    as it is.  For any other string ([..], or one with a separator in it)
    [filepath.Join] cleans the result, which can then lie anywhere, and
    [filepath_Join] does not follow it. *)
Definition clean_element (s : string) : Prop :=
  s ≠ "" /\ s ≠ "." /\ s ≠ ".." /\ has_separator s = false.

(** A schedule of [stopping] for the tenants [t] and [u] in which the
    shutdown of [t] begins and never ends. *)
Definition sched_stalled : list choice :=
  [RunMain; RunMain; RunMain; RunMain; RunMain; RunMain;
   RunBegin "t"; RunMain; RunBegin "u"; RunMain; RunEnd "u"; RunMain].

End Invariants.

(** * Theorems *)

(** ** The ring delegate *)

Section RingFacts.
Import Ring Claims.

Lemma first_fit_zero fuel c taken : first_fit fuel c 0 taken = [].
Proof. by destruct fuel. Qed.

Lemma first_fit_elem fuel : forall c n taken t,
  t ∈ first_fit fuel c n taken ->
  c <= t < c + Z.of_nat fuel /\ t ∉ taken.
Proof.
  induction fuel as [|fuel IH]; intros c n taken t Ht.
  - destruct n; simpl in Ht; by apply elem_of_nil in Ht.
  - destruct n as [|n]; simpl in Ht; [by apply elem_of_nil in Ht|].
    case_bool_decide as Hc.
    + apply IH in Ht. split; [lia | tauto].
    + apply elem_of_cons in Ht as [->|Ht].
      * split; [lia | done].
      * apply IH in Ht. split; [lia | tauto].
Qed.

Lemma first_fit_NoDup fuel : forall c n taken,
  NoDup (first_fit fuel c n taken).
Proof.
  induction fuel as [|fuel IH]; intros c n taken.
  - destruct n; constructor.
  - destruct n as [|n]; simpl; [constructor|].
    case_bool_decide; [apply IH|].
    constructor; [|apply IH].
    intros Hin. apply first_fit_elem in Hin. lia.
Qed.

Lemma taken_from_mono c taken :
  (length (taken_from (c + 1) taken) <= length (taken_from c taken))%nat.
Proof.
  unfold taken_from. induction taken as [|y l IH]; [done|].
  rewrite !filter_cons.
  destruct (decide (c + 1 <= y)), (decide (c <= y)); cbn [length]; lia.
Qed.

Lemma taken_from_skip c taken :
  c ∈ taken ->
  (length (taken_from (c + 1) taken) < length (taken_from c taken))%nat.
Proof.
  induction taken as [|x l IH]; intros Hin.
  - by apply elem_of_nil in Hin.
  - pose proof (taken_from_mono c l) as Hm. unfold taken_from in *.
    rewrite !filter_cons. apply elem_of_cons in Hin as [<-|Hin].
    + destruct (decide (c + 1 <= c)); [lia|].
      destruct (decide (c <= c)); [|lia]. cbn [length]. lia.
    + specialize (IH Hin).
      destruct (decide (c + 1 <= x)), (decide (c <= x)); cbn [length]; lia.
Qed.

Lemma first_fit_length fuel : forall c n taken,
  (n + length (taken_from c taken) <= fuel)%nat ->
  length (first_fit fuel c n taken) = n.
Proof.
  induction fuel as [|fuel IH]; intros c n taken Hf.
  - destruct n; [done | lia].
  - destruct n as [|n]; [done|]. simpl.
    case_bool_decide as Hc.
    + apply IH. pose proof (taken_from_skip c taken Hc). lia.
    + simpl. f_equal. apply IH.
      pose proof (taken_from_mono c taken). lia.
Qed.

(** The first-fit generator meets the contract of a token generator. *)
Lemma first_fit_ok : TokenGenerator_ok first_fit_tokens.
Proof.
  split; unfold first_fit_tokens.
  - intros n taken Hn. replace (Z.to_nat n) with 0%nat by lia.
    apply first_fit_zero.
  - intros n taken Hn _. rewrite first_fit_length; [lia|].
    pose proof (length_filter (fun t => 0 <= t) taken).
    unfold taken_from. lia.
  - intros n taken t Hroom Ht. destruct (decide (0 <= n)) as [Hn|Hn].
    + apply first_fit_elem in Ht as [Hr Hnt]. split; [done | lia].
    + replace (Z.to_nat n) with 0%nat in Ht by lia.
      rewrite first_fit_zero in Ht. by apply elem_of_nil in Ht.
  - intros n taken _. apply first_fit_NoDup.
Qed.

(** The tokens of an instance of the ring are among the tokens of the
    ring. *)
Lemma Desc_GetTokens_instance (ringDesc : Desc) (id : string) (d : InstanceDesc) :
  Ingesters ringDesc !! id = Some d -> Tokens d ⊆ Desc_GetTokens ringDesc.
Proof.
  intros Hd t Ht. unfold Desc_GetTokens.
  apply list_elem_of_In, in_concat. exists (Tokens d). split.
  - apply in_map_iff. exists (id, d). split; [done|].
    apply list_elem_of_In. by apply elem_of_map_to_list.
  - by apply list_elem_of_In.
Qed.




End RingFacts.

(** ** The storage package *)

Section HeadersFacts.
Import Storage Claims.

Lemma headersEqual_true (a b : gmap string string) :
  headersEqual a b = true <->
  size a = size b /\ forall k v, a !! k = Some v -> default "" (b !! k) = v.
Proof.
  unfold headersEqual. case_bool_decide as Hsz; simpl.
  - rewrite <- Is_true_true, forallb_True, Forall_forall. split.
    + intros H. split; [done|]. intros k v Hk.
      apply elem_of_map_to_list in Hk. apply H in Hk.
      by apply bool_decide_unpack in Hk.
    + intros [_ H] [k v] Hk. apply elem_of_map_to_list in Hk.
      apply bool_decide_pack. by apply H.
  - split; [done | tauto].
Qed.

Lemma headersEqual_refl (a : gmap string string) : headersEqual a a = true.
Proof.
  apply headersEqual_true. split; [done|]. by intros k v ->.
Qed.

(** When no cached header is empty, [headersEqual] says what it is meant
    to say. *)
Lemma headersEqual_sound (a b : gmap string string) :
  no_empty_value a -> headersEqual a b = true -> a = b.
Proof.
  intros Hne [Hsz H]%headersEqual_true.
  apply map_subseteq_size_eq; [|lia].
  apply map_subseteq_spec. intros k v Hk.
  specialize (H k v Hk). destruct (b !! k) as [v'|] eqn:Hb; simpl in H.
  - by subst.
  - subst v. by apply Hne in Hk.
Qed.

Lemma headersEqual_false (a b : gmap string string) :
  headersEqual a b = false -> a ≠ b.
Proof. intros H ->. by rewrite headersEqual_refl in H. Qed.

(** A header set that changes without [headersEqual] seeing it: a header
    with an empty value is replaced by another one. *)
Lemma headersEqual_misses_change :
  headersEqual {[ "x" := "" ]} {[ "y" := "" ]} = true /\
  ({[ "x" := "" ]} : gmap string string) ≠ {[ "y" := "" ]}.
Proof.
  split; [by vm_compute|].
  intros H. assert (Hx : ({[ "x" := "" ]} : gmap string string) !! "x" = Some "")
    by apply lookup_singleton_eq.
  rewrite H in Hx. by rewrite lookup_singleton_ne in Hx.
Qed.

End HeadersFacts.

Section WatcherFacts.
Import Storage Claims.
Variable env : Env.

Lemma change_seen_false o s :
  change_seen env o s = false <->
  headersEqual (currentHeaders s) (polled_headers o s) = true /\
  sendNativeHistograms s = polled_native env o s.
Proof.
  unfold change_seen. rewrite orb_false_iff, !negb_false_iff.
  by rewrite Bool.eqb_true_iff.
Qed.

(** A poll that sees no change does nothing. *)
Lemma watch_tick_unchanged o h w s :
  storages w !! h = Some s ->
  change_seen env o s = false ->
  watch_tick env o h w = w.
Proof.
  intros Hs Hc. unfold watch_tick. rewrite Hs.
  unfold change_seen, polled_headers, polled_native in Hc. by rewrite Hc.
Qed.

(** A poll that sees a change: the cache is written, then the
    configuration is applied in that world, then a failure is counted
    and logged. *)
Lemma watch_tick_changed o h w s :
  storages w !! h = Some s ->
  change_seen env o s = true ->
  watch_tick env o h w =
    let wm := set_cache h (polled_headers o s) (polled_native env o s)
                (log Info "updating remote write configuration" w) in
    match remote_ApplyConfig env (remote s) (polled_conf env o s) wm with
    | (Some _, w2) =>
        log Info "Failed to update remote write configuration. Remote write will continue with configuration"
          (failed_total_Inc (tenantID s) w2)
    | (None, w2) => w2
    end.
Proof.
  intros Hs Hc. unfold watch_tick. rewrite Hs.
  unfold change_seen, polled_headers, polled_native in Hc. rewrite Hc.
  cbv zeta. unfold polled_conf, polled_headers, polled_native.
  by destruct (remote_ApplyConfig _ _ _ _) as [[e|] w2].
Qed.

Lemma set_cache_lookup h hd nat_ w s :
  storages w !! h = Some s ->
  storages (set_cache h hd nat_ w) !! h
    = Some (mkStorageImpl (Storage.cfg s) (walDir s) (remote s) (storage s)
              (tenantID s) hd nat_ (closeCh s) (watching s)).
Proof.
  intros Hs. unfold set_cache. simpl. rewrite lookup_alter_eq. by rewrite Hs.
Qed.

Lemma same_but_cache_refl s : same_but_cache s s.
Proof. by repeat split. Qed.


Lemma same_but_cache_polled o s s' :
  same_but_cache s s' ->
  polled_headers o s' = polled_headers o s /\
  polled_native env o s' = polled_native env o s /\
  polled_conf env o s' = polled_conf env o s.
Proof.
  intros (Hc&_&_&_&Ht&_&_).
  unfold polled_conf, polled_headers, polled_native. by rewrite Hc, Ht.
Qed.

(** Everything one poll does. *)
Lemma watch_tick_effect o h w s r :
  storages w !! h = Some s ->
  remotes w !! remote s = Some r ->
  let w' := watch_tick env o h w in
  exists s' r',
    storages w' !! h = Some s' /\ same_but_cache s s' /\
    remotes w' !! remote s = Some r' /\
    rs_closed r' = rs_closed r /\ rs_dir r' = rs_dir r /\
    wals w' = wals w /\ fs w' = fs w /\ now w' = now w /\
    if change_seen env o s then
      currentHeaders s' = polled_headers o s /\
      sendNativeHistograms s' = polled_native env o s /\
      match ApplyConfig_err env (polled_conf env o s) with
      | None =>
          trace w' = trace w ++
            [EvLog Info "updating remote write configuration";
             EvApplyConfig (remote s) (polled_conf env o s) true] /\
          rs_conf r' = Some (polled_conf env o s) /\
          update_failed_total w' = update_failed_total w
      | Some _ =>
          trace w' = trace w ++
            [EvLog Info "updating remote write configuration";
             EvApplyConfig (remote s) (polled_conf env o s) false;
             EvFailedTotalInc (tenantID s);
             EvLog Info "Failed to update remote write configuration. Remote write will continue with configuration"] /\
          r' = r /\
          update_failed_total w' =
            <[tenantID s := S (default 0%nat (update_failed_total w !! tenantID s))]>
              (update_failed_total w)
      end
    else w' = w /\ s' = s /\ r' = r.
Proof.
  intros Hs Hr w'. subst w'.
  destruct (change_seen env o s) eqn:Hc.
  - rewrite (watch_tick_changed o h w s Hs Hc). cbv zeta.
    unfold remote_ApplyConfig.
    destruct (ApplyConfig_err env (polled_conf env o s)) as [e|] eqn:He.
    + eexists _, r. simpl. rewrite lookup_alter_eq, Hs. simpl.
      split_and!; try done. by rewrite <- !app_assoc.
    + eexists _, _. simpl. rewrite !lookup_alter_eq, Hs, Hr. simpl.
      split_and!; try done. by rewrite <- !app_assoc.
  - rewrite (watch_tick_unchanged o h w s Hs Hc).
    exists s, r. split_and!; first [done | apply same_but_cache_refl].
Qed.




Lemma reapplied_same w : reapplied w w = false.
Proof. unfold reapplied, new_events. by rewrite drop_all. Qed.

(** C10.  When a poll sees a change, the cached headers and mode are
    overwritten with the polled values in the world in which the
    configuration is then applied, and they stay overwritten whether the
    application succeeds or fails.  A later poll of the same values
    therefore does nothing, and a later poll that does reapply has read
    other values. *)
Theorem watch_tick_cache_first (o : Overrides) (h : nat) (w : World)
    (s : storageImpl) :
  storages w !! h = Some s ->
  change_seen env o s = true ->
  let wm := set_cache h (polled_headers o s) (polled_native env o s)
              (log Info "updating remote write configuration" w) in
  let w' := watch_tick env o h w in
  (exists sm, storages wm !! h = Some sm /\
     currentHeaders sm = polled_headers o s /\
     sendNativeHistograms sm = polled_native env o s /\
     reapplied w wm = false) /\
  w' = match remote_ApplyConfig env (remote s) (polled_conf env o s) wm with
       | (Some _, w2) =>
           log Info "Failed to update remote write configuration. Remote write will continue with configuration"
             (failed_total_Inc (tenantID s) w2)
       | (None, w2) => w2
       end /\
  (exists s', storages w' !! h = Some s' /\ same_but_cache s s' /\
     currentHeaders s' = polled_headers o s /\
     sendNativeHistograms s' = polled_native env o s) /\
  (forall o2,
     polled_headers o2 s = polled_headers o s ->
     polled_native env o2 s = polled_native env o s ->
     watch_tick env o2 h w' = w') /\
  (forall o3,
     reapplied w' (watch_tick env o3 h w') = true ->
     polled_headers o3 s ≠ polled_headers o s \/
     polled_native env o3 s ≠ polled_native env o s).
Proof.
  intros Hs Hc wm w'.
  assert (Hwm : storages wm !! h
                = Some (mkStorageImpl (Storage.cfg s) (walDir s) (remote s)
                          (storage s) (tenantID s) (polled_headers o s)
                          (polled_native env o s) (closeCh s) (watching s))).
  { subst wm. by apply set_cache_lookup. }
  assert (Hw' : w' = match remote_ApplyConfig env (remote s) (polled_conf env o s) wm with
                     | (Some _, w2) =>
                         log Info "Failed to update remote write configuration. Remote write will continue with configuration"
                           (failed_total_Inc (tenantID s) w2)
                     | (None, w2) => w2
                     end).
  { subst w' wm. by rewrite (watch_tick_changed o h w s Hs Hc). }
  assert (Hst : storages w' = storages wm).
  { rewrite Hw'. unfold remote_ApplyConfig.
    by destruct (ApplyConfig_err env (polled_conf env o s)). }
  set (s' := mkStorageImpl (Storage.cfg s) (walDir s) (remote s)
               (storage s) (tenantID s) (polled_headers o s)
               (polled_native env o s) (closeCh s) (watching s)) in *.
  assert (Hs' : storages w' !! h = Some s') by (by rewrite Hst).
  assert (Hsame : same_but_cache s s') by (by repeat split).
  assert (Hquiet : forall o2,
            polled_headers o2 s = polled_headers o s ->
            polled_native env o2 s = polled_native env o s ->
            change_seen env o2 s' = false).
  { intros o2 Hh Hn. apply change_seen_false.
    destruct (same_but_cache_polled o2 s s' Hsame) as (-> & -> & _).
    rewrite Hh, Hn. split; [apply headersEqual_refl | done]. }
  split_and!.
  - eexists. split; [exact Hwm|]. split_and!; try done.
    subst wm. unfold reapplied, new_events, set_cache, log. simpl.
    by rewrite drop_app_length.
  - exact Hw'.
  - by exists s'.
  - intros o2 Hh Hn.
    exact (watch_tick_unchanged o2 h w' s' Hs' (Hquiet o2 Hh Hn)).
  - intros o3 Hre.
    destruct (decide (polled_headers o3 s = polled_headers o s)) as [Hh|]; [|by left].
    destruct (decide (polled_native env o3 s = polled_native env o s)) as [Hn|]; [|by right].
    rewrite (watch_tick_unchanged o3 h w' s' Hs' (Hquiet o3 Hh Hn)) in Hre.
    by rewrite reapplied_same in Hre.
Qed.

End WatcherFacts.

Section WatcherExamples.
Import Storage Claims.



(** C10 at work on the same tenant. *)
Lemma watch_tick_cache_first_witness :
  storages (world_t env_bad_header) !! h_t = Some s_t /\
  change_seen env_bad_header ovr_bad s_t = true /\
  watch_tick env_bad_header ovr_bad h_t
    (watch_tick env_bad_header ovr_bad h_t (world_t env_bad_header))
  = watch_tick env_bad_header ovr_bad h_t (world_t env_bad_header).
Proof.
  assert (Hs : storages (world_t env_bad_header) !! h_t = Some s_t)
    by (vm_compute; reflexivity).
  assert (Hc : change_seen env_bad_header ovr_bad s_t = true)
    by (vm_compute; reflexivity).
  split; [exact Hs|]. split; [exact Hc|].
  destruct (watch_tick_cache_first env_bad_header ovr_bad h_t
              (world_t env_bad_header) s_t Hs Hc)
    as (_ & _ & _ & Hquiet & _).
  by apply Hquiet.
Defined.

End WatcherExamples.

Section FileSystemFacts.
Import Storage Claims.

Lemma filepath_Join_wal (p : path) : filepath_Join p "wal" = p ++ ["wal"].
Proof. done. Qed.

Lemma filepath_Join_segment (p : path) :
  filepath_Join (filepath_Join p "wal") "00000000" = p ++ ["wal"; "00000000"].
Proof. unfold filepath_Join. simpl. by rewrite <- app_assoc. Qed.

Lemma elem_of_prefixes (p q : path) :
  q ∈ prefixes p <-> q ≠ [] /\ q `prefix_of` p.
Proof.
  unfold prefixes. rewrite list_elem_of_fmap. split.
  - intros (n & -> & Hn). apply elem_of_seq in Hn. split.
    + intros Ht. apply (f_equal length) in Ht. rewrite length_take in Ht.
      simpl in Ht. lia.
    + apply prefix_take.
  - intros (Hne & k & ->). exists (length q). split.
    + by rewrite take_app_length.
    + apply elem_of_seq. rewrite length_app. destruct q; [done|simpl; lia].
Qed.

Lemma lookup_mkdirs (l : list path) (fs : gmap path node) (q : path) :
  foldr (fun q acc => <[q := Dir]> acc) fs l !! q
  = if decide (q ∈ l) then Some Dir else fs !! q.
Proof.
  induction l as [|p l IH]; cbn [foldr].
  - destruct (decide (q ∈ [])) as [H|]; [by apply elem_of_nil in H | done].
  - destruct (decide (p = q)) as [->|Hne].
    + rewrite lookup_insert_eq.
      destruct (decide (q ∈ q :: l)) as [|H]; [done|].
      destruct H. apply list_elem_of_here.
    + rewrite lookup_insert_ne by done. rewrite IH.
      destruct (decide (q ∈ l)) as [Hl|Hl], (decide (q ∈ p :: l)) as [Hpl|Hpl];
        try done.
      * destruct Hpl. by apply list_elem_of_further.
      * apply elem_of_cons in Hpl as [->|?]; done.
Qed.

Lemma RemoveAll_fs_absent (p : path) (fs : gmap path node) :
  p ≠ [] -> absent p (RemoveAll_fs p fs).
Proof.
  intros Hp q Hq. unfold RemoveAll_fs. rewrite decide_False by done.
  apply map_lookup_filter_None. right. intros x _. simpl. tauto.
Qed.

Lemma RemoveAll_fs_others (p q : path) (fs : gmap path node) :
  ¬ p `prefix_of` q -> RemoveAll_fs p fs !! q = fs !! q.
Proof.
  intros Hq. unfold RemoveAll_fs. destruct (decide (p = [])); [done|].
  destruct (fs !! q) as [x|] eqn:Hfs.
  - by apply map_lookup_filter_Some.
  - apply map_lookup_filter_None. by left.
Qed.

(** Between a path and the path with one more element there is nothing. *)
Lemma prefix_between (p q : path) (x : string) :
  p `prefix_of` q -> q `prefix_of` p ++ [x] -> q = p \/ q = p ++ [x].
Proof.
  intros [k ->] Hq. apply prefix_app_inv in Hq.
  destruct Hq as [k' Hk]. destruct k as [|y k].
  - left. by rewrite app_nil_r.
  - right. simpl in Hk. injection Hk as -> Hk.
    destruct k; [done|]. by destruct k'.
Qed.

End FileSystemFacts.

Section StorageFacts.
Import Storage Claims.
Variable env : Env.

(** What a construction that completes has done. *)
Lemma New_Ok cfg o tenant w h w1 :
  Storage.New env cfg o tenant w = (Ok h, w1) ->
  let walDir := walDir_of cfg tenant in
  let next := next_handle w in
  let c := generateTenantRemoteWriteConfigs (RemoteWrite cfg) tenant
             (MetricsGeneratorRemoteWriteHeaders o tenant)
             (RemoteWriteAddOrgIDHeader cfg)
             (HasNativeHistograms env (MetricsGeneratorGenerateNativeHistograms o tenant)) in
  let fs_r := match RemoveAll_err env walDir with
              | None => RemoveAll_fs walDir (fs w)
              | Some _ => fs w
              end in
  exists fs_m,
    MkdirAll_fs (filepath_Join walDir "wal") fs_r = Some fs_m /\
    h = S (S next) /\
    fs w1 = <[filepath_Join (filepath_Join walDir "wal") "00000000" := File ""]> fs_m /\
    remotes w1 = <[next := mkRemoteStorage walDir (Some c) false]> (remotes w) /\
    wals w1 = <[S next := mkAgentDB walDir false]> (wals w) /\
    storages w1 = <[h := mkStorageImpl cfg walDir next (mkFanout (S next) next)
                          tenant (MetricsGeneratorRemoteWriteHeaders o tenant)
                          (rw_sendNativeHistograms c) false true]> (storages w) /\
    next_handle w1 = S h /\
    update_failed_total w1 = update_failed_total w /\
    now w1 = now w /\
    trace w1 = trace w ++ New_events env cfg o tenant next.
Proof.
  unfold Storage.New, New_events, walDir_of.
  unfold os_RemoveAll, os_MkdirAll, remote_NewStorage, remote_ApplyConfig,
    agent_Open.
  set (walDir := filepath_Join (to_path (Path cfg)) tenant).
  destruct (RemoveAll_err env walDir) as [e0|];
    simpl; destruct (MkdirAll_err env (filepath_Join walDir "wal")); simpl;
      try discriminate.
  all: match goal with
       | |- context [MkdirAll_fs ?p ?f] => destruct (MkdirAll_fs p f) as [fs_m|] eqn:Hmk
       end; simpl; try discriminate.
  all: destruct (ApplyConfig_err env _); simpl; try discriminate.
  all: destruct (agent_Open_err env walDir); simpl; try discriminate.
  all: intros [= <- <-]; exists fs_m; simpl.
  all: rewrite ?alter_insert_eq; simpl.
  all: split_and!; try done.
  all: rewrite <- ?app_assoc; try done.
Qed.

Lemma walDir_of_nonempty cfg tenant : Path cfg ≠ "" -> walDir_of cfg tenant ≠ [].
Proof.
  intros Hp. unfold walDir_of, filepath_Join, to_path.
  destruct (decide (Path cfg = "")); [done|]. done.
Qed.

(** Pre-clean: when the removal at start-up succeeds, the WAL directory of
    a storage just built holds only what the construction made. *)
Lemma New_preclean cfg o tenant w h w1 :
  Path cfg ≠ "" ->
  RemoveAll_err env (walDir_of cfg tenant) = None ->
  Storage.New env cfg o tenant w = (Ok h, w1) ->
  fresh_wal_dir (walDir_of cfg tenant) (fs w1).
Proof.
  intros Hp Hrm HN. apply New_Ok in HN. cbv zeta in HN.
  destruct HN as (fs_m & Hmk & _ & Hfs & _). rewrite Hrm in Hmk.
  pose proof (walDir_of_nonempty cfg tenant Hp) as Hne.
  set (walDir := walDir_of cfg tenant) in *.
  unfold MkdirAll_fs in Hmk.
  destruct (decide (filepath_Join walDir "wal" = [])); [done|].
  destruct (existsb _ _); [done|]. injection Hmk as <-.
  intros q nd Hq Hl. rewrite Hfs in Hl. unfold created_by_New.
  destruct (decide (filepath_Join (filepath_Join walDir "wal") "00000000" = q))
    as [<-|Hseg].
  - rewrite lookup_insert_eq in Hl. injection Hl as <-.
    do 2 apply list_elem_of_further. apply list_elem_of_here.
  - rewrite lookup_insert_ne in Hl by done. rewrite lookup_mkdirs in Hl.
    revert Hl. case_decide as Hin; intros Hl.
    + injection Hl as <-. apply elem_of_prefixes in Hin as [_ Hin].
      rewrite filepath_Join_wal in *.
      destruct (prefix_between walDir q "wal" Hq Hin) as [->| ->].
      * apply list_elem_of_here.
      * apply list_elem_of_further, list_elem_of_here.
    + pose proof (RemoveAll_fs_absent walDir (fs w) Hne q Hq) as Ha.
      congruence.
Qed.

Lemma multi_errs_nonempty (e : error) : multi_errs e ≠ [].
Proof. by destruct e as [| | | | |[|x l]]. Qed.

Lemma NewMulti_Err_None (errs : list (option error)) :
  NewMulti_Err errs = None <-> Forall (fun e => e = None) errs.
Proof.
  unfold NewMulti_Err. induction errs as [|[e|] errs IH]; simpl.
  - done.
  - pose proof (multi_errs_nonempty e).
    destruct (multi_errs e) eqn:He; [done|]. simpl.
    split; [done|]. by intros [? _]%Forall_cons_1.
  - rewrite IH. split; [by constructor | by intros [_ ?]%Forall_cons_1].
Qed.

Lemma NewMulti_Err_None_3 (e1 e2 e3 : option error) :
  NewMulti_Err [NewMulti_Err [e1; e2]; e3] = None <->
  e1 = None /\ e2 = None /\ e3 = None.
Proof.
  rewrite NewMulti_Err_None, !Forall_cons, NewMulti_Err_None, !Forall_cons.
  rewrite !Forall_nil. tauto.
Qed.

(** Everything [Close] does to a storage that is open. *)
Lemma Close_open h w s :
  storages w !! h = Some s ->
  closeCh s = false ->
  let e_wal := match wals w !! primary (storage s) with
               | Some d => wal_Close_err env (db_dir d)
               | None => None
               end in
  let e_remote := match remotes w !! secondary (storage s) with
                  | Some r => remote_Close_err env (rs_dir r)
                  | None => None
                  end in
  let e_rm := RemoveAll_err env (walDir s) in
  exists w',
    Storage.Close env h w
      = (NewMulti_Err [NewMulti_Err [e_wal; e_remote]; e_rm], w') /\
    trace w' = trace w ++
      [EvLog Info "closing WAL"; EvCloseCh h;
       EvWalClose (primary (storage s)); EvRemoteClose (secondary (storage s));
       EvRemoveAll (walDir s) (bool_decide (e_rm = None))] /\
    storages w' = <[h := mkStorageImpl (Storage.cfg s) (walDir s) (remote s)
                          (storage s) (tenantID s) (currentHeaders s)
                          (sendNativeHistograms s) true (watching s)]> (storages w) /\
    wals w' = alter (fun d => mkAgentDB (db_dir d) true) (primary (storage s)) (wals w) /\
    remotes w' = alter (fun r => mkRemoteStorage (rs_dir r) (rs_conf r) true)
                   (secondary (storage s)) (remotes w) /\
    fs w' = match e_rm with
            | None => RemoveAll_fs (walDir s) (fs w)
            | Some _ => fs w
            end.
Proof.
  intros Hs Hc e_wal e_remote e_rm. subst e_wal e_remote e_rm.
  unfold Storage.Close. rewrite Hs, Hc.
  unfold Fanout_Close, wal_Close, remote_Close, os_RemoveAll. simpl.
  destruct (RemoveAll_err env (walDir s)); eexists; (split; [reflexivity|]);
    simpl; rewrite <- ?app_assoc; split_and!; try done.
  all: apply map_eq; intros i; destruct (decide (i = h)) as [->|];
    [by rewrite lookup_alter_eq, lookup_insert_eq, Hs
    |by rewrite lookup_alter_ne, lookup_insert_ne].
Qed.

(** C5, as amended.  Construction: when the removal at start-up succeeds
    and construction completes, the WAL directory was removed first, then
    the [wal] subdirectory was made, then the remote storage was set up and
    the WAL opened, then the poll task started; the WAL directory holds the
    [wal] subdirectory and nothing that was there before.  Close of an open
    storage: [closeCh] is closed, so that the poll task returns the next
    time it selects it; the WAL and the remote storage are closed; the
    directory is removed; the errors of the two closes and of the removal
    are returned joined, none being lost; and whenever the removal
    succeeds, as it has when Close returns no error, the directory is
    absent. *)
Theorem storage_preclean_postclean :
  (forall cfg o tenant w h w1,
     Path cfg ≠ "" ->
     RemoveAll_err env (walDir_of cfg tenant) = None ->
     Storage.New env cfg o tenant w = (Ok h, w1) ->
     let walDir := walDir_of cfg tenant in
     (exists c,
        trace w1 = trace w ++
          [EvLog Info "clearing old WAL on start up";
           EvRemoveAll walDir true;
           EvLog Info "creating WAL";
           EvMkdirAll (filepath_Join walDir "wal") true;
           EvRemoteNewStorage (next_handle w);
           EvApplyConfig (next_handle w) c true;
           EvAgentOpen walDir true;
           EvGoWatchOverrides h]) /\
     fresh_wal_dir walDir (fs w1) /\
     fs w1 !! filepath_Join walDir "wal" = Some Dir /\
     exists s, storages w1 !! h = Some s /\ Storage.walDir s = walDir /\
               closeCh s = false /\ watching s = true)
  /\
  (forall h w s,
     storages w !! h = Some s ->
     closeCh s = false ->
     let e_wal := match wals w !! primary (storage s) with
                  | Some d => wal_Close_err env (db_dir d)
                  | None => None
                  end in
     let e_remote := match remotes w !! secondary (storage s) with
                     | Some r => remote_Close_err env (rs_dir r)
                     | None => None
                     end in
     let e_rm := RemoveAll_err env (walDir s) in
     let err := NewMulti_Err [NewMulti_Err [e_wal; e_remote]; e_rm] in
     exists w',
       Storage.Close env h w = (err, w') /\
       trace w' = trace w ++
         [EvLog Info "closing WAL"; EvCloseCh h;
          EvWalClose (primary (storage s));
          EvRemoteClose (secondary (storage s));
          EvRemoveAll (walDir s) (bool_decide (e_rm = None))] /\
       (exists s', storages w' !! h = Some s' /\ closeCh s' = true) /\
       (forall rest,
          watchOverrides env (SelCloseCh :: rest) h w'
          = emit (EvWatcherReturn h) (set_watching h false w')) /\
       (forall d, wals w !! primary (storage s) = Some d ->
          wals w' !! primary (storage s) = Some (mkAgentDB (db_dir d) true)) /\
       (forall r, remotes w !! secondary (storage s) = Some r ->
          remotes w' !! secondary (storage s)
          = Some (mkRemoteStorage (rs_dir r) (rs_conf r) true)) /\
       (err = None <-> e_wal = None /\ e_remote = None /\ e_rm = None) /\
       (e_rm = None -> walDir s ≠ [] -> absent (walDir s) (fs w'))).
Proof.
  split.
  - intros cfg o tenant w h w1 Hp Hrm HN walDir.
    pose proof (New_preclean cfg o tenant w h w1 Hp Hrm HN) as Hfresh.
    apply New_Ok in HN. cbv zeta in HN.
    destruct HN as (fs_m & Hmk & Hh & Hfs & _ & _ & Hst & _ & _ & _ & Htr).
    fold walDir in Hmk, Hfs, Hst, Hrm, Hfresh.
    split_and!.
    + eexists. rewrite Htr. unfold New_events. fold walDir. rewrite Hrm.
      simpl. by rewrite Hh.
    + done.
    + rewrite Hfs. rewrite filepath_Join_segment, filepath_Join_wal.
      rewrite lookup_insert_ne.
      2:{ intros Heq. apply (f_equal length) in Heq.
          rewrite !length_app in Heq. simpl in Heq. lia. }
      rewrite Hrm in Hmk. unfold MkdirAll_fs in Hmk.
      rewrite filepath_Join_wal in Hmk.
      destruct (decide (walDir ++ ["wal"] = [])); [done|].
      destruct (existsb _ _); [done|]. injection Hmk as <-.
      rewrite lookup_mkdirs. rewrite decide_True; [done|].
      apply elem_of_prefixes. split; [done|]. done.
    + eexists. rewrite Hst. rewrite lookup_insert_eq. done.
  - intros h w s Hs Hc e_wal e_remote e_rm err.
    destruct (Close_open h w s Hs Hc)
      as (w' & HC & Htr & Hst & Hw & Hr & Hfs).
    exists w'. split_and!.
    + exact HC.
    + exact Htr.
    + eexists. rewrite Hst, lookup_insert_eq. done.
    + intros rest. unfold watchOverrides. cbn [watch_loop].
      by rewrite Hst, lookup_insert_eq.
    + intros d Hd. by rewrite Hw, lookup_alter_eq, Hd.
    + intros r Hr'. by rewrite Hr, lookup_alter_eq, Hr'.
    + apply NewMulti_Err_None_3.
    + intros Hrm Hne. rewrite Hfs. fold e_rm. rewrite Hrm.
      by apply RemoveAll_fs_absent.
Qed.

End StorageFacts.

Section StorageExamples.
Import Storage Claims.

(** C5 at work: the storage of tenant [t] is built on the disk left by a
    crash, and the storage of [world_t] is closed. *)
Lemma storage_preclean_postclean_witness :
  (Path cfg0 ≠ "" /\
   RemoveAll_err env_ok (walDir_of cfg0 "t") = None /\
   Storage.New env_ok cfg0 ovr_plain "t" world_crashed = (Ok 2%nat, world_rebuilt) /\
   fresh_wal_dir ["/var/tempo"; "t"] (fs world_rebuilt)) /\
  (storages (world_t env_ok) !! h_t = Some s_t /\
   closeCh s_t = false /\
   exists w', Storage.Close env_ok h_t (world_t env_ok) = (None, w') /\
              absent ["/var/tempo"; "t"] (fs w')).
Proof.
  destruct (storage_preclean_postclean env_ok) as [HNew HClose].
  assert (Hp : Path cfg0 ≠ "") by done.
  assert (HN : Storage.New env_ok cfg0 ovr_plain "t" world_crashed
               = (Ok 2%nat, world_rebuilt)) by (vm_compute; reflexivity).
  assert (Hs : storages (world_t env_ok) !! h_t = Some s_t) by (vm_compute; reflexivity).
  split.
  - split; [exact Hp|]. split; [reflexivity|]. split; [exact HN|].
    destruct (HNew cfg0 ovr_plain "t" world_crashed 2%nat world_rebuilt
                Hp eq_refl HN) as (_ & Hfresh & _).
    exact Hfresh.
  - split; [exact Hs|]. split; [reflexivity|].
    destruct (HClose h_t (world_t env_ok) s_t Hs eq_refl)
      as (w' & HC & _ & _ & _ & _ & _ & _ & Habs).
    exists w'. split; [exact HC|]. by apply Habs.
Defined.

(** C5, as the specification words it, fails: when the leftover WAL
    directory cannot be removed, the failure is only logged, construction
    completes, and the stale segment is still there. *)
Lemma preclean_spec_fails_when_removal_fails :
  ~ preclean_spec env_rm_fails cfg0 ovr_plain "t" world_crashed.
Proof.
  intros H.
  specialize (H 2%nat (Storage.New env_rm_fails cfg0 ovr_plain "t" world_crashed).2).
  specialize (H ltac:(vm_compute; reflexivity)).
  specialize (H ["/var/tempo"; "t"; "wal"; "00000007"] (File "stale")).
  assert (Hin : (["/var/tempo"; "t"; "wal"; "00000007"], File "stale")
                ∈ created_by_New (walDir_of cfg0 "t")).
  { apply H; [by exists ["wal"; "00000007"] | vm_compute; reflexivity]. }
  apply list_elem_of_In in Hin. simpl in Hin.
  destruct Hin as [Hin|[Hin|[Hin|[]]]]; discriminate Hin.
Qed.

End StorageExamples.

(** ** The generator package *)

Section EntryPointFacts.
Import Storage Generator Claims.
Variable env : GEnv.

(** C8.  A configuration whose storage path is empty makes [New] return
    [ErrUnconfigured] with the world as it was: no directory made or
    removed, nothing called, nothing started.  And a generator that [New]
    does return has the configuration it was given, with a storage path
    that is not empty, so that no tenant storage is ever built on an empty
    root. *)
Theorem New_unconfigured (cfg : Generator.Config) (o : Overrides) (w : World) :
  (Path (Generator.Storage cfg) = "" ->
   Generator.New env cfg o w = (Err ErrUnconfigured, w)) /\
  (forall g w', Generator.New env cfg o w = (Ok g, w') ->
     Generator.cfg g = cfg /\ Path (Generator.Storage (Generator.cfg g)) ≠ "" /\
     instances g = ∅ /\ readOnly g = false).
Proof.
  split.
  - intros Hp. unfold Generator.New. by rewrite decide_True.
  - intros g w'. unfold Generator.New.
    destruct (decide (Path (Generator.Storage cfg) = "")) as [|Hp]; [done|].
    destruct (Validate_err env cfg); [done|].
    destruct (os_MkdirAll _ _ _) as [[e|] w1]; [done|].
    destruct (negb (DisableGRPC cfg)).
    + unfold call.
      destruct (kv_NewClient_err env _); [done|].
      destruct (toLifecyclerConfig_err env _); [done|].
      destruct (NewBasicLifecycler_err env _); [done|].
      by intros [= <- <-].
    + by intros [= <- <-].
Qed.

(** C9.  For a tenant without an instance in the registry, [GetMetrics]
    and [QueryRange] return the empty response and no error, and leave the
    generator, and so its registry, as it was. *)
Theorem queries_empty_without_instance (ctx : Context) (id : string)
    (g : Generator) (mreq : SpanMetricsRequest) (qreq : QueryRangeRequest) :
  orgID ctx = Some id ->
  instances g !! id = None ->
  GetMetrics env ctx mreq g = (Ok empty_SpanMetricsResponse, g) /\
  QueryRange env ctx qreq g = (Ok empty_QueryRangeResponse, g).
Proof.
  intros Hctx Hid.
  unfold GetMetrics, QueryRange, ExtractOrgID, getInstanceByID.
  by rewrite Hctx, Hid.
Qed.

(** C2.  Once the read-only flag is set, every call of [PushSpans], in
    any number and for any tenants, returns [ErrReadOnly] and leaves the
    generator and the world as they were: no instance is looked up or
    created, no spans are applied, and the flag stays set.
    [ErrReadOnly] is none of the other errors. *)
Theorem PushSpans_readOnly (calls : list (Context * PushSpansRequest))
    (g : Generator) (w : World) :
  readOnly g = true ->
  pushes env calls g w = ((fun _ => Err ErrReadOnly) <$> calls, g, w) /\
  ErrReadOnly ≠ ErrUnconfigured /\ ErrReadOnly ≠ ErrNoOrgID /\
  (forall msg, ErrReadOnly ≠ ErrOther msg) /\
  (forall prefix cause, ErrReadOnly ≠ ErrWrap prefix cause) /\
  (forall errs, ErrReadOnly ≠ ErrMulti errs).
Proof.
  intros Hro. split; [|by repeat split].
  induction calls as [|[ctx req] calls IH]; [done|].
  cbn [pushes fmap list_fmap]. unfold PushSpans at 1. rewrite Hro.
  by rewrite IH.
Qed.

End EntryPointFacts.

Section EntryPointExamples.
Import Storage Generator Claims.

Lemma New_unconfigured_witness :
  Path (Generator.Storage gcfg_nopath) = "" /\
  Generator.New (genv env_ok) gcfg_nopath ovr_plain world_crashed
  = (Err ErrUnconfigured, world_crashed).
Proof.
  split; [reflexivity|].
  by apply (New_unconfigured (genv env_ok) gcfg_nopath ovr_plain world_crashed).
Defined.

Lemma queries_empty_without_instance_witness :
  orgID ctx_t = Some "t" /\ instances gen0 !! "t" = None /\
  GetMetrics (genv env_ok) ctx_t (mkSpanMetricsRequest "q") gen0
  = (Ok empty_SpanMetricsResponse, gen0).
Proof.
  split; [reflexivity|]. split; [reflexivity|].
  by apply (queries_empty_without_instance (genv env_ok) ctx_t "t" gen0
              (mkSpanMetricsRequest "q") (mkQueryRangeRequest "q")).
Defined.

Lemma PushSpans_readOnly_witness :
  readOnly (stopIncomingRequests gen0 world0).1 = true /\
  pushes (genv env_ok) [(ctx_t, req1); (ctx_u, req1)]
    (stopIncomingRequests gen0 world0).1 (stopIncomingRequests gen0 world0).2
  = ([Err ErrReadOnly; Err ErrReadOnly],
     (stopIncomingRequests gen0 world0).1, (stopIncomingRequests gen0 world0).2).
Proof.
  split; [reflexivity|].
  by apply (PushSpans_readOnly (genv env_ok) [(ctx_t, req1); (ctx_u, req1)]
              (stopIncomingRequests gen0 world0).1
              (stopIncomingRequests gen0 world0).2).
Defined.

(** Before shutdown a first push builds the storage of the tenant,
    caches its instance and applies the spans. *)
Example PushSpans_first_push :
  exists g' w',
    PushSpans (genv env_ok) ctx_t req1 gen0 world0 = (Ok mkPushResponse, g', w') /\
    instances g' !! "t" = Some (mkInstance "t" 2 None None [req1]) /\
    fs w' !! ["/var/tempo"; "t"; "wal"] = Some Dir /\
    last (trace w') = Some (EvPushSpans "t").
Proof. eexists _, _. split; [vm_compute; reflexivity|]. by vm_compute. Qed.

(** A push without a tenant returns the error of the extraction, which is
    not the read-only error. *)
Example PushSpans_no_tenant :
  PushSpans (genv env_ok) ctx_bg req1 gen0 world0 = (Err ErrNoOrgID, gen0, world0).
Proof. reflexivity. Qed.

(** With an instance in the registry the queries are answered by it. *)
Example GetMetrics_with_instance :
  (GetMetrics (genv env_ok) ctx_t (mkSpanMetricsRequest "q") gen2).1
  = Ok (mkSpanMetricsResponse false 1 0 ["series"]).
Proof. vm_compute. reflexivity. Qed.

End EntryPointExamples.

Section RegistryFacts.
Import Storage Generator Claims.
Variable env : GEnv.

Lemma same_objects_refl w : same_objects w w.
Proof. by repeat split. Qed.

Lemma same_objects_trans w1 w2 w3 :
  same_objects w1 w2 -> same_objects w2 w3 -> same_objects w1 w3.
Proof.
  unfold same_objects. intros (?&?&?&?) (?&?&?&?). repeat split; congruence.
Qed.

Lemma same_objects_emit e w : same_objects w (emit e w).
Proof. by repeat split. Qed.

Lemma optional_wal_same c id w r w' :
  optional_wal env c id w = (r, w') -> same_objects w w'.
Proof.
  unfold optional_wal, tempodb_wal_New.
  destruct (decide (Filepath c = "")).
  - intros [= <- <-]. apply same_objects_refl.
  - destruct (tempodb_wal_New_err env _); intros [= <- <-];
      apply same_objects_emit.
Qed.

Lemma newInstance_same id h t1 t2 w r w' :
  newInstance env id h t1 t2 w = (r, w') ->
  same_objects w w' /\
  forall inst, r = Ok inst -> wal inst = h /\ instanceID inst = id.
Proof.
  unfold newInstance. destruct (newInstance_err env id); intros [= <- <-].
  - split; [apply same_objects_emit | done].
  - split; [apply same_objects_emit|]. by intros inst [= <-].
Qed.

Lemma reg_Register_same id g w err g' w' :
  reg_Register env id g w = (err, g', w') -> same_objects w w'.
Proof.
  unfold reg_Register. destruct (Register_err env id).
  - intros [= <- <- <-]. apply same_objects_emit.
  - destruct (decide (id ∈ reg g)); intros [= <- <- <-];
      apply same_objects_emit.
Qed.

Lemma storage_closed_same h w w' :
  same_objects w w' -> storage_closed h w -> storage_closed h w'.
Proof.
  intros (_ & Hr & Hw & Hs) (s & d & r & H). exists s, d, r.
  by rewrite Hr, Hw, Hs.
Qed.

(** Closing the storage that a construction returned, in a world with the
    same objects, closes it and, when the removal succeeds, removes the
    WAL directory. *)
Lemma Close_after_New cfg o tenant w h w1 w2 :
  Storage.New (sys env) cfg o tenant w = (Ok h, w1) ->
  same_objects w1 w2 ->
  exists err w',
    Storage.Close (sys env) h w2 = (err, w') /\
    storage_closed h w' /\
    (exists evs, trace w' = trace w2 ++ evs /\ EvCloseCh h ∈ evs) /\
    (Path cfg ≠ "" -> RemoveAll_err (sys env) (walDir_of cfg tenant) = None ->
     absent (walDir_of cfg tenant) (fs w')).
Proof.
  intros HN (Hfs & Hr & Hw & Hs). apply New_Ok in HN. cbv zeta in HN.
  destruct HN as (fs_m & _ & Hh & _ & Hr1 & Hw1 & Hs1 & _).
  rewrite <- Hs in Hs1. rewrite <- Hr in Hr1. rewrite <- Hw in Hw1.
  match type of Hs1 with _ = <[_ := ?x]> _ => set (s0 := x) in * end.
  assert (Hl : storages w2 !! h = Some s0) by (by rewrite Hs1, lookup_insert_eq).
  destruct (Close_open (sys env) h w2 s0 Hl eq_refl)
    as (w' & HC & Htr & Hst & Hwal & Hrem & Hfs').
  eexists _, w'. split; [exact HC|]. split_and!.
  - eexists _, _, _. rewrite Hst, lookup_insert_eq. split; [done|].
    split; [done|]. rewrite Hwal, Hrem, Hw1, Hr1. simpl.
    rewrite !lookup_alter_eq, !lookup_insert_eq. done.
  - eexists. split; [exact Htr|]. apply list_elem_of_further, list_elem_of_here.
  - intros Hp Hrm. rewrite Hfs'. simpl. rewrite Hrm.
    apply RemoveAll_fs_absent. by apply walDir_of_nonempty.
Qed.

(** Shutting down an instance built on the storage that a construction
    returned closes that storage. *)
Lemma shutdown_after_New cfg o tenant w h w1 w2 inst :
  Storage.New (sys env) cfg o tenant w = (Ok h, w1) ->
  same_objects w1 w2 ->
  wal inst = h ->
  storage_closed h (shutdown env inst w2) /\
  (exists evs,
     trace (shutdown env inst w2)
     = trace w2 ++ [EvShutdownBegin (instanceID inst)] ++ evs
       ++ [EvShutdownEnd (instanceID inst)] /\
     EvCloseCh h ∈ evs) /\
  (Path cfg ≠ "" -> RemoveAll_err (sys env) (walDir_of cfg tenant) = None ->
   absent (walDir_of cfg tenant) (fs (shutdown env inst w2))).
Proof.
  intros HN Hsame Hwal. unfold shutdown, shutdown_body. rewrite Hwal.
  set (wb := emit (EvCall "instance.flush" true)
               (emit (EvShutdownBegin (instanceID inst)) w2)).
  assert (Hsb : same_objects w1 wb).
  { eapply same_objects_trans; [exact Hsame|]. by repeat split. }
  destruct (Close_after_New cfg o tenant w h w1 wb HN Hsb)
    as (err & w' & HC & Hcl & (evs & Htr & Hin) & Habs).
  rewrite HC.
  assert (Hso : forall wx, same_objects w' wx -> storage_closed h wx)
    by (intros wx Hx; by apply (storage_closed_same h w')).
  split_and!.
  - apply Hso. destruct err; by repeat split.
  - exists ([EvCall "instance.flush" true] ++ evs
            ++ match err with
               | Some _ => [EvLog Error "closing wal failed"]
               | None => []
               end
            ++ [EvCall "instance.deregister" true]).
    split.
    + destruct err; simpl; rewrite Htr; subst wb; simpl;
        repeat rewrite <- app_assoc; simpl; done.
    + apply elem_of_app. right. apply elem_of_app. by left.
  - intros Hp Hrm. specialize (Habs Hp Hrm).
    intros q Hq. specialize (Habs q Hq). by destruct err.
Qed.

Lemma optional_wal_err c id w r w' :
  optional_wal env c id w = (r, w') ->
  traces_wal_err env c id = match r with Err e => Some e | Ok _ => None end.
Proof.
  unfold optional_wal, traces_wal_err, tempodb_wal_New.
  destruct (decide (Filepath c = "")).
  - by intros [= <- <-].
  - destruct (tempodb_wal_New_err env _); by intros [= <- <-].
Qed.

Lemma newInstance_err_eq id h t1 t2 w r w' :
  newInstance env id h t1 t2 w = (r, w') ->
  newInstance_err env id = match r with Err e => Some e | Ok _ => None end.
Proof.
  unfold newInstance. destruct (newInstance_err env id); by intros [= <- <-].
Qed.

Lemma reg_Register_err id g w err g' w' :
  reg_Register env id g w = (err, g', w') -> err = registration_err env id g.
Proof.
  unfold reg_Register, registration_err. destruct (Register_err env id).
  - by intros [= <- <- <-].
  - destruct (decide (id ∈ reg g)); by intros [= <- <- <-].
Qed.

(** C4, as amended.  What a call of [getOrCreateInstance] returns, step
    by step.  When it fails, the tenant was not cached, the error returned
    is the error of the first step that failed, and the generator, and so
    the registry, is left as it was.  Either the storage construction
    itself failed: its error is returned and the world is the one it left.
    Or the storage was built and has been closed before the return: by
    [Close] when the traces WAL, the traces-query WAL or the instance could
    not be made, the error being the one of that step, all steps before it
    having succeeded; by the shutdown of the instance when the final
    registration failed, with its error; then the WAL directory is gone
    when the removal succeeds.  The next call for the tenant runs the
    construction again.  When the call succeeds, either the tenant was
    cached and nothing is done, or every step has succeeded and the new
    instance is cached. *)
Theorem getOrCreateInstance_failure (id : string) (g : Generator) (w : World)
    (r : result instance) (g' : Generator) (w' : World) :
  getOrCreateInstance env id g w = (r, g', w') ->
  let cfg := Generator.cfg g in
  match r with
  | Ok inst =>
      (instances g !! id = Some inst /\ g' = g /\ w' = w) \/
      (instances g !! id = None /\
       (exists w1, Storage.New (sys env) (Generator.Storage cfg) (overrides g) id w
                   = (Ok (wal inst), w1)) /\
       traces_wal_err env (TracesWAL cfg) id = None /\
       traces_wal_err env (TracesQueryWAL cfg) id = None /\
       newInstance_err env id = None /\
       registration_err env id g = None /\
       instances g' = <[id := inst]> (instances g))
  | Err e =>
      g' = g /\ instances g !! id = None /\
      (Storage.New (sys env) (Generator.Storage cfg) (overrides g) id w
         = (Err e, w') \/
       exists h w1 w2,
         Storage.New (sys env) (Generator.Storage cfg) (overrides g) id w
           = (Ok h, w1) /\
         same_objects w1 w2 /\
         ((traces_wal_err env (TracesWAL cfg) id = Some e /\
           (Storage.Close (sys env) h w2).2 = w') \/
          (traces_wal_err env (TracesWAL cfg) id = None /\
           traces_wal_err env (TracesQueryWAL cfg) id = Some e /\
           (Storage.Close (sys env) h w2).2 = w') \/
          (traces_wal_err env (TracesWAL cfg) id = None /\
           traces_wal_err env (TracesQueryWAL cfg) id = None /\
           newInstance_err env id = Some e /\
           (Storage.Close (sys env) h w2).2 = w') \/
          (traces_wal_err env (TracesWAL cfg) id = None /\
           traces_wal_err env (TracesQueryWAL cfg) id = None /\
           newInstance_err env id = None /\
           registration_err env id g = Some e /\
           exists inst, wal inst = h /\ instanceID inst = id /\
                        shutdown env inst w2 = w')) /\
         storage_closed h w' /\
         (Path (Generator.Storage cfg) ≠ "" ->
          RemoveAll_err (sys env) (walDir_of (Generator.Storage cfg) id) = None ->
          absent (walDir_of (Generator.Storage cfg) id) (fs w'))) /\
      (forall w2,
         getOrCreateInstance env id g' w2 =
           match createInstance env id g w2 with
           | (Err e2, g2, w3) => (Err e2, g2, w3)
           | (Ok inst, g2, w3) =>
               (Ok inst, set_instances (<[id := inst]> (instances g2)) g2, w3)
           end)
  end.
Proof.
  intros Hc. cbv zeta.
  destruct (instances g !! id) as [inst0|] eqn:Hid.
  { revert Hc. unfold getOrCreateInstance, getInstanceByID. rewrite Hid.
    intros [= <- <- <-]. by left. }
  assert (Hretry : forall w2,
     getOrCreateInstance env id g w2 =
     match createInstance env id g w2 with
     | (Err e2, g2, w3) => (Err e2, g2, w3)
     | (Ok inst, g2, w3) =>
         (Ok inst, set_instances (<[id := inst]> (instances g2)) g2, w3)
     end).
  { intros w2. unfold getOrCreateInstance, getInstanceByID. rewrite Hid.
    by destruct (createInstance env id g w2) as [[[inst|e2] g2] w3]. }
  revert Hc. unfold getOrCreateInstance, getInstanceByID. rewrite Hid.
  unfold createInstance.
  destruct (Storage.New _ _ _ _ _) as [[h|e0] w1] eqn:HN.
  2:{ intros [= <- <- <-]. split; [done|]. split; [done|].
      split; [by left|exact Hretry]. }
  assert (Hclose : forall w2, same_objects w1 w2 ->
            storage_closed h (Storage.Close (sys env) h w2).2 /\
            (Path (Generator.Storage (Generator.cfg g)) ≠ "" ->
             RemoveAll_err (sys env)
               (walDir_of (Generator.Storage (Generator.cfg g)) id) = None ->
             absent (walDir_of (Generator.Storage (Generator.cfg g)) id)
               (fs (Storage.Close (sys env) h w2).2))).
  { intros w2 Hsame.
    destruct (Close_after_New _ _ _ _ _ _ w2 HN Hsame)
      as (err & wc & HC & Hcl & _ & Habs).
    rewrite HC. by split. }
  destruct (optional_wal env (TracesWAL _) id w1) as [[t1|e1] w2] eqn:H1;
    pose proof (optional_wal_err _ _ _ _ _ H1) as He1;
    pose proof (optional_wal_same _ _ _ _ _ H1) as Hs2.
  2:{ destruct (Hclose w2 Hs2) as [Hcl Habs].
      destruct (Storage.Close (sys env) h w2) as [x wc] eqn:HC.
      intros [= <- <- <-]. split; [done|]. split; [done|].
      split; [|exact Hretry].
      right. exists h, w1, w2. rewrite HC. split_and!; try done. by left. }
  destruct (optional_wal env (TracesQueryWAL _) id w2) as [[t2|e2] w3] eqn:H2;
    pose proof (optional_wal_err _ _ _ _ _ H2) as He2;
    pose proof (same_objects_trans _ _ _ Hs2 (optional_wal_same _ _ _ _ _ H2))
      as Hs3.
  2:{ destruct (Hclose w3 Hs3) as [Hcl Habs].
      destruct (Storage.Close (sys env) h w3) as [x wc] eqn:HC.
      intros [= <- <- <-]. split; [done|]. split; [done|].
      split; [|exact Hretry].
      right. exists h, w1, w3. rewrite HC. split_and!; try done.
      right. by left. }
  destruct (newInstance env id h t1 t2 w3) as [[inst|e3] w4] eqn:H3;
    pose proof (newInstance_err_eq _ _ _ _ _ _ _ H3) as He3;
    destruct (newInstance_same _ _ _ _ _ _ _ H3) as [Hs34 Hinst];
    pose proof (same_objects_trans _ _ _ Hs3 Hs34) as Hs4.
  2:{ destruct (Hclose w4 Hs4) as [Hcl Habs].
      destruct (Storage.Close (sys env) h w4) as [x wc] eqn:HC.
      intros [= <- <- <-]. split; [done|]. split; [done|].
      split; [|exact Hretry].
      right. exists h, w1, w4. rewrite HC. split_and!; try done.
      right. right. by left. }
  destruct (Hinst inst eq_refl) as [Hwal Hiid].
  destruct (reg_Register env id g w4) as [[err g1] w5] eqn:H4.
  pose proof (reg_Register_err _ _ _ _ _ _ H4) as He4.
  pose proof (same_objects_trans _ _ _ Hs4 (reg_Register_same _ _ _ _ _ _ H4))
    as Hs5.
  destruct err as [e4|].
  - intros [= <- <- <-]. split; [done|]. split; [done|].
      split; [|exact Hretry]. right.
    destruct (shutdown_after_New _ _ _ _ _ _ w5 inst HN Hs5 Hwal)
      as (Hcl & _ & Habs).
    exists h, w1, w5. split_and!; try done.
    right. right. right. split_and!; try done. by exists inst.
  - intros [= <- <- <-]. right. split_and!; try done.
    + exists w1. by rewrite Hwal.
    + unfold reg_Register in H4. destruct (Register_err env id); [done|].
      destruct (decide (id ∈ reg g)); [done|]. by injection H4 as <- <-.
Qed.

End RegistryFacts.

Section RegistryExamples.
Import Storage Generator Claims.

(** C4 at work: the first push of tenant [t] fails at the final
    registration and returns the error of the registration; the storage
    built for it has been closed again and the tenant is not cached. *)
Lemma getOrCreateInstance_failure_witness :
  getOrCreateInstance genv_register_fails "t" gen0 world0
  = (Err (ErrOther "duplicate metrics collector registration attempted"),
     gen0, (getOrCreateInstance genv_register_fails "t" gen0 world0).2) /\
  instances gen0 !! "t" = None /\
  registration_err genv_register_fails "t" gen0
  = Some (ErrOther "duplicate metrics collector registration attempted") /\
  exists h, storage_closed h
              (getOrCreateInstance genv_register_fails "t" gen0 world0).2.
Proof.
  assert (H : getOrCreateInstance genv_register_fails "t" gen0 world0
              = (Err (ErrOther "duplicate metrics collector registration attempted"),
                 gen0, (getOrCreateInstance genv_register_fails "t" gen0 world0).2))
    by (vm_compute; reflexivity).
  split; [exact H|].
  destruct (getOrCreateInstance_failure genv_register_fails "t" gen0 world0
              _ _ _ H) as (_ & Hid & Hcase & _).
  split; [exact Hid|].
  destruct Hcase as [HN | (h & w1 & w2 & _ & _ & Hstep & Hcl & _)].
  - vm_compute in HN. discriminate HN.
  - split; [|by exists h].
    destruct Hstep as [(He & _)|[(_ & He & _)|[(_ & _ & He & _)|(_ & _ & _ & He & _)]]].
    + vm_compute in He. discriminate He.
    + vm_compute in He. discriminate He.
    + vm_compute in He. discriminate He.
    + exact He.
Defined.

(** C4, as the specification words it, fails: when the WAL cannot be
    opened, storage construction returns its error and leaves behind the
    remote-write storage it had made, which nobody closes. *)
Lemma getOrCreate_spec_fails_when_open_fails :
  ~ getOrCreate_spec (genv env_open_fails) "t" gen0 world0.
Proof.
  intros H.
  destruct (getOrCreateInstance (genv env_open_fails) "t" gen0 world0)
    as [[r g'] w'] eqn:Hcall.
  assert (Hr : r = Err (ErrOther "open WAL: corrupted segment")).
  { apply (f_equal (fun x => x.1.1)) in Hcall. by vm_compute in Hcall. }
  assert (Hw : remotes w' !! 0%nat
               = Some (mkRemoteStorage ["/var/tempo"; "t"] (Some c_t) false)).
  { apply (f_equal (fun x => remotes x.2 !! 0%nat)) in Hcall.
    by vm_compute in Hcall. }
  subst r. destruct (H _ _ _ Hcall) as (_ & _ & Hrem & _).
  specialize (Hrem 0%nat _ Hw eq_refl). discriminate Hrem.
Qed.

End RegistryExamples.

Section StartingFacts.
Import Storage Generator Claims.
Variable env : GEnv.

Lemma doubleDuration_bounds v cap :
  0 <= v <= cap -> v <= doubleDuration v cap <= cap.
Proof. unfold doubleDuration. intros H. destruct (Z.leb_spec (2 * v) cap); lia. Qed.

Lemma boff_ok_New : boff_ok (backoff_New starting_backoff).
Proof. unfold boff_ok. repeat split; by vm_compute. Qed.

(** The delay of a wait lies between the initial delay and the cap, and
    the backoff stays in order with one more retry counted. *)
Lemma NextDelay_ok (b : Backoff) :
  boff_ok b -> numRetries b < 10 ->
  let '(d, b') := NextDelay env b in
  boff_ok b' /\ numRetries b' = numRetries b + 1 /\
  100 * Millisecond <= d <= Minute.
Proof.
  intros (Hc & Hn & Hmin & Hminc & Hmax) Hlt. unfold NextDelay.
  destruct (Z.leb_spec (nextDelayMax b) (nextDelayMin b)) as [Hle|Hgt].
  - unfold boff_ok. simpl. repeat split; try done; lia.
  - pose proof (Z.mod_pos_bound
                  (rand_Int63n env (numRetries b) (nextDelayMax b - nextDelayMin b))
                  (nextDelayMax b - nextDelayMin b)) as Hmod.
    destruct (Z.ltb_spec (nextDelayMax b) (MaxBackoff (bcfg b))) as [Hcap|Hcap].
    + rewrite Hc in *. simpl in *.
      pose proof (doubleDuration_bounds (nextDelayMin b) Minute) as H1.
      pose proof (doubleDuration_bounds (nextDelayMax b) Minute) as H2.
      unfold boff_ok. simpl. unfold Minute, Second, Millisecond in *.
      repeat split; try done; lia.
    + unfold boff_ok. simpl. repeat split; try done; lia.
Qed.

Lemma count_pings_app (a b : list event) :
  count_pings (a ++ b) = (count_pings a + count_pings b)%nat.
Proof. unfold count_pings. by rewrite List.filter_app, length_app. Qed.

Lemma Ongoing_true ctx b w :
  bcfg b = starting_backoff -> Ongoing ctx b w = true ->
  ctx_Err ctx w = false /\ numRetries b < 10.
Proof.
  intros Hc. unfold Ongoing. rewrite Hc. simpl.
  intros [H1 H2]%andb_true_iff. apply negb_true_iff in H1.
  split; [done|]. by apply Z.ltb_lt.
Qed.

Lemma Ongoing_false ctx b w :
  bcfg b = starting_backoff -> Ongoing ctx b w = false ->
  ErrCause ctx b w ≠ None.
Proof.
  intros Hc. unfold Ongoing, ErrCause. rewrite Hc. simpl.
  destruct (ctx_Err ctx w); [done|]. simpl.
  intros H%Z.ltb_ge. destruct (Z.leb_spec 10 (numRetries b)); [done | lia].
Qed.

(** The probe loop ends, after at most as many probes as retries are
    left: either on a probe that succeeded, or with a backoff that reports
    an error. *)
Lemma ping_loop_spec ctx (n : nat) : forall fuel b w,
  boff_ok b -> numRetries b = 10 - Z.of_nat n -> (n < fuel)%nat ->
  exists b' w' fails,
    ping_loop env fuel ctx b w = Some (b', w') /\
    same_objects w w' /\
    Forall (retry_event ctx) fails /\
    ((exists k, trace w' = trace w ++ fails ++ [EvPing k true] /\
                Ping_err env k = None /\ numRetries b <= k < 10 /\
                (count_pings fails < n)%nat)
     \/ (trace w' = trace w ++ fails /\ ErrCause ctx b' w' ≠ None /\
         (count_pings fails <= n)%nat)).
Proof.
  induction n as [|n IH]; intros fuel b w Hok Hn Hfuel;
    (destruct fuel as [|fuel]; [lia|]); cbn [ping_loop];
    pose proof Hok as (Hc & Hr & _);
    destruct (Ongoing ctx b w) eqn:Hon.
  - apply (Ongoing_true _ _ _ Hc) in Hon. lia.
  - exists b, w, []. split; [done|]. split; [apply same_objects_refl|].
    split; [done|]. right. rewrite app_nil_r. split; [done|].
    split; [by apply Ongoing_false | done].
  - apply (Ongoing_true _ _ _ Hc) in Hon as [Hctx Hlt].
    unfold kafka_Ping. destruct (Ping_err env (numRetries b)) as [e|] eqn:Hp.
    + simpl. unfold Wait.
      pose proof (NextDelay_ok b Hok Hlt) as Hnd.
      destruct (NextDelay env b) as [d b1]. destruct Hnd as (Hok1 & Hn1 & Hd).
      set (w1 := log Warn "ping kafka; will retry"
                   (emit (EvPing (numRetries b) false) w)).
      assert (Hn1' : numRetries b1 = 10 - Z.of_nat n) by lia.
      assert (Hf : (n < fuel)%nat) by lia.
      destruct (Ongoing ctx b1 w1) eqn:Hon1.
      * set (d' := match cancelled_at ctx with
                   | Some t => d `min` (t - now w1)
                   | None => d
                   end).
        destruct (IH fuel b1 (time_Sleep d' w1) Hok1 Hn1' Hf)
          as (b' & w' & fails & Hloop & Hsame & Hfails & Hcase).
        exists b', w', ([EvPing (numRetries b) false;
                         EvLog Warn "ping kafka; will retry"; EvSleep d'] ++ fails).
        split; [exact Hloop|]. split.
        { eapply same_objects_trans; [|exact Hsame]. by repeat split. }
        split.
        { repeat constructor; try done.
          - subst d'. unfold Minute in Hd. destruct (cancelled_at ctx); lia.
          - subst d'. intros ->. lia. }
        destruct Hcase as [(k & Htr & Hk & Hkr & Hcnt) | (Htr & He & Hcnt)].
        -- left. exists k. rewrite Htr. simpl. rewrite <- !app_assoc. simpl.
           split; [done|]. split; [done|]. split; [lia|].
           change (count_pings (?a :: ?b :: ?c :: fails))
             with (S (count_pings fails)). lia.
        -- right. rewrite Htr. simpl. rewrite <- !app_assoc. simpl.
           split; [done|]. split; [done|].
           change (count_pings (?a :: ?b :: ?c :: fails))
             with (S (count_pings fails)). lia.
      * destruct (IH fuel b1 w1 Hok1 Hn1' Hf)
          as (b' & w' & fails & Hloop & Hsame & Hfails & Hcase).
        exists b', w', ([EvPing (numRetries b) false;
                         EvLog Warn "ping kafka; will retry"] ++ fails).
        split; [exact Hloop|]. split.
        { eapply same_objects_trans; [|exact Hsame]. by repeat split. }
        split; [by repeat constructor|].
        destruct Hcase as [(k & Htr & Hk & Hkr & Hcnt) | (Htr & He & Hcnt)].
        -- left. exists k. rewrite Htr. simpl. rewrite <- !app_assoc. simpl.
           split; [done|]. split; [done|]. split; [lia|].
           change (count_pings (?a :: ?b :: fails))
             with (S (count_pings fails)). lia.
        -- right. rewrite Htr. simpl. rewrite <- !app_assoc. simpl.
           split; [done|]. split; [done|].
           change (count_pings (?a :: ?b :: fails))
             with (S (count_pings fails)). lia.
    + exists b, (emit (EvPing (numRetries b) true) w), [].
      split; [done|]. split; [by repeat split|]. split; [done|].
      left. exists (numRetries b). simpl. split; [done|]. split; [done|].
      split; [lia|]. unfold count_pings. simpl. lia.
  - exists b, w, []. split; [done|]. split; [apply same_objects_refl|].
    split; [done|]. right. rewrite app_nil_r. split; [done|].
    split; [by apply Ongoing_false | unfold count_pings; simpl; lia].
Qed.

Lemma plain_count (evs : list event) :
  forallb plain evs = true -> count_pings evs = 0%nat.
Proof.
  unfold count_pings. induction evs as [|e evs IH]; [done|].
  simpl. intros [He Hevs]%andb_true_iff. destruct e; try done; by apply IH.
Qed.

Lemma plain_no_aux (evs : list event) :
  forallb plain evs = true -> existsb is_aux evs = false.
Proof.
  induction evs as [|e evs IH]; [done|].
  simpl. intros [He Hevs]%andb_true_iff. rewrite (IH Hevs), orb_false_r.
  destruct e; try done. simpl in He. by apply negb_true_iff in He.
Qed.

Lemma plain_sleeps ctx (evs : list event) :
  forallb plain evs = true -> sleeps_bounded ctx evs.
Proof.
  intros H d Hd. rewrite forallb_forall in H.
  apply list_elem_of_In, H in Hd. done.
Qed.

Lemma retry_no_aux ctx (evs : list event) :
  Forall (retry_event ctx) evs -> existsb is_aux evs = false.
Proof.
  induction 1 as [|e evs He _ IH]; [done|].
  simpl. rewrite IH, orb_false_r. by destruct e.
Qed.

Lemma retry_sleeps ctx (evs : list event) :
  Forall (retry_event ctx) evs -> sleeps_bounded ctx evs.
Proof.
  intros H d Hd. rewrite Forall_forall in H. by apply H in Hd.
Qed.

Lemma sleeps_bounded_app ctx (a b : list event) :
  sleeps_bounded ctx a -> sleeps_bounded ctx b -> sleeps_bounded ctx (a ++ b).
Proof. intros Ha Hb d [?|?]%elem_of_app; auto. Qed.

(** The ring part of [starting] leaves plain events and the Kafka clients
    as they were. *)
Lemma starting_ring_spec g w :
  exists evs,
    trace (starting_ring env g w).2 = trace w ++ evs /\
    forallb plain evs = true /\
    Generator.cfg (starting_ring env g w).1.2 = Generator.cfg g /\
    kafkaAdm (starting_ring env g w).1.2 = kafkaAdm g /\
    partitionClient (starting_ring env g w).1.2 = partitionClient g.
Proof.
  unfold starting_ring, call. destruct (negb (DisableGRPC (Generator.cfg g))).
  - destruct (NewManager_err env).
    + eexists. simpl. split; [reflexivity|]. done.
    + destruct (StartManager_err env); eexists; simpl;
        rewrite <- app_assoc; (split; [reflexivity|]); done.
  - exists []. simpl. by rewrite app_nil_r.
Qed.

(** So does the deferred function. *)
Lemma starting_deferred_spec err g w :
  exists evs,
    trace (starting_deferred env err g w) = trace w ++ evs /\
    forallb plain evs = true /\
    (err = None -> evs = []).
Proof.
  unfold starting_deferred, call. destruct err as [e|].
  - destruct (subservices g).
    + destruct (StopManager_err env); eexists; simpl;
        rewrite <- ?app_assoc; (split; [reflexivity|]); done.
    + exists []. simpl. by rewrite app_nil_r.
  - exists []. simpl. by rewrite app_nil_r.
Qed.

Lemma no_aux_app (a b : list event) :
  existsb is_aux a = false -> existsb is_aux b = false ->
  existsb is_aux (a ++ b) = false.
Proof. intros Ha Hb. by rewrite existsb_app, Ha, Hb. Qed.

Local Ltac solve_no_aux :=
  repeat apply no_aux_app;
  first [ by apply plain_no_aux | by eapply retry_no_aux | done ].

Local Ltac solve_sleeps :=
  repeat apply sleeps_bounded_app;
  first [ by apply plain_sleeps
        | by apply retry_sleeps
        | let d := fresh "d" in let Hd := fresh "Hd" in
          intros d Hd; apply list_elem_of_In in Hd; simpl in Hd;
          intuition discriminate ].

(** The bounds of the handshake: with the streaming source enabled,
    [starting] ends (eleven rounds of the loop are enough); at most 10
    probes are made, and every sleep between them is at most 60 s and,
    when the context cannot be cancelled, at least 100 ms; when the ten
    probes fail, [starting] returns an error; when [starting] succeeds, the
    two auxiliary clients were made right after a probe that succeeded and
    not before; when it fails, they were not made at all. *)
Lemma starting_probe_bounds (fuel : nat) (ctx : Context) (g : Generator) (w : World) :
  (11 <= fuel)%nat ->
  Enabled (Ingest (Generator.cfg g)) = true ->
  exists err g' w' evs,
    starting env fuel ctx g w = Some (err, g', w') /\
    trace w' = trace w ++ evs /\
    (count_pings evs <= 10)%nat /\
    sleeps_bounded ctx evs /\
    ((forall k, 0 <= k < 10 -> Ping_err env k ≠ None) -> err ≠ None) /\
    (err = None ->
     exists pre k,
       evs = pre ++ [EvPing k true; EvCall "kadm.NewClient" true;
                     EvCall "ingest.NewPartitionOffsetClient" true] /\
       existsb is_aux pre = false /\
       kafkaAdm g' = true /\ partitionClient g' = true) /\
    (err ≠ None ->
     existsb is_aux evs = false /\
     kafkaAdm g' = kafkaAdm g /\ partitionClient g' = partitionClient g).
Proof.
  intros Hfuel Hen. unfold starting.
  destruct (starting_ring_spec g w) as (er & Htr_r & Hpl_r & Hcfg & Hadm & Hpc).
  destruct (starting_ring env g w) as [[err1 g1] w1]. simpl in *.
  destruct err1 as [e1|].
  - destruct (starting_deferred_spec (Some e1) g1 w1) as (ed & Htr_d & Hpl_d & _).
    assert (Hpl : forallb plain (er ++ ed) = true)
      by (by rewrite forallb_app, Hpl_r, Hpl_d).
    exists (Some e1), g1, (starting_deferred env (Some e1) g1 w1), (er ++ ed).
    split; [reflexivity|].
    split; [by rewrite Htr_d, Htr_r, app_assoc|].
    split; [by rewrite (plain_count _ Hpl); lia|].
    split; [by apply plain_sleeps|]. split; [done|]. split; [done|].
    intros _. split; [by apply plain_no_aux | done].
  - unfold starting_ingest. rewrite Hcfg, Hen. unfold call.
    destruct (NewGroupReaderClient_err env) as [e2|].
    + simpl.
      destruct (starting_deferred_spec (Some (ErrWrap "failed to create kafka reader client" e2))
                  g1 (emit (EvCall "ingest.NewGroupReaderClient" false) w1))
        as (ed & Htr_d & Hpl_d & _).
      assert (Hpl : forallb plain (er ++ [EvCall "ingest.NewGroupReaderClient" false] ++ ed) = true)
        by (by rewrite !forallb_app, Hpl_r, Hpl_d).
      exists (Some (ErrWrap "failed to create kafka reader client" e2)), g1,
        (starting_deferred env
           (Some (ErrWrap "failed to create kafka reader client" e2)) g1
           (emit (EvCall "ingest.NewGroupReaderClient" false) w1)),
        (er ++ [EvCall "ingest.NewGroupReaderClient" false] ++ ed).
      split; [reflexivity|].
      split; [rewrite Htr_d; simpl; rewrite Htr_r; by rewrite <- !app_assoc|].
      split; [by rewrite (plain_count _ Hpl); lia|].
      split; [by apply plain_sleeps|]. split; [done|]. split; [done|].
      intros _. split; [by apply plain_no_aux | done].
    + simpl.
      set (w2 := emit (EvCall "ingest.NewGroupReaderClient" true) w1).
      destruct (ping_loop_spec ctx 10 fuel (backoff_New starting_backoff) w2
                  boff_ok_New eq_refl ltac:(lia))
        as (b' & w3 & fails & Hloop & _ & Hfails & Hcase).
      rewrite Hloop.
      set (e0 := [EvCall "ingest.NewGroupReaderClient" true]).
      assert (Hpl0 : forallb plain (er ++ e0) = true)
        by (by rewrite forallb_app, Hpl_r).
      assert (Htr2 : trace w2 = trace w ++ er ++ e0)
        by (subst w2; simpl; by rewrite Htr_r, <- app_assoc).
      destruct Hcase as [(k & Htr & Hk & Hkr & Hcnt) | (Htr & He & Hcnt)].
      * destruct (ErrCause ctx b' w3) as [ec|] eqn:HE.
        -- destruct (starting_deferred_spec (Some (ErrWrap "failed to ping kafka" ec))
                       (set_kafkaClient true g1) w3) as (ed & Htr_d & Hpl_d & _).
           exists (Some (ErrWrap "failed to ping kafka" ec)),
             (set_kafkaClient true g1),
             (starting_deferred env (Some (ErrWrap "failed to ping kafka" ec))
                (set_kafkaClient true g1) w3),
             ((er ++ e0) ++ fails ++ [EvPing k true] ++ ed).
           split; [reflexivity|].
           split; [rewrite Htr_d, Htr, Htr2; by rewrite <- !app_assoc|].
           split.
           { rewrite (count_pings_app (er ++ e0)), (plain_count _ Hpl0),
               !count_pings_app, (plain_count _ Hpl_d).
             change (count_pings [EvPing k true]) with 1%nat. lia. }
           split.
           { solve_sleeps. }
           split; [done|]. split; [done|]. intros _. split; [|done].
           solve_no_aux.
        -- destruct (starting_deferred_spec None (set_aux_clients (set_kafkaClient true g1))
                       (emit (EvCall "ingest.NewPartitionOffsetClient" true)
                          (emit (EvCall "kadm.NewClient" true) w3)))
             as (ed & Htr_d & _ & Hnil).
           rewrite (Hnil eq_refl), app_nil_r in Htr_d.
           exists None, (set_aux_clients (set_kafkaClient true g1)),
             (starting_deferred env None (set_aux_clients (set_kafkaClient true g1))
                (emit (EvCall "ingest.NewPartitionOffsetClient" true)
                   (emit (EvCall "kadm.NewClient" true) w3))),
             (((er ++ e0) ++ fails) ++
              [EvPing k true; EvCall "kadm.NewClient" true;
               EvCall "ingest.NewPartitionOffsetClient" true]).
           split; [reflexivity|].
           split; [rewrite Htr_d; simpl; rewrite Htr, Htr2; by rewrite <- !app_assoc|].
           split.
           { rewrite (count_pings_app ((er ++ e0) ++ fails)),
               (count_pings_app (er ++ e0)), (plain_count _ Hpl0).
             change (count_pings [EvPing k true; _; _]) with 1%nat. lia. }
           split.
           { solve_sleeps. }
           split.
           { intros Hall. by destruct (Hall k ltac:(simpl in Hkr; lia)). }
           split; [|done]. intros _. exists ((er ++ e0) ++ fails), k.
           split; [done|]. split; [|done].
           solve_no_aux.
      * destruct (ErrCause ctx b' w3) as [ec|] eqn:HE; [|done].
        destruct (starting_deferred_spec (Some (ErrWrap "failed to ping kafka" ec))
                    (set_kafkaClient true g1) w3) as (ed & Htr_d & Hpl_d & _).
        exists (Some (ErrWrap "failed to ping kafka" ec)),
          (set_kafkaClient true g1),
          (starting_deferred env (Some (ErrWrap "failed to ping kafka" ec))
             (set_kafkaClient true g1) w3),
          ((er ++ e0) ++ fails ++ ed).
        split; [reflexivity|].
        split; [rewrite Htr_d, Htr, Htr2; by rewrite <- !app_assoc|].
        split.
        { rewrite (count_pings_app (er ++ e0)), (plain_count _ Hpl0),
            !count_pings_app, (plain_count _ Hpl_d). lia. }
        split.
        { solve_sleeps. }
        split; [done|]. split; [done|]. intros _. split; [|done].
        solve_no_aux.
Qed.

Lemma NextDelay_at (j : Z) (b : Backoff) :
  0 <= j <= 9 -> boff_at j b ->
  exists d b',
    NextDelay env b = (d, b') /\ backoff_window j d /\
    bcfg b' = starting_backoff /\ numRetries b' = j + 1 /\
    (j < 9 -> boff_at (j + 1) b').
Proof.
  intros Hj (Hc & Hn & Hmin & Hmax).
  assert (Hcases : j = 0 \/ j = 1 \/ j = 2 \/ j = 3 \/ j = 4 \/ j = 5 \/
                   j = 6 \/ j = 7 \/ j = 8 \/ j = 9) by lia.
  unfold NextDelay, boff_at, backoff_window.
  set (r := rand_Int63n env (numRetries b) (nextDelayMax b - nextDelayMin b)
            mod (nextDelayMax b - nextDelayMin b)).
  assert (Hr : 0 < nextDelayMax b - nextDelayMin b ->
               0 <= r < nextDelayMax b - nextDelayMin b)
    by (intros Hpos; apply Z.mod_pos_bound, Hpos).
  clearbody r. rewrite Hc. unfold starting_backoff, doubleDuration.
  cbn [MaxBackoff].
  destruct Hcases as [->|[->|[->|[->|[->|[->|[->|[->|[->| ->]]]]]]]]].
  all: match type of Hmin with _ = ?rhs =>
         let v := eval vm_compute in rhs in change rhs with v in Hmin end.
  all: match type of Hmax with _ = ?rhs =>
         let v := eval vm_compute in rhs in change rhs with v in Hmax end.
  all: rewrite Hmin, Hmax in Hr |- *.
  all: repeat match goal with
       | |- context [100 * Millisecond * 2 ^ ?k] =>
           let v := eval vm_compute in (100 * Millisecond * 2 ^ k) in
           change (100 * Millisecond * 2 ^ k) with v
       | |- context [200 * Millisecond * 2 ^ ?k] =>
           let v := eval vm_compute in (200 * Millisecond * 2 ^ k) in
           change (200 * Millisecond * 2 ^ k) with v
       end.
  all: change Minute with 60000000000.
  all: specialize (Hr ltac:(lia)).
  all: cbn [Z.leb Z.ltb Z.compare Pos.compare Pos.compare_cont Z.mul Pos.mul
            Pos.add Z.sub Z.add].
  all: eexists _, _; (split; [reflexivity|]).
  all: cbn [bcfg numRetries nextDelayMin nextDelayMax].
  all: split; [lia|]; split; [done|]; split; [lia|].
  all: intros Hlt; try lia.
  all: split; [done|]; split; [lia|].
  all: vm_compute; done.
Qed.

Lemma Ongoing_free ctx b w :
  cancelled_at ctx = None -> bcfg b = starting_backoff ->
  Ongoing ctx b w = (numRetries b <? 10).
Proof.
  intros Hc Hb. unfold Ongoing, ctx_Err. rewrite Hc, Hb. reflexivity.
Qed.

Lemma ErrCause_free ctx b w :
  cancelled_at ctx = None -> bcfg b = starting_backoff ->
  ErrCause ctx b w = (if numRetries b <? 10 then None else Some (ErrOther "terminated after retries")).
Proof.
  intros Hc Hb. unfold ErrCause, ctx_Err. rewrite Hc, Hb.
  change (MaxRetries starting_backoff) with 10.
  change (negb (10 =? 0)) with true. cbn [andb].
  destruct (Z.leb_spec 10 (numRetries b)), (Z.ltb_spec (numRetries b) 10);
    first [reflexivity | lia].
Qed.

(** Under a context that is never cancelled the probe loop is exactly
    this: every failed probe is followed by its warning and, unless it was
    the tenth, by a sleep in the window of its number; the loop ends at the
    first probe that succeeds, or after the tenth failure. *)
Lemma ping_loop_exact ctx (m : nat) : forall fuel j b w,
  cancelled_at ctx = None -> boff_at j b -> 0 <= j <= 9 ->
  j + Z.of_nat m <= 10 ->
  (forall k, j <= k < j + Z.of_nat m -> Ping_err env k ≠ None) ->
  (j + Z.of_nat m < 10 -> Ping_err env (j + Z.of_nat m) = None) ->
  (m < fuel)%nat ->
  exists b' w' ds,
    ping_loop env fuel ctx b w = Some (b', w') /\
    trace w' = trace w ++ retry_trace j ds
               ++ (if j + Z.of_nat m <? 10 then [EvPing (j + Z.of_nat m) true]
                   else [EvPing 9 false; EvLog Warn "ping kafka; will retry"]) /\
    length ds = Z.to_nat (Z.min (j + Z.of_nat m) 9 - j) /\
    (forall i d, ds !! i = Some d -> backoff_window (j + Z.of_nat i) d) /\
    ErrCause ctx b' w' = (if j + Z.of_nat m <? 10 then None else Some (ErrOther "terminated after retries")).
Proof.
  induction m as [|m IH]; intros fuel j b w Hctx Hat Hj Hle Hfail Hsucc Hfuel;
    (destruct fuel as [|fuel]; [lia|]); cbn [ping_loop];
    pose proof Hat as (Hc & Hn & _);
    rewrite (Ongoing_free ctx b w Hctx Hc), Hn;
    (destruct (Z.ltb_spec j 10) as [_|?]; [|lia]);
    unfold kafka_Ping.
  - rewrite Z.add_0_r in *. rewrite (Hsucc ltac:(lia)). simpl.
    exists b, (emit (EvPing j true) w), []. split; [done|].
    destruct (Z.ltb_spec j 10) as [_|?]; [|lia]. simpl.
    split; [done|]. split; [lia|]. split; [done|].
    rewrite (ErrCause_free ctx b _ Hctx Hc), Hn.
    destruct (Z.ltb_spec j 10); [reflexivity|lia].
  - destruct (Ping_err env j) as [e|] eqn:Hp.
    2:{ by destruct (Hfail j ltac:(lia)). }
    simpl. unfold Wait.
    destruct (NextDelay_at j b Hj Hat) as (d & b1 & -> & Hwin & Hc1 & Hn1 & Hat1).
    set (w1 := log Warn "ping kafka; will retry" (emit (EvPing j false) w)).
    rewrite (Ongoing_free ctx b1 w1 Hctx Hc1), Hn1, Hctx.
    destruct (Z.ltb_spec (j + 1) 10) as [Hlt|Hge].
    + destruct (IH fuel (j + 1) b1 (time_Sleep d w1) Hctx (Hat1 ltac:(lia))
                  ltac:(lia) ltac:(lia)) as (b' & w' & ds & Hloop & Htr & Hlen & Hds & He).
      { intros k Hk. apply Hfail. lia. }
      { intros Hk. replace (j + 1 + Z.of_nat m) with (j + Z.of_nat (S m)) by lia.
        apply Hsucc. lia. }
      { lia. }
      replace (j + 1 + Z.of_nat m) with (j + Z.of_nat (S m)) in * by lia.
      exists b', w', (d :: ds). split; [exact Hloop|]. split.
      { rewrite Htr. subst w1. simpl. by rewrite <- !app_assoc. }
      split; [cbn [length]; lia|]. split; [|exact He].
      intros [|i] d' Hi; simpl in Hi.
      * injection Hi as <-. by rewrite Z.add_0_r.
      * replace (j + Z.of_nat (S i)) with (j + 1 + Z.of_nat i) by lia.
        by apply Hds.
    + assert (j = 9) as -> by lia. assert (m = 0%nat) as -> by lia.
      destruct fuel as [|fuel]; [lia|]. cbn [ping_loop].
      rewrite (Ongoing_free ctx b1 w1 Hctx Hc1), Hn1. simpl.
      exists b1, w1, []. split; [done|]. split.
      { subst w1. simpl. by rewrite <- !app_assoc. }
      split; [done|]. split; [done|].
      rewrite (ErrCause_free ctx b1 w1 Hctx Hc1), Hn1. done.
Qed.

Lemma boff_at_New : boff_at 0 (backoff_New starting_backoff).
Proof. by repeat split. Qed.

(** The handshake of a start that reaches it, under a context that is
    never cancelled. *)
Lemma starting_handshake fuel ctx g w n :
  (11 <= fuel)%nat ->
  Enabled (Ingest (Generator.cfg g)) = true ->
  handshake_reached env g -> cancelled_at ctx = None ->
  first_success env n ->
  exists g' w' ds,
    starting env fuel ctx g w = Some (handshake_err n, g', w') /\
    trace w' = trace w ++ ring_events g
               ++ [EvCall "ingest.NewGroupReaderClient" true]
               ++ retry_trace 0 ds ++ handshake_last n
               ++ handshake_cleanup env g n /\
    length ds = Z.to_nat (Z.min n 9) /\
    (forall i d, ds !! i = Some d -> backoff_window (Z.of_nat i) d).
Proof.
  intros Hfuel Hen (Hring & Hngr) Hctx (Hn & Hfail & Hsucc).
  assert (Hloop : forall w0, exists b' w' ds,
            ping_loop env fuel ctx (backoff_New starting_backoff) w0 = Some (b', w') /\
            trace w' = trace w0 ++ retry_trace 0 ds
                       ++ (if n <? 10 then [EvPing n true]
                           else [EvPing 9 false; EvLog Warn "ping kafka; will retry"]) /\
            length ds = Z.to_nat (Z.min n 9) /\
            (forall i d, ds !! i = Some d -> backoff_window (Z.of_nat i) d) /\
            ErrCause ctx b' w' = (if n <? 10 then None else Some (ErrOther "terminated after retries"))).
  { intros w0.
    destruct (ping_loop_exact ctx (Z.to_nat n) fuel 0 (backoff_New starting_backoff)
                w0 Hctx boff_at_New ltac:(lia) ltac:(lia))
      as (b' & w' & ds & Hl & Htr & Hlen & Hds & He).
    { intros k Hk. apply Hfail. lia. }
    { intros Hk. rewrite Z.add_0_l, Z2Nat.id by lia. apply Hsucc. lia. }
    { lia. }
    rewrite Z.add_0_l, Z2Nat.id in * by lia. rewrite Z.sub_0_r in Hlen.
    exists b', w', ds. split; [done|]. split; [done|]. split; [done|].
    split; [|done]. intros i d Hi. specialize (Hds i d Hi).
    by rewrite Z.add_0_l in Hds. }
  unfold starting, starting_ring, ring_events, handshake_cleanup, call.
  destruct (DisableGRPC (Generator.cfg g)) eqn:Hgrpc; cbn [negb andb].
  - unfold starting_ingest. rewrite Hen. unfold call. rewrite Hngr. simpl.
    destruct (Hloop (emit (EvCall "ingest.NewGroupReaderClient" true) w))
      as (b' & w' & ds & Hl & Htr & Hlen & Hds & He).
    rewrite Hl, He.
    unfold handshake_err, handshake_last in *.
    destruct (Z.ltb_spec n 10).
    + eexists _, _, ds. split; [reflexivity|]. simpl. rewrite Htr. simpl.
      split; [|done]. rewrite <- ?app_assoc. simpl. rewrite ?app_nil_r.
      reflexivity.
    + unfold starting_deferred, call.
      change (subservices (set_kafkaClient true g)) with (subservices g).
      destruct (subservices g) as [s|]; [destruct (StopManager_err env)|];
        eexists _, _, ds; (split; [reflexivity|]); simpl; rewrite Htr; simpl.
      all: split; [|done]; rewrite <- ?app_assoc; simpl; rewrite ?app_nil_r.
      all: reflexivity.
  - destruct (Hring eq_refl) as [Hnm Hsm]. rewrite Hnm, Hsm. simpl.
    unfold starting_ingest. simpl. rewrite Hen. unfold call. rewrite Hngr. simpl.
    destruct (Hloop (emit (EvCall "ingest.NewGroupReaderClient" true)
                       (emit (EvCall "services.StartManagerAndAwaitHealthy" true)
                          (emit (EvCall "services.NewManager" true) w))))
      as (b' & w' & ds & Hl & Htr & Hlen & Hds & He).
    rewrite Hl, He.
    unfold handshake_err, handshake_last in *.
    destruct (Z.ltb_spec n 10).
    + eexists _, _, ds. split; [reflexivity|]. simpl. rewrite Htr. simpl.
      split; [|done]. rewrite <- ?app_assoc. simpl. rewrite ?app_nil_r.
      reflexivity.
    + unfold starting_deferred, call. simpl.
      destruct (StopManager_err env);
        eexists _, _, ds; (split; [reflexivity|]); simpl; rewrite Htr; simpl.
      all: split; [|done]; rewrite <- ?app_assoc; simpl; rewrite ?app_nil_r.
      all: reflexivity.
Qed.

(** Among the ten probes there is a first one that succeeds, or none
    does. *)
Lemma first_success_exists : exists n, first_success env n.
Proof.
  assert (H : forall m : nat, (m <= 10)%nat ->
            (exists n, 0 <= n < Z.of_nat m /\ first_success env n)
            \/ (forall k, 0 <= k < Z.of_nat m -> Ping_err env k ≠ None)).
  { induction m as [|m IH]; intros Hm; [right; lia|].
    destruct (IH ltac:(lia)) as [(n & Hn & Hfs)|Hall].
    - left. exists n. split; [lia|done].
    - destruct (Ping_err env (Z.of_nat m)) as [e|] eqn:Hp.
      + right. intros k Hk.
        destruct (decide (k = Z.of_nat m)) as [->|]; [by rewrite Hp|].
        apply Hall. lia.
      + left. exists (Z.of_nat m). split; [lia|].
        split; [lia|]. split; [exact Hall|done]. }
  destruct (H 10%nat ltac:(lia)) as [(n & _ & Hfs)|Hall]; [by exists n|].
  exists 10. split; [lia|]. split; [exact Hall|lia].
Qed.

(** C7.  With the streaming source enabled, [starting] ends (eleven
    rounds of the loop are enough), and it makes at most 10 probes, every
    sleep between them being at most 60 s and, when the context cannot be
    cancelled, at least 100 ms; when the ten probes fail, [starting]
    returns an error; when [starting] succeeds, the two auxiliary clients
    were made right after a probe that succeeded and not before; when it
    fails, they were not made at all.  Moreover the probes are issued, and
    under exponential backoff: with [n] the number of the first probe that
    succeeds (10 when none of the ten does), a start that gets as far as
    the handshake under a context that is never cancelled leaves exactly
    this in the trace: the ring services, the Kafka client, then the
    probes 0 to [n - 1], each failed, warned about and, but for the tenth,
    followed by a sleep of at least [100 ms * 2^j] and less than
    [200 ms * 2^j] after probe [j]; then, for [n < 10], the probe [n] that
    succeeds and the two auxiliary clients, with no error returned; for
    [n = 10], the stop of the ring services, with the error
    [failed to ping kafka: terminated after retries] returned. *)
Theorem starting_probe (fuel : nat) (ctx : Context) (g : Generator) (w : World) :
  (11 <= fuel)%nat ->
  Enabled (Ingest (Generator.cfg g)) = true ->
  exists err g' w' evs,
    starting env fuel ctx g w = Some (err, g', w') /\
    trace w' = trace w ++ evs /\
    (count_pings evs <= 10)%nat /\
    sleeps_bounded ctx evs /\
    ((forall k, 0 <= k < 10 -> Ping_err env k ≠ None) -> err ≠ None) /\
    (err = None ->
     exists pre k,
       evs = pre ++ [EvPing k true; EvCall "kadm.NewClient" true;
                     EvCall "ingest.NewPartitionOffsetClient" true] /\
       existsb is_aux pre = false /\
       kafkaAdm g' = true /\ partitionClient g' = true) /\
    (err ≠ None ->
     existsb is_aux evs = false /\
     kafkaAdm g' = kafkaAdm g /\ partitionClient g' = partitionClient g) /\
    exists n, first_success env n /\
      (handshake_reached env g -> cancelled_at ctx = None ->
       err = handshake_err n /\
       exists ds,
         evs = ring_events g ++ [EvCall "ingest.NewGroupReaderClient" true]
               ++ retry_trace 0 ds ++ handshake_last n
               ++ handshake_cleanup env g n /\
         length ds = Z.to_nat (Z.min n 9) /\
         (forall i d, ds !! i = Some d -> backoff_window (Z.of_nat i) d)).
Proof.
  intros Hfuel Hen.
  destruct (starting_probe_bounds fuel ctx g w Hfuel Hen)
    as (err & g' & w' & evs & Hs & Htr & Hcnt & Hsl & Hex & Hok & Herr).
  exists err, g', w', evs. repeat (split; [assumption|]).
  destruct first_success_exists as (n & Hn). exists n. split; [exact Hn|].
  intros Hreach Hctx.
  destruct (starting_handshake fuel ctx g w n Hfuel Hen Hreach Hctx Hn)
    as (g2 & w2 & ds & Hs2 & Htr2 & Hlen & Hds).
  rewrite Hs in Hs2. injection Hs2 as -> -> ->.
  split; [reflexivity|]. exists ds. split; [|done].
  rewrite Htr in Htr2. by apply app_inv_head in Htr2.
Qed.

End StartingFacts.

Section StartingExamples.
Import Storage Generator Claims.

(** C7 at work: Kafka is down; [starting] makes the ten probes with nine
    sleeps between them, stops the ring services again and gives up with
    the error of the exhausted backoff, no auxiliary client made. *)
Lemma starting_probe_witness :
  (11 <= 11)%nat /\ Enabled (Ingest (Generator.cfg gen_new)) = true /\
  handshake_reached genv_kafka_down gen_new /\
  cancelled_at ctx_bg = None /\
  exists g' w' ds,
    starting genv_kafka_down 11 ctx_bg gen_new world0
    = Some (Some (ErrWrap "failed to ping kafka"
                    (ErrOther "terminated after retries")), g', w') /\
    trace w' = trace world0
               ++ [EvCall "services.NewManager" true;
                   EvCall "services.StartManagerAndAwaitHealthy" true;
                   EvCall "ingest.NewGroupReaderClient" true]
               ++ retry_trace 0 ds
               ++ [EvPing 9 false; EvLog Warn "ping kafka; will retry";
                   EvCall "services.StopManagerAndAwaitStopped" true] /\
    length ds = 9%nat /\
    (forall i d, ds !! i = Some d -> backoff_window (Z.of_nat i) d) /\
    (count_pings (trace w') <= 10)%nat /\ kafkaAdm g' = false.
Proof.
  split; [lia|]. split; [reflexivity|].
  assert (Hreach : handshake_reached genv_kafka_down gen_new) by (by split).
  split; [exact Hreach|]. split; [reflexivity|].
  destruct (starting_probe genv_kafka_down 11 ctx_bg gen_new world0
              ltac:(lia) eq_refl)
    as (err & g' & w' & evs & Hs & Htr & Hcnt & _ & Hex & _ & Herr
        & n & (Hn & _ & Hsucc) & Hexact).
  assert (n = 10) as ->.
  { destruct (decide (n < 10)) as [Hlt|]; [|lia]. by specialize (Hsucc Hlt). }
  destruct (Hexact Hreach eq_refl) as (-> & ds & -> & Hlen & Hds).
  exists g', w', ds. split; [exact Hs|]. split; [exact Htr|].
  split; [exact Hlen|]. split; [exact Hds|]. split.
  { rewrite Htr. exact Hcnt. }
  by destruct (Herr ltac:(discriminate)) as (_ & -> & _).
Defined.

(** Kafka down: ten probes, nine sleeps from 100 ms upwards, an error,
    the ring services stopped again, no auxiliary client. *)
Example starting_kafka_down :
  exists g' w',
    starting genv_kafka_down 11 ctx_bg gen_new world0
    = Some (Some (ErrWrap "failed to ping kafka" (ErrOther "terminated after retries")),
            g', w') /\
    count_pings (trace w') = 10%nat /\
    last (trace w') = Some (EvCall "services.StopManagerAndAwaitStopped" true) /\
    kafkaAdm g' = false /\ partitionClient g' = false.
Proof. eexists _, _. split; [by vm_compute|]. by vm_compute. Qed.

(** Kafka reached at the fourth probe: [starting] succeeds and the last
    three events are that probe and the two auxiliary clients. *)
Example starting_kafka_slow :
  exists g' w',
    starting genv_kafka_slow 11 ctx_bg gen_new world0 = Some (None, g', w') /\
    drop (length (trace w') - 3) (trace w')
    = [EvPing 3 true; EvCall "kadm.NewClient" true;
       EvCall "ingest.NewPartitionOffsetClient" true] /\
    count_pings (trace w') = 4%nat /\
    kafkaAdm g' = true /\ partitionClient g' = true.
Proof. eexists _, _. split; [by vm_compute|]. by vm_compute. Qed.

End StartingExamples.

Section StoppingFacts.
Import Storage Generator Claims.
Local Set Warnings "-clear-no-such-hyp".
Variable env : GEnv.
Variable order : list string.
Variable g : Generator.
Variable w : World.

(** [range g.instances] visits tenants of the registry. *)
Hypothesis order_in_registry : forall id, id ∈ order -> id ∈ dom (instances g).

Lemma Close_trace (e : Env) h w0 :
  exists evs, trace (Storage.Close e h w0).2 = trace w0 ++ evs.
Proof.
  unfold Storage.Close. destruct (storages w0 !! h) as [s|].
  - destruct (closeCh s).
    + simpl. eexists. rewrite <- app_assoc. reflexivity.
    + unfold Fanout_Close, wal_Close, remote_Close, os_RemoveAll. simpl.
      destruct (RemoveAll_err e (walDir s)); simpl; eexists;
        rewrite <- ?app_assoc; reflexivity.
  - exists []. by rewrite app_nil_r.
Qed.

Lemma shutdown_body_trace inst w0 :
  exists evs, trace (shutdown_body env inst w0) = trace w0 ++ evs.
Proof.
  unfold shutdown_body.
  destruct (Close_trace (sys env) (wal inst)
              (emit (EvCall "instance.flush" true) w0)) as [evs Hevs].
  destruct (Storage.Close _ _ _) as [[e|] w1]; simpl in *; rewrite Hevs;
    eexists; rewrite <- ?app_assoc; reflexivity.
Qed.

Lemma stop_inv_init : stop_inv env g w (stopping_init g w).
Proof.
  split; simpl; try done.
  - exists []. rewrite !app_nil_r. repeat split; try done; set_solver.
  - intros id Hid. by apply elem_of_nil in Hid.
Qed.

Lemma shutdown_begun_app id par more :
  shutdown_begun id par -> shutdown_begun id (par ++ more).
Proof.
  intros (p1 & p2 & ->). exists p1, (p2 ++ more). by rewrite <- !app_assoc.
Qed.

Lemma shutdown_done_app id par more :
  shutdown_done id par -> shutdown_done id (par ++ more).
Proof.
  intros (p1 & p2 & p3 & ->). exists p1, p2, (p3 ++ more).
  by rewrite <- !app_assoc.
Qed.

Lemma stop_inv_main c c' :
  stop_inv env g w c -> step_main env order c = Some c' -> stop_inv env g w c'.
Proof.
  intros [Hi Hcf Hsub Hro (par & Htr & Hpar & Hbeg & Hfin) Hsp Hb Hf Hd Hv Hwg Hret]
    Hstep.
  unfold step_main in Hstep. destruct (main c) eqn:Hpc; simpl in *.
  - specialize (Hpar eq_refl) as ->. specialize (Hsp eq_refl). clear Hret.
    rewrite Hsub in Hstep. unfold call in Hstep.
    assert (Hb0 : begun c = ∅) by set_solver.
    assert (Hf0 : finished c = ∅) by set_solver.
    destruct (subservices g) eqn:Hs; [destruct (StopManager_err env) eqn:He|];
      simpl in Hstep; injection Hstep as <-.
    all: constructor; simpl; try done; try congruence.
    all: exists []; rewrite ?Htr; unfold sub_events; rewrite ?Hs, ?He; simpl.
    all: rewrite ?app_nil_r, <- ?app_assoc; split; [done|]; split; [done|].
    all: rewrite ?Hb0, ?Hf0; split; intros id Hid; by apply not_elem_of_empty in Hid.
  - specialize (Hpar eq_refl) as ->. specialize (Hsp eq_refl). clear Hret.
    assert (Hb0 : begun c = ∅) by set_solver.
    assert (Hf0 : finished c = ∅) by set_solver.
    injection Hstep as <-. constructor; simpl; try done.
    exists []. rewrite Htr, !app_nil_r, <- ?app_assoc.
    split; [reflexivity|]. split; [done|].
    rewrite Hb0, Hf0. split; intros id Hid; by apply not_elem_of_empty in Hid.
  - specialize (Hpar eq_refl) as ->. specialize (Hsp eq_refl). clear Hret.
    assert (Hb0 : begun c = ∅) by set_solver.
    assert (Hf0 : finished c = ∅) by set_solver.
    injection Hstep as <-. constructor; simpl; try done.
    exists []. rewrite Htr, !app_nil_r, <- ?app_assoc.
    split; [done|]. split; [done|].
    rewrite Hb0, Hf0. split; intros id Hid; by apply not_elem_of_empty in Hid.
  - specialize (Hpar eq_refl) as ->. specialize (Hsp eq_refl). clear Hret.
    specialize (Hro eq_refl).
    assert (Hb0 : begun c = ∅) by set_solver.
    assert (Hf0 : finished c = ∅) by set_solver.
    rewrite Hcf in Hstep.
    destruct (Enabled (Ingest (Generator.cfg g))) eqn:Hen; injection Hstep as <-;
      constructor; simpl; try done.
    all: exists []; unfold stop_prefix; rewrite Hen.
    all: rewrite ?Htr, ?app_nil_r, <- ?app_assoc.
    all: split; [done|]; split; [done|].
    all: rewrite Hb0, Hf0; split; intros id Hid; by apply not_elem_of_empty in Hid.
  - specialize (Hpar eq_refl) as ->. specialize (Hsp eq_refl). clear Hret.
    specialize (Hro eq_refl).
    assert (Hb0 : begun c = ∅) by set_solver.
    assert (Hf0 : finished c = ∅) by set_solver.
    injection Hstep as <-. constructor; simpl; try done.
    + exists []. split; [done|]. split; [done|].
      rewrite Hb0, Hf0. split; intros id Hid; by apply not_elem_of_empty in Hid.
    + rewrite Hi. lia.
  - specialize (Hro eq_refl).
    destruct rest as [|id rest]; injection Hstep as <-;
      constructor; simpl; try done.
    + by exists par.
    + by exists par.
    + set_solver.
    + assert (id ∈ dom (instances g)) by (apply Hv; apply list_elem_of_here).
      set_solver.
    + intros id' Hid'. apply Hv. by apply list_elem_of_further.
  - specialize (Hro eq_refl).
    destruct (Z.eqb_spec (wg c) 0) as [Hz|]; [|discriminate].
    injection Hstep as <-. constructor; simpl; try done.
    + by exists par.
    + intros _. apply set_subseteq_size_eq; [set_solver|].
      rewrite size_dom. lia.
  - discriminate.
Qed.

Lemma stop_inv_begin id c c' :
  stop_inv env g w c -> step_begin id c = Some c' -> stop_inv env g w c'.
Proof.
  intros [Hi Hcf Hsub Hro (par & Htr & Hpar & Hbeg & Hfin) Hsp Hb Hf Hd Hv Hwg Hret]
    Hstep.
  unfold step_begin in Hstep.
  destruct (decide (id ∈ spawned c ∧ id ∉ begun c)) as [[Hin Hnb]|]; [|discriminate].
  injection Hstep as <-.
  assert (Hbr : before_range (main c) = false).
  { destruct (before_range (main c)); [|done].
    rewrite (Hsp eq_refl) in Hin. by apply not_elem_of_empty in Hin. }
  constructor; simpl; try done.
  - exists (par ++ [EvShutdownBegin id]). rewrite Htr, <- !app_assoc.
    split; [done|]. split; [by rewrite Hbr|]. split.
    + intros x [->%elem_of_singleton|Hx]%elem_of_union.
      * exists par, []. done.
      * by apply shutdown_begun_app, Hbeg.
    + intros x Hx. by apply shutdown_done_app, Hfin.
  - set_solver.
  - set_solver.
Qed.

Lemma stop_inv_end id c c' :
  stop_inv env g w c -> step_end env id c = Some c' -> stop_inv env g w c'.
Proof.
  intros [Hi Hcf Hsub Hro (par & Htr & Hpar & Hbeg & Hfin) Hsp Hb Hf Hd Hv Hwg Hret]
    Hstep.
  unfold step_end in Hstep.
  destruct (decide (id ∈ begun c ∧ id ∉ finished c)) as [[Hin Hnf]|]; [|discriminate].
  destruct (instances (gen c) !! id) as [inst|]; [|discriminate].
  injection Hstep as <-.
  assert (Hbr : before_range (main c) = false).
  { destruct (before_range (main c)); [|done].
    apply Hb in Hin. rewrite (Hsp eq_refl) in Hin.
    by apply not_elem_of_empty in Hin. }
  destruct (shutdown_body_trace inst (world c)) as [evs Hevs].
  constructor; simpl; try done.
  - exists (par ++ evs ++ [EvShutdownEnd id]). rewrite Hevs, Htr, <- !app_assoc.
    split; [done|]. split; [by rewrite Hbr|]. split.
    + intros x Hx. by apply shutdown_begun_app, Hbeg.
    + intros x [->%elem_of_singleton|Hx]%elem_of_union.
      * destruct (Hbeg id Hin) as (p1 & p2 & ->).
        exists p1, (p2 ++ evs), []. by rewrite <- !app_assoc.
      * by apply shutdown_done_app, Hfin.
  - set_solver.
  - rewrite Hbr in *. rewrite size_union by set_solver.
    rewrite size_singleton. lia.
  - intros Hr. specialize (Hret Hr). set_solver.
Qed.

Lemma stop_inv_run sched : forall c c',
  stop_inv env g w c -> run env order sched c = Some c' -> stop_inv env g w c'.
Proof.
  induction sched as [|ch sched IH]; intros c c' Hinv Hrun; simpl in Hrun.
  - by injection Hrun as <-.
  - destruct (step env order ch c) as [c1|] eqn:Hstep; [|discriminate].
    apply (IH c1 c'); [|done]. destruct ch; simpl in Hstep.
    + by apply (stop_inv_main c).
    + by apply (stop_inv_begin id c).
    + by apply (stop_inv_end id c).
Qed.

(** C1.  Whatever the order in which the goroutines run, when
    [stopping] has returned the events it added to the trace are: the stop
    of the subservices, awaited, if there are any; the grace sleep of five
    seconds; the flip of the read-only flag; the stop of the consumption,
    if the streaming source is enabled; and only then the events of the
    shutdown goroutines, among them, for every tenant of the registry,
    the begin and the end of its shutdown.  The generator is read-only. *)
Theorem stopping_order (sched : list choice) (g' : Generator) (w' : World) :
  stopping env order sched g w = Some (g', w') ->
  exists par,
    trace w' = trace w ++ stop_prefix env g ++ par /\
    stop_prefix env g
      = sub_events env g
        ++ [EvSleep (5 * Second); EvSetReadOnly]
        ++ (if Enabled (Ingest (Generator.cfg g))
            then [EvCall "stopKafka" true] else []) /\
    readOnly g' = true /\
    forall id, is_Some (instances g !! id) -> shutdown_done id par.
Proof.
  unfold stopping.
  destruct (run env order sched (stopping_init g w)) as [c|] eqn:Hrun; [|done].
  destruct (main c) eqn:Hpc; try done. intros [= <- <-].
  pose proof (stop_inv_run sched _ _ stop_inv_init Hrun)
    as [_ _ _ Hro (par & Htr & _ & _ & Hfin) _ _ _ _ _ _ Hret].
  rewrite Hpc in *. exists par. split; [exact Htr|]. split; [done|].
  split; [by apply Hro|].
  intros id Hid. apply Hfin. rewrite (Hret eq_refl). by apply elem_of_dom.
Qed.

End StoppingFacts.

Section StoppingReturns.
Import Storage Generator Claims.
Local Set Warnings "-clear-no-such-hyp".
Variable env : GEnv.
Variable order : list string.
Variable g : Generator.
Variable w : World.

(** [range g.instances] visits every tenant of the registry once. *)
Hypothesis order_NoDup : NoDup order.
Hypothesis order_registry : forall id, id ∈ order <-> id ∈ dom (instances g).

Lemma run_app (a b : list choice) (c : config) :
  run env order (a ++ b) c
  = match run env order a c with
    | Some c' => run env order b c'
    | None => None
    end.
Proof.
  revert c. induction a as [|ch a IH]; intros c; simpl; [done|].
  by destruct (step env order ch c).
Qed.

Lemma run_to_range :
  exists c,
    run env order (replicate 5 RunMain) (stopping_init g w) = Some c /\
    main c = PcRange order /\ instances (gen c) = instances g /\
    wg c = Z.of_nat (size (instances g)) /\
    spawned c = ∅ /\ begun c = ∅ /\ finished c = ∅.
Proof.
  destruct (subservices g) eqn:Hs; destruct (StopManager_err env) eqn:He;
    destruct (Enabled (Ingest (Generator.cfg g))) eqn:Hen.
  all: cbn [replicate run step]; unfold step_main, call, stopIncomingRequests.
  all: simpl; rewrite ?Hs, ?He; simpl; rewrite ?Hen; simpl.
  all: eexists; split; [reflexivity|]; by repeat split.
Qed.

Lemma run_range (rest : list string) : forall c,
  main c = PcRange rest ->
  exists c',
    run env order (replicate (S (length rest)) RunMain) c = Some c' /\
    main c' = PcWait /\ gen c' = gen c /\ wg c' = wg c /\
    spawned c' = list_to_set rest ∪ spawned c /\
    begun c' = begun c /\ finished c' = finished c.
Proof.
  induction rest as [|id rest IH]; intros c Hpc.
  - simpl. unfold step_main. rewrite Hpc. eexists. split; [reflexivity|].
    simpl. repeat split; try done. set_solver.
  - cbn [length replicate run step]. unfold step_main at 1. rewrite Hpc.
    destruct (IH (mkConfig' (PcRange rest) (gen c) (world c) (wg c)
                    ({[id]} ∪ spawned c) (begun c) (finished c)) eq_refl)
      as (c' & Hrun & H1 & H2 & H3 & H4 & H5 & H6).
    exists c'. split; [exact Hrun|]. simpl in *. repeat split; try done.
    rewrite H4. set_solver.
Qed.

Lemma run_tasks (l : list string) : forall c,
  NoDup l ->
  (forall id, id ∈ l ->
     id ∈ spawned c /\ (id ∉ begun c) /\ (id ∉ finished c) /\
     is_Some (instances (gen c) !! id)) ->
  exists c',
    run env order (flat_map (fun id => [RunBegin id; RunEnd id]) l) c = Some c' /\
    main c' = main c /\ gen c' = gen c /\
    wg c' = wg c - Z.of_nat (length l).
Proof.
  induction l as [|id l IH]; intros c Hnd Hl.
  - exists c. simpl. repeat split; try done. lia.
  - apply NoDup_cons in Hnd as [Hid Hnd].
    destruct (Hl id (list_elem_of_here _ _)) as (Hs & Hb & Hf & [inst Hi]).
    cbn [flat_map app run step]. unfold step_begin.
    rewrite decide_True by done. cbn [run step]. unfold step_end. simpl.
    rewrite decide_True by set_solver. rewrite Hi.
    set (c1 := mkConfig' _ _ _ _ _ _ _).
    destruct (IH c1 Hnd) as (c' & Hrun & H1 & H2 & H3).
    { intros x Hx. destruct (Hl x (list_elem_of_further _ _ _ Hx)) as (?&?&?&?).
      subst c1. simpl. assert (x ≠ id) by (by intros ->). set_solver. }
    exists c'. split; [exact Hrun|]. subst c1. simpl in *.
    repeat split; try done. rewrite H3. lia.
Qed.

Lemma size_registry : size (instances g) = length order.
Proof.
  rewrite <- size_dom. unfold size, set_size. simpl.
  apply Permutation_length, NoDup_Permutation; [apply NoDup_elements|done|].
  intros x. rewrite elem_of_elements. by rewrite order_registry.
Qed.

(** [stopping] can always return: under the sequential schedule it
    does. *)
Lemma stopping_returns :
  exists g' w', stopping env order (sched_seq order) g w = Some (g', w').
Proof.
  unfold stopping, sched_seq. rewrite run_app.
  destruct run_to_range as (c1 & -> & Hpc1 & Hi1 & Hwg1 & Hs1 & Hb1 & Hf1).
  rewrite run_app.
  destruct (run_range order c1 Hpc1)
    as (c2 & -> & Hpc2 & Hg2 & Hwg2 & Hs2 & Hb2 & Hf2).
  rewrite run_app.
  destruct (run_tasks order c2 order_NoDup) as (c3 & -> & Hpc3 & Hg3 & Hwg3).
  { intros id Hid. rewrite Hs2, Hb2, Hf2, Hb1, Hf1, Hg2, Hi1.
    split; [set_solver|]. split; [set_solver|]. split; [set_solver|].
    by apply elem_of_dom, order_registry. }
  simpl. unfold step_main. rewrite Hpc3, Hpc2.
  rewrite Hwg3, Hwg2, Hwg1, size_registry, Z.sub_diag. simpl.
  by eexists _, _.
Qed.

End StoppingReturns.

Section StoppingExamples.
Import Storage Generator Claims.

(** C1 at work: two tenants whose shutdowns overlap. *)
Lemma stopping_order_witness :
  (forall id, id ∈ ["t"; "u"] -> id ∈ dom (instances gen2)) /\
  exists g' w' par,
    stopping (genv env_ok) ["t"; "u"] sched2 gen2 world2 = Some (g', w') /\
    trace w' = trace world2 ++ stop_prefix (genv env_ok) gen2 ++ par /\
    readOnly g' = true /\
    shutdown_done "t" par /\ shutdown_done "u" par.
Proof.
  assert (Ht : instances gen2 !! "t" = Some (mkInstance "t" 2 None None [req1]))
    by (vm_compute; reflexivity).
  assert (Hu : instances gen2 !! "u" = Some (mkInstance "u" 5 None None [req1]))
    by (vm_compute; reflexivity).
  assert (Hord : forall id, id ∈ ["t"; "u"] -> id ∈ dom (instances gen2)).
  { intros id Hid. apply elem_of_dom.
    apply elem_of_cons in Hid as [->|Hid]; [eexists; exact Ht|].
    apply elem_of_cons in Hid as [->|Hid]; [eexists; exact Hu|].
    apply elem_of_nil in Hid. destruct Hid. }
  split; [exact Hord|].
  assert (Hstop : stopping (genv env_ok) ["t"; "u"] sched2 gen2 world2
                  = Some (stopped2.1, stopped2.2)) by (vm_compute; reflexivity).
  destruct (stopping_order (genv env_ok) ["t"; "u"] gen2 world2 Hord
              sched2 stopped2.1 stopped2.2 Hstop) as (par & Htr & _ & Hro & Hdone).
  exists stopped2.1, stopped2.2, par. split; [exact Hstop|]. split; [exact Htr|].
  split; [exact Hro|].
  split; apply Hdone; eexists; [exact Ht | exact Hu].
Defined.

(** [wg.Wait()] does not return while a shutdown is still running: the
    schedule that lets [stopping] go on before tenant [t] has finished is
    not one the program can follow. *)
Example stopping_waits_for_shutdown :
  stopping (genv env_ok) ["t"; "u"]
    [RunMain; RunMain; RunMain; RunMain; RunMain;
     RunMain; RunBegin "t"; RunMain; RunBegin "u"; RunMain;
     RunEnd "u"; RunMain; RunEnd "t"; RunMain] gen2 world2
  = None.
Proof. vm_compute. reflexivity. Qed.

(** No shutdown goroutine runs before [stopping] has started it. *)
Example stopping_no_early_shutdown :
  stopping (genv env_ok) ["t"; "u"]
    [RunMain; RunMain; RunBegin "t"] gen2 world2 = None.
Proof. vm_compute. reflexivity. Qed.

End StoppingExamples.

(** ** More on the comparison of headers *)

Section HeadersEquality.
Import Storage Claims.

(** X1.  What [headersEqual] decides: the two maps have the same number
    of entries, and every header of the first is in the second with the
    same value, or has the empty value and is missing from the second. *)
Theorem headersEqual_spec (a b : gmap string string) :
  headersEqual a b = true <->
  size a = size b /\
  forall k v, a !! k = Some v -> b !! k = Some v \/ (v = "" /\ b !! k = None).
Proof.
  rewrite headersEqual_true. split; intros [Hsz H]; (split; [done|]).
  - intros k v Hk. specialize (H k v Hk).
    destruct (b !! k) as [v'|]; simpl in H; subst; auto.
  - intros k v Hk. destruct (H k v Hk) as [->|[-> ->]]; done.
Qed.

(** X2.  When no header of the first map has the empty value,
    [headersEqual] is equality of the two maps; when that holds of the
    second map too, the order of the arguments does not matter. *)
Theorem headersEqual_exact (a b : gmap string string) :
  no_empty_value a ->
  headersEqual a b = bool_decide (a = b) /\
  (no_empty_value b -> headersEqual b a = headersEqual a b).
Proof.
  assert (Hab : forall x y : gmap string string,
             no_empty_value x -> headersEqual x y = bool_decide (x = y)).
  { intros x y Hx. case_bool_decide as Heq.
    - subst. apply headersEqual_refl.
    - destruct (headersEqual x y) eqn:He; [|done].
      destruct Heq. by apply headersEqual_sound. }
  intros Ha. split; [by apply Hab|]. intros Hb. rewrite !Hab by done.
  apply bool_decide_ext. split; congruence.
Qed.

(** X3.  [headersEqual] is not symmetric: a map with one header of
    empty value equals, for it, any map with one other header, while the
    comparison the other way round tells them apart as soon as the value
    of that other header is not empty. *)
Theorem headersEqual_asymmetric (k k' v : string) :
  k ≠ k' -> v ≠ "" ->
  headersEqual {[ k := "" ]} {[ k' := v ]} = true /\
  headersEqual {[ k' := v ]} {[ k := "" ]} = false.
Proof.
  intros Hk Hv. split.
  - apply headersEqual_true. split.
    + by rewrite !map_size_singleton.
    + intros x y [-> ->]%lookup_singleton_Some.
      by rewrite lookup_singleton_ne.
  - destruct (headersEqual {[ k' := v ]} {[ k := "" ]}) eqn:He; [|done].
    apply headersEqual_true in He as [_ He].
    specialize (He k' v (lookup_singleton_eq _ _)).
    rewrite lookup_singleton_ne in He by done. simpl in He. by destruct Hv.
Qed.

(** X2 at work: two values of one header. *)
Lemma headersEqual_exact_witness :
  no_empty_value {[ "X-Scope" := "a" ]} /\
  headersEqual {[ "X-Scope" := "a" ]} {[ "X-Scope" := "b" ]}
  = bool_decide (({[ "X-Scope" := "a" ]} : gmap string string)
                 = {[ "X-Scope" := "b" ]}).
Proof.
  assert (Ha : no_empty_value {[ "X-Scope" := "a" ]}).
  { intros k Hk. apply lookup_singleton_Some in Hk as [_ Hk]. discriminate Hk. }
  split; [exact Ha|].
  exact (proj1 (headersEqual_exact {[ "X-Scope" := "a" ]} {[ "X-Scope" := "b" ]} Ha)).
Defined.

(** X3 at work. *)
Lemma headersEqual_asymmetric_witness :
  "x" ≠ "y" /\ "1" ≠ "" /\
  headersEqual {[ "x" := "" ]} {[ "y" := "1" ]} = true /\
  headersEqual {[ "y" := "1" ]} {[ "x" := "" ]} = false.
Proof.
  assert (H1 : "x" ≠ "y") by discriminate.
  assert (H2 : "1" ≠ "") by discriminate.
  split; [exact H1|]. split; [exact H2|].
  exact (headersEqual_asymmetric "x" "y" "1" H1 H2).
Defined.

End HeadersEquality.

(** ** More on the poll task *)

Section WatcherInvariants.
Import Storage Claims Invariants.
Variable env : Env.

Lemma watcher_frame_refl w : watcher_frame w w.
Proof.
  repeat split; try done.
  - intros h s Hs. by exists s.
  - intros r x Hx. by exists x.
Qed.

Lemma watcher_frame_trans w1 w2 w3 :
  watcher_frame w1 w2 -> watcher_frame w2 w3 -> watcher_frame w1 w3.
Proof.
  intros (F1 & W1 & N1 & S1 & R1) (F2 & W2 & N2 & S2 & R2).
  split; [congruence|]. split; [congruence|]. split; [congruence|]. split.
  - intros h s Hs. destruct (S1 h s Hs) as (s' & Hs' & ?&?&?&?&?&?).
    destruct (S2 h s' Hs') as (s'' & Hs'' & ?&?&?&?&?&?).
    exists s''. split; [done|]. repeat split; congruence.
  - intros r x Hx. destruct (R1 r x Hx) as (x' & Hx' & ?&?).
    destruct (R2 r x' Hx') as (x'' & Hx'' & ?&?).
    exists x''. split; [done|]. split; congruence.
Qed.

Lemma watcher_frame_storages w w' :
  fs w' = fs w -> wals w' = wals w -> next_handle w' = next_handle w ->
  remotes w' = remotes w -> storages w' = storages w -> watcher_frame w w'.
Proof.
  intros F W N R S. split; [done|]. split; [done|]. split; [done|]. split.
  - intros h s Hs. exists s. by rewrite S.
  - intros r x Hx. exists x. by rewrite R.
Qed.

Lemma watcher_frame_set_cache h hd nt w : watcher_frame w (set_cache h hd nt w).
Proof.
  split; [done|]. split; [done|]. split; [done|]. split.
  - intros h' s Hs. unfold set_cache. simpl.
    destruct (decide (h' = h)) as [->|Hne].
    + rewrite lookup_alter_eq, Hs. simpl. eexists. split; [done|]. by repeat split.
    + rewrite lookup_alter_ne by done. by exists s.
  - intros r x Hx. by exists x.
Qed.

Lemma watcher_frame_set_watching h b w : watcher_frame w (set_watching h b w).
Proof.
  split; [done|]. split; [done|]. split; [done|]. split.
  - intros h' s Hs. unfold set_watching. simpl.
    destruct (decide (h' = h)) as [->|Hne].
    + rewrite lookup_alter_eq, Hs. simpl. eexists. split; [done|]. by repeat split.
    + rewrite lookup_alter_ne by done. by exists s.
  - intros r x Hx. by exists x.
Qed.

Lemma watcher_frame_ApplyConfig r c w :
  watcher_frame w (remote_ApplyConfig env r c w).2.
Proof.
  unfold remote_ApplyConfig. destruct (ApplyConfig_err env c); simpl.
  - by apply watcher_frame_storages.
  - split; [done|]. split; [done|]. split; [done|]. split.
    + intros h s Hs. by exists s.
    + intros r' x Hx. simpl. destruct (decide (r' = r)) as [->|Hne].
      * rewrite lookup_alter_eq, Hx. simpl. by eexists.
      * rewrite lookup_alter_ne by done. by exists x.
Qed.

(** One poll changes nothing but the cache of its own storage, the
    configuration of a remote-write storage, the failure counter and the
    trace. *)
Lemma watch_tick_frame o h w : watcher_frame w (watch_tick env o h w).
Proof.
  destruct (storages w !! h) as [s|] eqn:Hs.
  - destruct (change_seen env o s) eqn:Hc.
    + rewrite (watch_tick_changed env o h w s Hs Hc). cbv zeta.
      set (wm := set_cache _ _ _ _).
      pose proof (watcher_frame_ApplyConfig (remote s) (polled_conf env o s) wm) as Ha.
      assert (Hm : watcher_frame w wm).
      { eapply watcher_frame_trans; [|apply watcher_frame_set_cache].
        by apply watcher_frame_storages. }
      destruct (remote_ApplyConfig _ _ _ _) as [[e|] w2]; simpl in Ha.
      * eapply watcher_frame_trans; [exact Hm|].
        eapply watcher_frame_trans; [exact Ha|].
        by apply watcher_frame_storages.
      * by eapply watcher_frame_trans.
    + rewrite (watch_tick_unchanged env o h w s Hs Hc). apply watcher_frame_refl.
  - unfold watch_tick. rewrite Hs. apply watcher_frame_refl.
Qed.

(** X4.  Whatever the poll task of a storage receives, and however long
    it runs, it leaves the file system and the WALs as they are, and of
    every storage and remote-write storage it changes at most the cached
    overrides and the configuration applied: no directory, tenant, handle
    or closed flag is touched. *)
Theorem watchOverrides_frame (sched : list selected) (h : nat) (w : World) :
  watcher_frame w (watchOverrides env sched h w).
Proof.
  unfold watchOverrides.
  assert (Hloop : forall start k w0,
            watcher_frame w0 (watch_loop env start k sched h w0));
    [|apply Hloop].
  induction sched as [|[o|] rest IH]; intros start k w0; simpl.
  - apply watcher_frame_refl.
  - eapply watcher_frame_trans; [|apply IH].
    eapply watcher_frame_trans; [|apply watch_tick_frame].
    by apply watcher_frame_storages.
  - destruct (default false _).
    + eapply watcher_frame_trans; [apply (watcher_frame_set_watching h false)|].
      by apply watcher_frame_storages.
    + apply IH.
Qed.

Lemma count_failed_app (a b : list event) :
  count_failed (a ++ b) = (count_failed a + count_failed b)%nat.
Proof. unfold count_failed. by rewrite List.filter_app, length_app. Qed.

Lemma watch_tick_counter o h w s :
  storages w !! h = Some s ->
  exists evs,
    trace (watch_tick env o h w) = trace w ++ evs /\
    default 0%nat (update_failed_total (watch_tick env o h w) !! tenantID s)
    = (default 0%nat (update_failed_total w !! tenantID s) + count_failed evs)%nat /\
    (forall t, t ≠ tenantID s ->
       update_failed_total (watch_tick env o h w) !! t = update_failed_total w !! t).
Proof.
  intros Hs. destruct (change_seen env o s) eqn:Hc.
  - rewrite (watch_tick_changed env o h w s Hs Hc). cbv zeta.
    unfold remote_ApplyConfig. destruct (ApplyConfig_err env _); simpl.
    + eexists. split; [rewrite <- !app_assoc; reflexivity|]. split.
      * rewrite lookup_insert_eq. simpl. unfold count_failed. simpl. lia.
      * intros t Ht. by rewrite lookup_insert_ne.
    + eexists. split; [rewrite <- !app_assoc; reflexivity|].
      split; [unfold count_failed; simpl; lia|done].
  - rewrite (watch_tick_unchanged env o h w s Hs Hc). exists [].
    rewrite app_nil_r. split; [done|]. split; [unfold count_failed; simpl; lia|done].
Qed.

(** X5.  The failure counter of a tenant counts the failed attempts of
    its poll task to apply a configuration: over any run of the task it
    grows by exactly the number of refused [ApplyConfig] calls the run
    made, and the counters of the other tenants stay as they are. *)
Theorem watchOverrides_failure_counter (sched : list selected) (h : nat)
    (w : World) (s : storageImpl) :
  storages w !! h = Some s ->
  exists evs,
    trace (watchOverrides env sched h w) = trace w ++ evs /\
    default 0%nat (update_failed_total (watchOverrides env sched h w) !! tenantID s)
    = (default 0%nat (update_failed_total w !! tenantID s) + count_failed evs)%nat /\
    (forall t, t ≠ tenantID s ->
       update_failed_total (watchOverrides env sched h w) !! t
       = update_failed_total w !! t).
Proof.
  unfold watchOverrides.
  assert (Hloop : forall start k w0 s0,
    storages w0 !! h = Some s0 ->
    exists evs,
      trace (watch_loop env start k sched h w0) = trace w0 ++ evs /\
      default 0%nat
        (update_failed_total (watch_loop env start k sched h w0) !! tenantID s0)
      = (default 0%nat (update_failed_total w0 !! tenantID s0)
         + count_failed evs)%nat /\
      (forall t, t ≠ tenantID s0 ->
         update_failed_total (watch_loop env start k sched h w0) !! t
         = update_failed_total w0 !! t)); [|apply Hloop].
  clear w s.
  induction sched as [|[o|] rest IH]; intros start k w s Hs; simpl.
  - exists []. rewrite app_nil_r. split; [done|]. split; [|done].
    unfold count_failed. simpl. lia.
  - set (w1 := emit _ _).
    assert (Hs1 : storages w1 !! h = Some s) by done.
    destruct (watch_tick_counter o h w1 s Hs1) as (e1 & Ht1 & Hc1 & Ho1).
    destruct (watch_tick_frame o h w1) as (_ & _ & _ & Hst & _).
    destruct (Hst h s Hs1) as (s2 & Hs2 & _ & _ & _ & _ & Hten & _).
    destruct (IH start (k + 1) _ s2 Hs2) as (e2 & Ht2 & Hc2 & Ho2).
    rewrite Hten in Hc2, Ho2.
    eexists (_ :: e1 ++ e2). split.
    { rewrite Ht2, Ht1. subst w1. simpl. by rewrite <- !app_assoc. }
    split.
    { rewrite Hc2, Hc1. subst w1. simpl.
      change (?x :: e1 ++ e2) with ([x] ++ e1 ++ e2).
      rewrite !count_failed_app. unfold count_failed at 3. simpl. lia. }
    intros t Ht. rewrite Ho2, Ho1 by done. done.
  - destruct (default false _).
    + eexists. simpl. split; [reflexivity|]. split; [|done].
      unfold count_failed. simpl. lia.
    + by apply IH.
Qed.

Lemma watch_tick_cached o h w s :
  storages w !! h = Some s ->
  change_seen env o s = true ->
  storages (watch_tick env o h w) !! h
  = Some (mkStorageImpl (Storage.cfg s) (walDir s) (remote s) (storage s)
            (tenantID s) (polled_headers o s) (polled_native env o s)
            (closeCh s) (watching s)).
Proof.
  intros Hs Hc. rewrite (watch_tick_changed env o h w s Hs Hc). cbv zeta.
  unfold remote_ApplyConfig. destruct (ApplyConfig_err env _); simpl.
  all: by rewrite lookup_alter_eq, Hs.
Qed.

(** X6.  A poll is idempotent: a second poll that reads the same
    overrides right after the first does nothing, whether or not the
    first one managed to apply the configuration. *)
Theorem watch_tick_idempotent (o : Overrides) (h : nat) (w : World) :
  watch_tick env o h (watch_tick env o h w) = watch_tick env o h w.
Proof.
  destruct (storages w !! h) as [s|] eqn:Hs.
  - destruct (change_seen env o s) eqn:Hc.
    + pose proof (watch_tick_cached o h w s Hs Hc) as Hs'.
      apply (watch_tick_unchanged env o h _ _ Hs').
      apply change_seen_false. simpl. split.
      * apply headersEqual_refl.
      * done.
    + rewrite (watch_tick_unchanged env o h w s Hs Hc).
      by apply (watch_tick_unchanged env o h w s).
  - unfold watch_tick. by rewrite Hs, Hs.
Qed.

Lemma watch_tick_cache_applied o h w :
  (forall c, ApplyConfig_err env c = None) ->
  cache_applied w h -> cache_applied (watch_tick env o h w) h.
Proof.
  intros Hok (s & r & c & Hs & Hr & Hc & Hh & Hn).
  destruct (watch_tick_effect env o h w s r Hs Hr)
    as (s' & r' & Hs' & Hsame & Hr' & _ & _ & _ & _ & _ & Hcase).
  destruct Hsame as (_ & _ & Hrem & _).
  destruct (change_seen env o s).
  - destruct Hcase as (Hh' & Hn' & Hcase). rewrite Hok in Hcase.
    destruct Hcase as (_ & Hconf & _).
    exists s', r', (polled_conf env o s). rewrite Hrem.
    split; [done|]. split; [done|]. split; [done|]. by split.
  - destruct Hcase as (-> & _ & _). by exists s, r, c.
Qed.

Lemma watch_loop_cache_applied sched : forall start k h w,
  (forall c, ApplyConfig_err env c = None) ->
  cache_applied w h -> cache_applied (watch_loop env start k sched h w) h.
Proof.
  induction sched as [|[o|] rest IH]; intros start k h w Hok Hca; simpl.
  - done.
  - apply IH; [done|]. apply watch_tick_cache_applied; [done|].
    destruct Hca as (s & r & c & H). by exists s, r, c.
  - destruct (default false _); [|by apply IH].
    destruct Hca as (s & r & c & Hs & Hr & Hc & Hh & Hn).
    eexists _, r, c. simpl. rewrite lookup_alter_eq, Hs. simpl.
    split; [done|]. by repeat split.
Qed.

(** X7.  As long as the remote-write storage refuses no configuration,
    the cache of a storage is the configuration in force: construction
    leaves the cached headers and histogram mode equal to those of the
    configuration it applied, and the poll task keeps them equal, whatever
    it polls and however long it runs.  So a poll then compares what it
    reads with what is applied. *)
Theorem cache_is_applied_config (sched : list selected) (h : nat) :
  (forall c, ApplyConfig_err env c = None) ->
  (forall cfg o tenant w w1,
     Storage.New env cfg o tenant w = (Ok h, w1) -> cache_applied w1 h) /\
  (forall w, cache_applied w h ->
             cache_applied (watchOverrides env sched h w) h).
Proof.
  intros Hok. split.
  - intros cfg o tenant w w1 HN.
    destruct (New_Ok env cfg o tenant w h w1 HN)
      as (fs_m & _ & -> & _ & Hr & _ & Hst & _).
    eexists _, _, _. rewrite Hst, lookup_insert_eq. split; [done|]. simpl.
    rewrite Hr, lookup_insert_eq. by repeat split.
  - intros w Hca. by apply watch_loop_cache_applied.
Qed.

End WatcherInvariants.

(** ** More on the construction and the close of a storage *)

Section StorageIsolation.
Import Storage Claims Invariants.
Variable env : Env.

Lemma MkdirAll_fs_others (p q : path) (f f' : gmap path node) :
  MkdirAll_fs p f = Some f' -> ¬ q `prefix_of` p -> f' !! q = f !! q.
Proof.
  unfold MkdirAll_fs. destruct (decide (p = [])); [done|].
  destruct (existsb _ _); [done|]. intros [= <-] Hq.
  rewrite lookup_mkdirs. destruct (decide (q ∈ prefixes p)) as [Hin|]; [|done].
  apply elem_of_prefixes in Hin as [_ Hin]. by destruct Hq.
Qed.

(** Construction touches the file system only at the WAL directory, below
    it, and at the directories on the way to it. *)
Lemma New_fs_others cfg o tenant w q :
  ¬ walDir_of cfg tenant `prefix_of` q ->
  ¬ q `prefix_of` walDir_of cfg tenant ++ ["wal"] ->
  fs (Storage.New env cfg o tenant w).2 !! q = fs w !! q.
Proof.
  intros Hout Hanc. unfold Storage.New. fold (walDir_of cfg tenant).
  set (walDir := walDir_of cfg tenant) in *.
  assert (Hseg : q ≠ filepath_Join (filepath_Join walDir "wal") "00000000").
  { intros ->. apply Hout. rewrite filepath_Join_segment. by apply prefix_app_r. }
  unfold os_RemoveAll, os_MkdirAll, remote_NewStorage, remote_ApplyConfig,
    agent_Open.
  rewrite filepath_Join_wal.
  destruct (RemoveAll_err env walDir); simpl;
    destruct (MkdirAll_err env (walDir ++ ["wal"])); simpl; try done.
  all: try (by apply RemoveAll_fs_others).
  all: match goal with
       | |- context [MkdirAll_fs ?p ?f] =>
           destruct (MkdirAll_fs p f) as [fs_m|] eqn:Hmk
       end; simpl; try done.
  all: try (by apply RemoveAll_fs_others).
  all: apply (MkdirAll_fs_others _ q) in Hmk; [|done].
  all: destruct (ApplyConfig_err env _); simpl; try done.
  all: try (by rewrite Hmk; try apply RemoveAll_fs_others).
  all: destruct (agent_Open_err env walDir); simpl.
  all: rewrite ?lookup_insert_ne by done.
  all: try (by rewrite Hmk; try apply RemoveAll_fs_others).
Qed.

Lemma walDir_of_tenant cfg tenant :
  tenant ≠ "" -> walDir_of cfg tenant = to_path (Path cfg) ++ [tenant].
Proof.
  intros Ht. unfold walDir_of, filepath_Join, to_path at 2.
  by rewrite decide_False.
Qed.

(** X8.  Tenants are kept apart on disk: when the ids of two different
    tenants are plain path elements (not empty, not [.] or [..], no
    separator in them), building the storage of one, whether it succeeds
    or fails, changes nothing at or below the WAL directory of the
    other. *)
Theorem Storage_New_tenant_isolation (cfg : Storage.Config) (o : Overrides)
    (t t' : string) (w : World) (q : path) :
  t ≠ t' -> clean_element t -> clean_element t' ->
  walDir_of cfg t' `prefix_of` q ->
  fs (Storage.New env cfg o t w).2 !! q = fs w !! q.
Proof.
  intros Hne (Ht & _) (Ht' & _) [k ->]. rewrite (walDir_of_tenant cfg t') by done.
  apply New_fs_others; rewrite (walDir_of_tenant cfg t) by done;
    rewrite <- !app_assoc.
  - intros H%prefix_app_inv. destruct H as [k' H]. simpl in H. congruence.
  - intros H%prefix_app_inv. destruct H as [k' H]. simpl in H. congruence.
Qed.

(** X9.  [Close] removes files only at and below the WAL directory of
    the storage it closes. *)
Theorem Close_removes_only_own_dir (h : nat) (w : World) (q : path) :
  (forall s, storages w !! h = Some s -> ¬ walDir s `prefix_of` q) ->
  fs (Storage.Close env h w).2 !! q = fs w !! q.
Proof.
  intros Hq. unfold Storage.Close.
  destruct (storages w !! h) as [s|] eqn:Hs; [|done].
  specialize (Hq s eq_refl). destruct (closeCh s); [done|].
  unfold Fanout_Close, wal_Close, remote_Close, os_RemoveAll. simpl.
  destruct (RemoveAll_err env (walDir s)); simpl; [done|].
  by apply RemoveAll_fs_others.
Qed.

(** X10.  Closing a storage twice panics: the second [Close] logs, then
    panics on the closed channel before it closes or removes anything. *)
Theorem Close_twice_panics (h : nat) (w : World) (s : storageImpl) :
  storages w !! h = Some s ->
  closeCh s = false ->
  Storage.Close env h (Storage.Close env h w).2
  = (None, emit (EvPanic "close of closed channel")
             (log Info "closing WAL" (Storage.Close env h w).2)).
Proof.
  intros Hs Hc.
  destruct (Close_open env h w s Hs Hc) as (w' & -> & _ & Hst & _).
  simpl. unfold Storage.Close. by rewrite Hst, lookup_insert_eq.
Qed.

(** X11.  The cache of a new storage holds what was applied when it was
    built, so a poll that reads the same headers and the same histogram
    mode does nothing: the configuration is not applied a second time. *)
Theorem New_then_poll_quiet (cfg : Storage.Config) (o o' : Overrides)
    (tenant : string) (w : World) (h : nat) (w1 : World) :
  Storage.New env cfg o tenant w = (Ok h, w1) ->
  MetricsGeneratorRemoteWriteHeaders o' tenant
    = MetricsGeneratorRemoteWriteHeaders o tenant ->
  HasNativeHistograms env (MetricsGeneratorGenerateNativeHistograms o' tenant)
    = HasNativeHistograms env (MetricsGeneratorGenerateNativeHistograms o tenant) ->
  watch_tick env o' h w1 = w1.
Proof.
  intros HN Hh Hn.
  destruct (New_Ok env cfg o tenant w h w1 HN)
    as (fs_m & _ & _ & _ & _ & _ & Hst & _).
  eapply watch_tick_unchanged.
  - rewrite Hst. apply lookup_insert_eq.
  - apply change_seen_false. unfold polled_headers, polled_native. simpl.
    rewrite Hh, Hn. split; [apply headersEqual_refl|done].
Qed.

(** X12.  Why construction fails, and what it leaves.  A failed [New]
    registers no storage, opens no WAL and starts no poll task.  It failed
    at one of three steps: the directory could not be made, and the error
    is wrapped; or the remote-write storage refused the configuration, and
    the error is returned as it is; or the WAL could not be opened, and the
    error is returned as it is.  In the last two cases the remote-write
    storage that was made is left in the world, open. *)
Theorem Storage_New_failure (cfg : Storage.Config) (o : Overrides) (tenant : string)
    (w : World) (e : error) (w1 : World) :
  Storage.New env cfg o tenant w = (Err e, w1) ->
  let walDir := walDir_of cfg tenant in
  let c := generateTenantRemoteWriteConfigs (RemoteWrite cfg) tenant
             (MetricsGeneratorRemoteWriteHeaders o tenant)
             (RemoteWriteAddOrgIDHeader cfg)
             (HasNativeHistograms env
                (MetricsGeneratorGenerateNativeHistograms o tenant)) in
  storages w1 = storages w /\ wals w1 = wals w /\
  (exists evs, trace w1 = trace w ++ evs /\
               forall s, EvGoWatchOverrides s ∉ evs) /\
  ((exists e0, e = ErrWrap "could not create directory for metrics WAL" e0 /\
               remotes w1 = remotes w) \/
   (ApplyConfig_err env c = Some e /\
    remotes w1 = <[next_handle w := mkRemoteStorage walDir None false]> (remotes w)) \/
   (ApplyConfig_err env c = None /\ agent_Open_err env walDir = Some e /\
    remotes w1
    = <[next_handle w := mkRemoteStorage walDir (Some c) false]> (remotes w))).
Proof.
  unfold Storage.New, walDir_of.
  unfold os_RemoveAll, os_MkdirAll, remote_NewStorage, remote_ApplyConfig,
    agent_Open.
  set (walDir := filepath_Join (to_path (Path cfg)) tenant).
  destruct (RemoveAll_err env walDir) as [e0|];
    simpl; destruct (MkdirAll_err env (filepath_Join walDir "wal")); simpl.
  all: try match goal with
       | |- context [MkdirAll_fs ?p ?f] => destruct (MkdirAll_fs p f) as [fs_m|] eqn:Hmk
       end; simpl.
  all: try destruct (ApplyConfig_err env _) eqn:Ha; simpl.
  all: try destruct (agent_Open_err env walDir) eqn:Hop; simpl.
  all: try discriminate.
  all: intros [= <- <-]; simpl.
  all: rewrite ?alter_insert_eq; simpl.
  all: split; [done|]; split; [done|]; split.
  all: try (eexists; split; [rewrite <- ?app_assoc; simpl; reflexivity|];
            intros s Hin;
            repeat (apply elem_of_cons in Hin as [Hin|Hin]; [discriminate|]);
            apply elem_of_nil in Hin; destruct Hin).
  all: first [ left; eexists; split; reflexivity
             | right; left; split; reflexivity
             | right; right; split; [reflexivity|]; split; reflexivity ].
Qed.

End StorageIsolation.

Section StorageIsolationExamples.
Import Storage Claims Invariants.

(** X8 at work. *)
Lemma Storage_New_tenant_isolation_witness :
  "t" ≠ "u" /\ clean_element "t" /\ clean_element "u" /\
  walDir_of cfg0 "u" `prefix_of` ["/var/tempo"; "u"; "wal"] /\
  fs (Storage.New env_ok cfg0 ovr_plain "t" world_crashed).2
    !! ["/var/tempo"; "u"; "wal"]
  = fs world_crashed !! ["/var/tempo"; "u"; "wal"].
Proof.
  assert (H1 : "t" ≠ "u") by discriminate.
  assert (H2 : clean_element "t") by (by repeat split).
  assert (H3 : clean_element "u") by (by repeat split).
  assert (H4 : walDir_of cfg0 "u" `prefix_of` ["/var/tempo"; "u"; "wal"])
    by (by exists ["wal"]).
  split; [exact H1|]. split; [exact H2|]. split; [exact H3|]. split; [exact H4|].
  exact (Storage_New_tenant_isolation env_ok cfg0 ovr_plain "t" "u" world_crashed
           ["/var/tempo"; "u"; "wal"] H1 H2 H3 H4).
Defined.

(** X9 at work. *)
Lemma Close_removes_only_own_dir_witness :
  (forall s, storages (world_t env_ok) !! h_t = Some s ->
             ¬ walDir s `prefix_of` ["/var/tempo"]) /\
  fs (Storage.Close env_ok h_t (world_t env_ok)).2 !! ["/var/tempo"]
  = fs (world_t env_ok) !! ["/var/tempo"].
Proof.
  assert (H : forall s, storages (world_t env_ok) !! h_t = Some s ->
                        ¬ walDir s `prefix_of` ["/var/tempo"]).
  { intros s Hs. assert (Hs' : storages (world_t env_ok) !! h_t = Some s_t)
      by (vm_compute; reflexivity).
    rewrite Hs' in Hs. injection Hs as <-. simpl.
    intros [k Hk]. discriminate Hk. }
  split; [exact H|].
  exact (Close_removes_only_own_dir env_ok h_t (world_t env_ok) ["/var/tempo"] H).
Defined.

(** X10 at work. *)
Lemma Close_twice_panics_witness :
  storages (world_t env_ok) !! h_t = Some s_t /\
  closeCh s_t = false /\
  Storage.Close env_ok h_t (Storage.Close env_ok h_t (world_t env_ok)).2
  = (None, emit (EvPanic "close of closed channel")
             (log Info "closing WAL" (Storage.Close env_ok h_t (world_t env_ok)).2)).
Proof.
  assert (Hs : storages (world_t env_ok) !! h_t = Some s_t)
    by (vm_compute; reflexivity).
  split; [exact Hs|]. split; [reflexivity|].
  exact (Close_twice_panics env_ok h_t (world_t env_ok) s_t Hs eq_refl).
Defined.

(** X11 at work. *)
Lemma New_then_poll_quiet_witness :
  Storage.New env_ok cfg0 ovr_auth "t" world0
    = (Ok h_t, (Storage.New env_ok cfg0 ovr_auth "t" world0).2) /\
  watch_tick env_ok (ovr {[ "X-Auth" := "k" ]} "both") h_t
    (Storage.New env_ok cfg0 ovr_auth "t" world0).2
  = (Storage.New env_ok cfg0 ovr_auth "t" world0).2.
Proof.
  assert (HN : Storage.New env_ok cfg0 ovr_auth "t" world0
               = (Ok h_t, (Storage.New env_ok cfg0 ovr_auth "t" world0).2))
    by (vm_compute; reflexivity).
  split; [exact HN|].
  exact (New_then_poll_quiet env_ok cfg0 ovr_auth
           (ovr {[ "X-Auth" := "k" ]} "both") "t" world0 h_t _ HN
           eq_refl eq_refl).
Defined.

(** X12 at work. *)
Lemma Storage_New_failure_witness :
  Storage.New env_open_fails cfg0 ovr_plain "t" world0
    = (Err (ErrOther "open WAL: corrupted segment"),
       (Storage.New env_open_fails cfg0 ovr_plain "t" world0).2) /\
  storages (Storage.New env_open_fails cfg0 ovr_plain "t" world0).2 = ∅ /\
  remotes (Storage.New env_open_fails cfg0 ovr_plain "t" world0).2 !! 0%nat
    = Some r_t.
Proof.
  assert (HN : Storage.New env_open_fails cfg0 ovr_plain "t" world0
               = (Err (ErrOther "open WAL: corrupted segment"),
                  (Storage.New env_open_fails cfg0 ovr_plain "t" world0).2))
    by (vm_compute; reflexivity).
  split; [exact HN|].
  destruct (Storage_New_failure env_open_fails cfg0 ovr_plain "t" world0 _ _ HN)
    as (Hst & _ & _ & Hcase).
  split; [exact Hst|].
  destruct Hcase as [(e0 & He & _)|[(Ha & _)|(_ & _ & Hr)]].
  - discriminate He.
  - discriminate Ha.
  - rewrite Hr. apply lookup_insert_eq.
Defined.

End StorageIsolationExamples.

(** ** More on the construction of the generator and on the registry *)

Section RegistryInvariants.
Import Storage Generator Claims.
Variable env : GEnv.

Lemma MkdirAll_fs_made (p : path) (f f' : gmap path node) :
  MkdirAll_fs p f = Some f' -> f' !! p = Some Dir.
Proof.
  unfold MkdirAll_fs. destruct (decide (p = [])) as [|Hp]; [done|].
  destruct (existsb _ _); [done|]. intros [= <-].
  rewrite lookup_mkdirs. rewrite decide_True; [done|].
  by apply elem_of_prefixes.
Qed.

(** X13.  A generator that [New] returns finds its storage root on disk
    as a directory, has no subservices and no Kafka client yet, and has a
    ring lifecycler exactly when gRPC is not disabled; with gRPC disabled,
    making the directory is all that [New] did. *)
Theorem Generator_New_success (cfg : Generator.Config) (o : Overrides) (w : World)
    (g : Generator) (w' : World) :
  Generator.New env cfg o w = (Ok g, w') ->
  Validate_err env cfg = None /\
  fs w' !! to_path (Path (Generator.Storage cfg)) = Some Dir /\
  overrides g = o /\ subservices g = None /\ kafkaClient g = false /\
  ringLifecycler g
  = (if DisableGRPC cfg then None else Some (OverrideRingKey cfg)) /\
  (DisableGRPC cfg = true ->
   trace w' = trace w ++ [EvMkdirAll (to_path (Path (Generator.Storage cfg))) true] /\
   remotes w' = remotes w /\ wals w' = wals w /\ storages w' = storages w).
Proof.
  unfold Generator.New.
  destruct (decide (Path (Generator.Storage cfg) = "")) as [|Hp]; [done|].
  destruct (Validate_err env cfg); [done|].
  unfold os_MkdirAll. destruct (MkdirAll_err _ _); [done|].
  destruct (MkdirAll_fs _ _) as [f|] eqn:Hmk; [|done].
  apply MkdirAll_fs_made in Hmk.
  destruct (DisableGRPC cfg); simpl.
  - intros [= <- <-]. by repeat split.
  - unfold call.
    destruct (kv_NewClient_err env _); [done|].
    destruct (toLifecyclerConfig_err env _); [done|].
    destruct (NewBasicLifecycler_err env _); [done|].
    intros [= <- <-]. by repeat split.
Qed.

(** X14.  Readiness of a generator that [New] returned: without the ring
    (gRPC disabled) it is always ready; with the ring it is ready exactly
    when the lifecycler is registered in the ring. *)
Theorem CheckReady_after_New (cfg : Generator.Config) (o : Overrides)
    (w : World) (g : Generator) (w' : World) (registered : bool) :
  Generator.New env cfg o w = (Ok g, w') ->
  (CheckReady registered g = None <->
   DisableGRPC cfg = true \/ registered = true).
Proof.
  unfold Generator.New, CheckReady.
  destruct (decide (Path (Generator.Storage cfg) = "")); [done|].
  destruct (Validate_err env cfg); [done|].
  destruct (os_MkdirAll _ _ _) as [[e|] w1]; [done|].
  destruct (DisableGRPC cfg); simpl.
  - intros [= <- <-]. simpl. split; auto.
  - unfold call.
    destruct (kv_NewClient_err env _); [done|].
    destruct (toLifecyclerConfig_err env _); [done|].
    destruct (NewBasicLifecycler_err env _); [done|].
    intros [= <- <-]. simpl. destruct registered; simpl.
    + split; auto.
    + split; [intros H|intros [H|H]]; discriminate H.
Qed.

Lemma optional_wal_Ok c id w t w' :
  optional_wal env c id w = (Ok t, w') ->
  t = if decide (Filepath c = "") then None
      else Some (filepath_Join (to_path (Filepath c)) id).
Proof.
  unfold optional_wal, tempodb_wal_New. destruct (decide (Filepath c = "")).
  - by intros [= <- <-].
  - destruct (tempodb_wal_New_err env _); [done|]. by intros [= <- <-].
Qed.

Lemma createInstance_Ok id g w inst g' w' :
  createInstance env id g w = (Ok inst, g', w') ->
  exists w1,
    Storage.New (sys env) (Generator.Storage (Generator.cfg g)) (overrides g) id w
      = (Ok (wal inst), w1) /\
    same_objects w1 w' /\
    instanceID inst = id /\ pushed inst = [] /\
    tracesWAL inst
    = (if decide (Filepath (TracesWAL (Generator.cfg g)) = "") then None
       else Some (filepath_Join (to_path (Filepath (TracesWAL (Generator.cfg g)))) id)) /\
    tracesQueryWAL inst
    = (if decide (Filepath (TracesQueryWAL (Generator.cfg g)) = "") then None
       else Some (filepath_Join
                    (to_path (Filepath (TracesQueryWAL (Generator.cfg g)))) id)) /\
    (id ∉ reg g) /\ g' = set_reg ({[id]} ∪ reg g) g.
Proof.
  unfold createInstance.
  destruct (Storage.New _ _ _ _ _) as [[h|e] w1] eqn:HN; [|done].
  destruct (optional_wal env (TracesWAL _) id w1) as [[t1|e] w2] eqn:H1.
  2:{ by destruct (Storage.Close _ _ _). }
  destruct (optional_wal env (TracesQueryWAL _) id w2) as [[t2|e] w3] eqn:H2.
  2:{ by destruct (Storage.Close _ _ _). }
  pose proof (optional_wal_Ok _ _ _ _ _ H1) as Ht1.
  pose proof (optional_wal_Ok _ _ _ _ _ H2) as Ht2.
  apply optional_wal_same in H1, H2.
  unfold newInstance. destruct (newInstance_err env id).
  { by destruct (Storage.Close _ _ _). }
  unfold reg_Register. destruct (Register_err env id); [done|].
  destruct (decide (id ∈ reg g)) as [|Hreg]; [done|].
  intros [= <- <- <-]. exists w1. simpl. split; [done|].
  split; [|by rewrite Ht1, Ht2].
  eapply same_objects_trans; [exact H1|].
  eapply same_objects_trans; [exact H2|].
  eapply same_objects_trans; apply same_objects_emit.
Qed.

Lemma createInstance_gen id g w r g' w' :
  createInstance env id g w = (r, g', w') ->
  instances g' = instances g /\ readOnly g' = readOnly g /\
  Generator.cfg g' = Generator.cfg g /\ overrides g' = overrides g /\
  ringLifecycler g' = ringLifecycler g /\ subservices g' = subservices g.
Proof.
  unfold createInstance.
  destruct (Storage.New _ _ _ _ _) as [[h|e] w1]; [|by intros [= <- <- <-]].
  destruct (optional_wal env (TracesWAL _) id w1) as [[t1|e] w2].
  2:{ destruct (Storage.Close _ _ _). by intros [= <- <- <-]. }
  destruct (optional_wal env (TracesQueryWAL _) id w2) as [[t2|e] w3].
  2:{ destruct (Storage.Close _ _ _). by intros [= <- <- <-]. }
  destruct (newInstance env id h t1 t2 w3) as [[inst|e] w4].
  2:{ destruct (Storage.Close _ _ _). by intros [= <- <- <-]. }
  unfold reg_Register. destruct (Register_err env id); [by intros [= <- <- <-]|].
  destruct (decide (id ∈ reg g)); by intros [= <- <- <-].
Qed.

(** X15.  The first successful [getOrCreateInstance] for a tenant builds
    one storage for that tenant (its directory is the tenant's, it is open
    and its poll task runs), makes a traces WAL below the configured path
    under the tenant's name exactly when such a path is configured,
    registers the tenant's metrics, and caches the instance under the
    tenant; from then on the call returns the cached instance and does
    nothing else, in whatever world it is made. *)
Theorem getOrCreateInstance_caches (id : string) (g : Generator) (w : World)
    (inst : instance) (g' : Generator) (w' : World) :
  instances g !! id = None ->
  getOrCreateInstance env id g w = (Ok inst, g', w') ->
  instances g' = <[id := inst]> (instances g) /\
  instanceID inst = id /\ pushed inst = [] /\
  tracesWAL inst
  = (if decide (Filepath (TracesWAL (Generator.cfg g)) = "") then None
     else Some (filepath_Join (to_path (Filepath (TracesWAL (Generator.cfg g)))) id)) /\
  reg g' = {[id]} ∪ reg g /\
  (exists s, storages w' !! wal inst = Some s /\ tenantID s = id /\
             walDir s = walDir_of (Generator.Storage (Generator.cfg g)) id /\
             closeCh s = false /\ watching s = true) /\
  (forall w'', getOrCreateInstance env id g' w'' = (Ok inst, g', w'')).
Proof.
  intros Hid. unfold getOrCreateInstance at 1, getInstanceByID. rewrite Hid.
  destruct (createInstance env id g w) as [[[i|e] g1] w1] eqn:Hc; [|done].
  intros [= <- <- <-].
  destruct (createInstance_Ok _ _ _ _ _ _ Hc)
    as (w0 & HN & (_ & _ & _ & Hst) & Hi & Hp & Ht1 & _ & Hreg & ->).
  apply New_Ok in HN. cbv zeta in HN.
  destruct HN as (fs_m & _ & _ & _ & _ & _ & Hst0 & _).
  simpl. split; [done|]. split; [done|]. split; [done|]. split; [done|].
  split; [done|]. split.
  - rewrite Hst, Hst0, lookup_insert_eq. eexists. by split.
  - intros w''. unfold getOrCreateInstance, getInstanceByID. simpl.
    by rewrite lookup_insert_eq.
Qed.

Lemma getOrCreateInstance_gen id g w r g' w' :
  getOrCreateInstance env id g w = (r, g', w') ->
  readOnly g' = readOnly g /\ Generator.cfg g' = Generator.cfg g /\
  overrides g' = overrides g /\ ringLifecycler g' = ringLifecycler g /\
  subservices g' = subservices g /\
  (forall id', id' ≠ id -> instances g' !! id' = instances g !! id') /\
  (is_Some (instances g !! id) -> g' = g).
Proof.
  unfold getOrCreateInstance, getInstanceByID.
  destruct (instances g !! id) as [i|] eqn:Hid.
  { intros [= <- <- <-]. by repeat split. }
  destruct (createInstance env id g w) as [[[i|e] g1] w1] eqn:Hc.
  all: apply createInstance_gen in Hc as (Hi & ? & ? & ? & ? & ?).
  all: intros [= <- <- <-]; simpl.
  all: repeat split; try done.
  - intros id' Hne. by rewrite lookup_insert_ne, Hi.
  - intros id' Hne. by rewrite Hi.
Qed.

(** X16.  Whatever a push does, it keeps to its tenant: the read-only
    flag, the configuration and the ring and subservice handles stay as
    they are, the instance of every other tenant stays as it is, and no
    tenant ever leaves the registry. *)
Theorem PushSpans_frame (ctx : Context) (req : PushSpansRequest)
    (g : Generator) (w : World) (r : result PushResponse) (g' : Generator)
    (w' : World) :
  PushSpans env ctx req g w = (r, g', w') ->
  readOnly g' = readOnly g /\ Generator.cfg g' = Generator.cfg g /\
  ringLifecycler g' = ringLifecycler g /\ subservices g' = subservices g /\
  (forall id, orgID ctx ≠ Some id -> instances g' !! id = instances g !! id) /\
  (forall id, is_Some (instances g !! id) -> is_Some (instances g' !! id)).
Proof.
  unfold PushSpans. destruct (readOnly g) eqn:Hro.
  { intros [= <- <- <-]. by repeat split. }
  unfold ExtractOrgID. destruct (orgID ctx) as [t|] eqn:Hctx.
  2:{ intros [= <- <- <-]. by repeat split. }
  destruct (getOrCreateInstance env t g w) as [[[i|e] g1] w1] eqn:Hg.
  all: pose proof (getOrCreateInstance_gen _ _ _ _ _ _ Hg)
    as (H1 & H2 & H3 & H4 & H5 & H6 & H7).
  all: intros [= <- <- <-]; simpl.
  all: split; [congruence|]; split; [done|]; split; [done|]; split; [done|].
  all: split.
  - intros id Hne. rewrite lookup_insert_ne by congruence.
    apply H6. congruence.
  - intros id Hsome. destruct (decide (id = t)) as [->|Hne].
    + rewrite lookup_insert_eq. by eexists.
    + rewrite lookup_insert_ne by done. by rewrite H6.
  - intros id Hne. apply H6. congruence.
  - intros id Hsome. destruct (decide (id = t)) as [->|Hne].
    + by rewrite (H7 Hsome).
    + by rewrite H6.
Qed.

Lemma PushSpans_instance_stable ctx req g w r g' w' id inst :
  PushSpans env ctx req g w = (r, g', w') ->
  instances g !! id = Some inst ->
  exists inst',
    instances g' !! id = Some inst' /\
    wal inst' = wal inst /\ instanceID inst' = instanceID inst /\
    tracesWAL inst' = tracesWAL inst /\
    tracesQueryWAL inst' = tracesQueryWAL inst /\
    pushed inst `prefix_of` pushed inst'.
Proof.
  intros HP Hid. unfold PushSpans in HP. destruct (readOnly g).
  { injection HP as <- <- <-. by exists inst. }
  unfold ExtractOrgID in HP. destruct (orgID ctx) as [t|].
  2:{ injection HP as <- <- <-. by exists inst. }
  destruct (getOrCreateInstance env t g w) as [[[i|e] g1] w1] eqn:Hg.
  all: pose proof (getOrCreateInstance_gen _ _ _ _ _ _ Hg)
    as (_ & _ & _ & _ & _ & H6 & H7).
  all: injection HP as <- <- <-; simpl.
  - destruct (decide (id = t)) as [->|Hne].
    + rewrite lookup_insert_eq.
      assert (g1 = g) as -> by (apply H7; by eexists).
      unfold getOrCreateInstance, getInstanceByID in Hg. rewrite Hid in Hg.
      injection Hg as <- <-. eexists. split; [done|]. simpl.
      repeat split; try done. by apply prefix_app_r.
    + rewrite lookup_insert_ne by done. rewrite H6 by done. by exists inst.
  - destruct (decide (id = t)) as [->|Hne].
    + assert (g1 = g) as -> by (apply H7; by eexists). by exists inst.
    + rewrite H6 by done. by exists inst.
Qed.

(** X17.  An instance is never replaced.  Over any series of pushes, for
    any tenants and whatever fails on the way, a tenant that has an
    instance keeps it: the same storage, the same traces WALs, and the
    requests it has received so far, with later ones after them. *)
Theorem pushes_instance_stable (calls : list (Context * PushSpansRequest))
    (g : Generator) (w : World) (rs : list (result PushResponse))
    (g' : Generator) (w' : World) (id : string) (inst : instance) :
  pushes env calls g w = (rs, g', w') ->
  instances g !! id = Some inst ->
  exists inst',
    instances g' !! id = Some inst' /\
    wal inst' = wal inst /\ instanceID inst' = instanceID inst /\
    tracesWAL inst' = tracesWAL inst /\
    tracesQueryWAL inst' = tracesQueryWAL inst /\
    pushed inst `prefix_of` pushed inst'.
Proof.
  revert g w rs g' w' inst.
  induction calls as [|[ctx req] calls IH]; intros g w rs g' w' inst; simpl.
  - intros [= <- <- <-] Hid. by exists inst.
  - destruct (PushSpans env ctx req g w) as [[r g1] w1] eqn:HP.
    destruct (pushes env calls g1 w1) as [[rs' g2] w2] eqn:Hrest.
    intros [= <- <- <-] Hid.
    destruct (PushSpans_instance_stable _ _ _ _ _ _ _ _ _ HP Hid)
      as (i1 & Hi1 & ? & ? & ? & ? & ?).
    destruct (IH _ _ _ _ _ _ Hrest Hi1) as (i2 & Hi2 & ? & ? & ? & ? & ?).
    exists i2. split; [done|]. repeat split; try congruence.
    by etrans.
Qed.

End RegistryInvariants.

Section RegistryInvariantsExamples.
Import Storage Generator Claims.

(** X13 at work. *)
Lemma Generator_New_success_witness :
  Generator.New (genv env_ok) gcfg0 ovr_plain world0
    = (Ok gen_new, (Generator.New (genv env_ok) gcfg0 ovr_plain world0).2) /\
  fs (Generator.New (genv env_ok) gcfg0 ovr_plain world0).2 !! ["/var/tempo"]
    = Some Dir /\
  ringLifecycler gen_new = Some "metrics-generator".
Proof.
  assert (HN : Generator.New (genv env_ok) gcfg0 ovr_plain world0
               = (Ok gen_new, (Generator.New (genv env_ok) gcfg0 ovr_plain world0).2))
    by (vm_compute; reflexivity).
  split; [exact HN|].
  destruct (Generator_New_success (genv env_ok) gcfg0 ovr_plain world0 gen_new _ HN)
    as (_ & Hfs & _ & _ & _ & Hr & _).
  split; [exact Hfs|exact Hr].
Defined.

(** X14 at work. *)
Lemma CheckReady_after_New_witness :
  Generator.New (genv env_ok) gcfg0 ovr_plain world0
    = (Ok gen_new, (Generator.New (genv env_ok) gcfg0 ovr_plain world0).2) /\
  (CheckReady false gen_new = None <->
   DisableGRPC gcfg0 = true \/ false = true).
Proof.
  assert (HN : Generator.New (genv env_ok) gcfg0 ovr_plain world0
               = (Ok gen_new, (Generator.New (genv env_ok) gcfg0 ovr_plain world0).2))
    by (vm_compute; reflexivity).
  split; [exact HN|].
  exact (CheckReady_after_New (genv env_ok) gcfg0 ovr_plain world0 gen_new _
           false HN).
Defined.

(** X15 at work. *)
Lemma getOrCreateInstance_caches_witness :
  instances gen0 !! "t" = None /\
  getOrCreateInstance (genv env_ok) "t" gen0 world0
    = (Ok (mkInstance "t" 2 None None []),
       (getOrCreateInstance (genv env_ok) "t" gen0 world0).1.2,
       (getOrCreateInstance (genv env_ok) "t" gen0 world0).2) /\
  getOrCreateInstance (genv env_ok) "t"
    (getOrCreateInstance (genv env_ok) "t" gen0 world0).1.2 world_crashed
  = (Ok (mkInstance "t" 2 None None []),
     (getOrCreateInstance (genv env_ok) "t" gen0 world0).1.2, world_crashed).
Proof.
  assert (Hid : instances gen0 !! "t" = None) by reflexivity.
  assert (Hg : getOrCreateInstance (genv env_ok) "t" gen0 world0
    = (Ok (mkInstance "t" 2 None None []),
       (getOrCreateInstance (genv env_ok) "t" gen0 world0).1.2,
       (getOrCreateInstance (genv env_ok) "t" gen0 world0).2))
    by (vm_compute; reflexivity).
  split; [exact Hid|]. split; [exact Hg|].
  destruct (getOrCreateInstance_caches (genv env_ok) "t" gen0 world0 _ _ _ Hid Hg)
    as (_ & _ & _ & _ & _ & _ & Hagain).
  exact (Hagain world_crashed).
Defined.

(** X16 at work. *)
Lemma PushSpans_frame_witness :
  PushSpans (genv env_ok) ctx_u req1 gen2 world2
    = ((PushSpans (genv env_ok) ctx_u req1 gen2 world2).1.1,
       (PushSpans (genv env_ok) ctx_u req1 gen2 world2).1.2,
       (PushSpans (genv env_ok) ctx_u req1 gen2 world2).2) /\
  orgID ctx_u ≠ Some "t" /\
  instances (PushSpans (genv env_ok) ctx_u req1 gen2 world2).1.2 !! "t"
  = instances gen2 !! "t".
Proof.
  assert (HP : PushSpans (genv env_ok) ctx_u req1 gen2 world2
    = ((PushSpans (genv env_ok) ctx_u req1 gen2 world2).1.1,
       (PushSpans (genv env_ok) ctx_u req1 gen2 world2).1.2,
       (PushSpans (genv env_ok) ctx_u req1 gen2 world2).2))
    by (by destruct (PushSpans _ _ _ _ _) as [[? ?] ?]).
  assert (Hne : orgID ctx_u ≠ Some "t") by discriminate.
  split; [exact HP|]. split; [exact Hne|].
  destruct (PushSpans_frame (genv env_ok) ctx_u req1 gen2 world2 _ _ _ HP)
    as (_ & _ & _ & _ & Hother & _).
  exact (Hother "t" Hne).
Defined.

(** X17 at work. *)
Lemma pushes_instance_stable_witness :
  pushes (genv env_ok) [(ctx_u, req1); (ctx_t, req1)] gen2 world2
    = ((pushes (genv env_ok) [(ctx_u, req1); (ctx_t, req1)] gen2 world2).1.1,
       (pushes (genv env_ok) [(ctx_u, req1); (ctx_t, req1)] gen2 world2).1.2,
       (pushes (genv env_ok) [(ctx_u, req1); (ctx_t, req1)] gen2 world2).2) /\
  instances gen2 !! "t" = Some (mkInstance "t" 2 None None [req1]) /\
  exists inst',
    instances (pushes (genv env_ok) [(ctx_u, req1); (ctx_t, req1)] gen2 world2).1.2
      !! "t" = Some inst' /\
    wal inst' = 2%nat /\ [req1] `prefix_of` pushed inst'.
Proof.
  assert (HP : pushes (genv env_ok) [(ctx_u, req1); (ctx_t, req1)] gen2 world2
    = ((pushes (genv env_ok) [(ctx_u, req1); (ctx_t, req1)] gen2 world2).1.1,
       (pushes (genv env_ok) [(ctx_u, req1); (ctx_t, req1)] gen2 world2).1.2,
       (pushes (genv env_ok) [(ctx_u, req1); (ctx_t, req1)] gen2 world2).2))
    by (by destruct (pushes _ _ _ _) as [[? ?] ?]).
  assert (Ht : instances gen2 !! "t" = Some (mkInstance "t" 2 None None [req1]))
    by (vm_compute; reflexivity).
  split; [exact HP|]. split; [exact Ht|].
  destruct (pushes_instance_stable (genv env_ok) _ gen2 world2 _ _ _ "t" _ HP Ht)
    as (inst' & Hi & Hw & _ & _ & _ & Hp).
  exists inst'. split; [exact Hi|]. split; [exact Hw|exact Hp].
Defined.

End RegistryInvariantsExamples.

(** ** More on start-up *)

Section StartingCleanup.
Import Storage Generator Claims Invariants.
Variable env : GEnv.

Lemma same_objects_Wait ctx b w : same_objects w (Wait env ctx b w).2.
Proof.
  unfold Wait. destruct (NextDelay env b) as [d b'].
  destruct (Ongoing ctx b' w); simpl; by repeat split.
Qed.

Lemma Wait_trace ctx b w :
  exists evs, trace (Wait env ctx b w).2 = trace w ++ evs /\
              existsb is_stop_manager evs = false.
Proof.
  unfold Wait. destruct (NextDelay env b) as [d b'].
  destruct (Ongoing ctx b' w); simpl.
  - by eexists [_].
  - exists []. by rewrite app_nil_r.
Qed.

Lemma no_stop_app (a b : list event) :
  existsb is_stop_manager a = false -> existsb is_stop_manager b = false ->
  existsb is_stop_manager (a ++ b) = false.
Proof. intros Ha Hb. by rewrite existsb_app, Ha, Hb. Qed.

(** Whatever the fuel, a probe loop that ends has touched no file and no
    storage and has stopped nothing. *)
Lemma ping_loop_events ctx (fuel : nat) : forall b w b' w',
  ping_loop env fuel ctx b w = Some (b', w') ->
  same_objects w w' /\
  exists evs, trace w' = trace w ++ evs /\
              existsb is_stop_manager evs = false.
Proof.
  induction fuel as [|fuel IH]; intros b w b' w'; simpl; [done|].
  destruct (Ongoing ctx b w).
  - unfold kafka_Ping. destruct (Ping_err env (numRetries b)) as [e|]; simpl.
    + set (w1 := log Warn _ _).
      pose proof (same_objects_Wait ctx b w1) as Hso.
      destruct (Wait_trace ctx b w1) as (ew & Htw & Hnw).
      destruct (Wait env ctx b w1) as [b2 w2]. simpl in *. intros Hl.
      apply IH in Hl as (Hso' & evs & Ht & Hn). split.
      * eapply same_objects_trans; [|exact Hso'].
        eapply same_objects_trans; [|exact Hso]. by repeat split.
      * eexists (_ :: _ :: ew ++ evs). split.
        { rewrite Ht, Htw. subst w1. simpl. by rewrite <- !app_assoc. }
        simpl. by apply no_stop_app.
    + intros [= <- <-]. split; [by repeat split|]. by eexists [_].
  - intros [= <- <-]. split; [apply same_objects_refl|].
    exists []. by rewrite app_nil_r.
Qed.

Lemma starting_cleanup_cases (fuel : nat) (ctx : Context) (g : Generator)
    (w : World) (err : option error) (g' : Generator) (w' : World) :
  starting env fuel ctx g w = Some (err, g', w') ->
  exists evs,
    trace w' = trace w ++ evs /\
    (if bool_decide (err = None) || bool_decide (subservices g' = None)
     then existsb is_stop_manager evs = false
     else exists pre, evs = pre ++ deferred_stop_events env /\
                      existsb is_stop_manager pre = false).
Proof.
  unfold starting, starting_ring, call.
  destruct (negb (DisableGRPC (Generator.cfg g))) eqn:Hgrpc.
  - destruct (NewManager_err env) as [e|]; simpl.
    { intros [= <- <- <-]. simpl. by eexists [_]. }
    destruct (StartManager_err env) as [e|]; simpl.
    { intros [= <- <- <-]. simpl. unfold call, deferred_stop_events.
      destruct (StopManager_err env); simpl; eexists;
        (split; [rewrite <- !app_assoc; reflexivity|]).
      all: by eexists [_; _]. }
    unfold starting_ingest. simpl.
    destruct (Enabled (Ingest (Generator.cfg g))).
    2:{ intros [= <- <- <-]. simpl. eexists. rewrite <- app_assoc.
        split; [reflexivity|]. done. }
    unfold call. destruct (NewGroupReaderClient_err env) as [e|]; simpl.
    { intros [= <- <- <-]. simpl. unfold call, deferred_stop_events.
      destruct (StopManager_err env); simpl; eexists;
        (split; [rewrite <- !app_assoc; reflexivity|]).
      all: by eexists [_; _; _]. }
    destruct (ping_loop env fuel ctx _ _) as [[b1 w1]|] eqn:Hl; [|done].
    apply ping_loop_events in Hl as (_ & evs & Ht & Hn). simpl in Ht.
    destruct (ErrCause ctx b1 w1) as [e|]; intros [= <- <- <-]; simpl.
    + unfold call, deferred_stop_events.
      destruct (StopManager_err env); simpl; rewrite Ht; eexists;
        (split; [rewrite <- !app_assoc; reflexivity|]).
      all: exists ([EvCall "services.NewManager" true;
               EvCall "services.StartManagerAndAwaitHealthy" true;
               EvCall "ingest.NewGroupReaderClient" true] ++ evs).
      all: split; [by rewrite <- !app_assoc|by apply no_stop_app].
    + rewrite Ht. eexists. split; [rewrite <- !app_assoc; reflexivity|].
      simpl. apply no_stop_app; [done|]. done.
  - simpl. unfold starting_ingest.
    destruct (Enabled (Ingest (Generator.cfg g))).
    2:{ intros [= <- <- <-]. simpl. exists []. by rewrite app_nil_r. }
    unfold call. destruct (NewGroupReaderClient_err env) as [e|]; simpl.
    { intros [= <- <- <-]. simpl. unfold starting_deferred, call.
      simpl. unfold deferred_stop_events.
      destruct (subservices g); simpl.
      - destruct (StopManager_err env); simpl; eexists;
          (split; [rewrite <- !app_assoc; reflexivity|]).
        all: by eexists [_].
      - by eexists [_]. }
    destruct (ping_loop env fuel ctx _ _) as [[b1 w1]|] eqn:Hl; [|done].
    apply ping_loop_events in Hl as (_ & evs & Ht & Hn). simpl in Ht.
    destruct (ErrCause ctx b1 w1) as [e|]; intros [= <- <- <-]; simpl.
    + unfold starting_deferred, call, deferred_stop_events. simpl.
      destruct (subservices g); simpl.
      * destruct (StopManager_err env); simpl; rewrite Ht; eexists;
          (split; [rewrite <- !app_assoc; reflexivity|]).
        all: exists ([EvCall "ingest.NewGroupReaderClient" true] ++ evs).
        all: split; [by rewrite <- !app_assoc|by apply no_stop_app].
      * rewrite Ht. eexists. split; [rewrite <- !app_assoc; reflexivity|].
        by apply no_stop_app.
    + rewrite Ht. eexists. split; [rewrite <- !app_assoc; reflexivity|].
      simpl. apply no_stop_app; [done|]. done.
Qed.

(** X18.  [starting] cleans up after itself.  When it fails with the
    ring subservices created, the last thing it did was to stop them,
    waiting for the stop and logging its failure; when it fails without
    subservices, or succeeds, it stopped nothing. *)
Theorem starting_manager_cleanup (fuel : nat) (ctx : Context) (g : Generator)
    (w : World) (err : option error) (g' : Generator) (w' : World) :
  starting env fuel ctx g w = Some (err, g', w') ->
  exists evs,
    trace w' = trace w ++ evs /\
    (err = None -> existsb is_stop_manager evs = false) /\
    (subservices g' = None -> existsb is_stop_manager evs = false) /\
    (is_Some err -> is_Some (subservices g') ->
     exists pre, evs = pre ++ deferred_stop_events env /\
                 existsb is_stop_manager pre = false).
Proof.
  intros Hs. apply starting_cleanup_cases in Hs as (evs & Ht & Hc).
  exists evs. split; [exact Ht|].
  destruct err as [e|], (subservices g') as [m|]; simpl in Hc.
  - split; [done|]. split; [done|]. by intros _ _.
  - split; [done|]. split; [done|]. intros _ Hs. by apply is_Some_None in Hs.
  - split; [done|]. split; [done|]. intros Hs. by apply is_Some_None in Hs.
  - split; [done|]. split; [done|]. intros Hs. by apply is_Some_None in Hs.
Qed.

Lemma starting_deferred_same err g w :
  same_objects w (starting_deferred env err g w).
Proof.
  unfold starting_deferred, call.
  destruct err; [|apply same_objects_refl].
  destruct (subservices g); [|apply same_objects_refl].
  destruct (StopManager_err env); by repeat split.
Qed.

Lemma starting_ring_frame g w err g1 w1 :
  starting_ring env g w = (err, g1, w1) ->
  same_objects w w1 /\
  instances g1 = instances g /\ readOnly g1 = readOnly g /\
  reg g1 = reg g /\ Generator.cfg g1 = Generator.cfg g /\
  (err = None -> DisableGRPC (Generator.cfg g) = false ->
   is_Some (subservices g1)).
Proof.
  unfold starting_ring, call.
  destruct (DisableGRPC (Generator.cfg g)); simpl.
  { intros [= <- <- <-]. split; [apply same_objects_refl|]. by repeat split. }
  destruct (NewManager_err env); simpl.
  { intros [= <- <- <-]. split; [apply same_objects_emit|]. by repeat split. }
  destruct (StartManager_err env); intros [= <- <- <-]; simpl.
  all: split; [by repeat split|]; repeat split; try done.
Qed.

Lemma starting_ingest_frame fuel ctx g w err g1 w1 :
  starting_ingest env fuel ctx g w = Some (err, g1, w1) ->
  same_objects w w1 /\
  instances g1 = instances g /\ readOnly g1 = readOnly g /\
  reg g1 = reg g /\ Generator.cfg g1 = Generator.cfg g /\
  subservices g1 = subservices g /\
  (err = None -> Enabled (Ingest (Generator.cfg g)) = true ->
   kafkaClient g1 = true /\ kafkaAdm g1 = true /\ partitionClient g1 = true).
Proof.
  unfold starting_ingest, call.
  destruct (Enabled (Ingest (Generator.cfg g))).
  2:{ intros [= <- <- <-]. split; [apply same_objects_refl|]. by repeat split. }
  destruct (NewGroupReaderClient_err env) as [e|]; simpl.
  { intros [= <- <- <-]. split; [apply same_objects_emit|]. by repeat split. }
  destruct (ping_loop env fuel ctx _ _) as [[b1 w2]|] eqn:Hl; [|done].
  apply ping_loop_events in Hl as (Hso & _).
  destruct (ErrCause ctx b1 w2) as [e|]; intros [= <- <- <-]; simpl.
  - split; [|by repeat split].
    eapply same_objects_trans; [|exact Hso]. apply same_objects_emit.
  - split; [|by repeat split].
    eapply same_objects_trans; [apply same_objects_emit|].
    eapply same_objects_trans; [exact Hso|]. by repeat split.
Qed.

(** X19.  [starting] keeps away from the tenants: whatever its outcome
    and however long it probes, the files, the storages, the registry, the
    read-only flag and the configuration are as before.  When it succeeds,
    the generator is wired as configured: with the ring enabled the
    subservices are there, and with the streaming source enabled so are
    the Kafka client and the two clients built on it. *)
Theorem starting_frame (fuel : nat) (ctx : Context) (g : Generator)
    (w : World) (err : option error) (g' : Generator) (w' : World) :
  starting env fuel ctx g w = Some (err, g', w') ->
  same_objects w w' /\
  instances g' = instances g /\ readOnly g' = readOnly g /\
  reg g' = reg g /\ Generator.cfg g' = Generator.cfg g /\
  (err = None ->
   (DisableGRPC (Generator.cfg g) = false -> is_Some (subservices g')) /\
   (Enabled (Ingest (Generator.cfg g)) = true ->
    kafkaClient g' = true /\ kafkaAdm g' = true /\ partitionClient g' = true)).
Proof.
  unfold starting.
  destruct (starting_ring env g w) as [[e1 g1] w1] eqn:Hr.
  apply starting_ring_frame in Hr as (Hso1 & Hi1 & Hro1 & Hreg1 & Hcfg1 & Hsub1).
  destruct e1 as [e1|].
  - intros [= <- <- <-]. split; [|by repeat split].
    eapply same_objects_trans;
      [exact Hso1|exact (starting_deferred_same (Some e1) g1 w1)].
  - destruct (starting_ingest env fuel ctx g1 w1) as [[[e2 g2] w2]|] eqn:Hi;
      [|done].
    apply starting_ingest_frame in Hi
      as (Hso2 & Hi2 & Hro2 & Hreg2 & Hcfg2 & Hsub2 & Hk).
    intros [= <- <- <-]. split.
    { eapply same_objects_trans; [exact Hso1|].
      eapply same_objects_trans;
        [exact Hso2|exact (starting_deferred_same e2 g2 w2)]. }
    split; [congruence|]. split; [congruence|]. split; [congruence|].
    split; [congruence|]. intros ->. split.
    + intros Hg. rewrite Hsub2. by apply Hsub1.
    + intros Hen. apply Hk; [done|]. by rewrite Hcfg1.
Qed.

(** X20.  A context that is already cancelled when the probe loop is
    reached makes [starting] fail without a single probe: once the ring
    part has gone through and the Kafka client is made, the loop is not
    entered, the cause reported is the cancellation, and the two auxiliary
    clients are not built. *)
Theorem starting_cancelled (fuel : nat) (ctx : Context) (g : Generator)
    (w : World) (t : Z) :
  (0 < fuel)%nat ->
  Enabled (Ingest (Generator.cfg g)) = true ->
  cancelled_at ctx = Some t -> t <= now w ->
  (DisableGRPC (Generator.cfg g) = false ->
   NewManager_err env = None /\ StartManager_err env = None) ->
  NewGroupReaderClient_err env = None ->
  exists g' w' evs,
    starting env fuel ctx g w
    = Some (Some (ErrWrap "failed to ping kafka" (ErrOther "context canceled")),
            g', w') /\
    trace w' = trace w ++ evs /\ count_pings evs = 0%nat /\
    kafkaClient g' = true /\
    kafkaAdm g' = kafkaAdm g /\ partitionClient g' = partitionClient g.
Proof.
  intros Hfuel Hen Hc Ht Hring Hngr.
  destruct fuel as [|fuel]; [lia|].
  assert (Herr : forall w0, now w0 = now w -> ctx_Err ctx w0 = true).
  { intros w0 Hw0. unfold ctx_Err. rewrite Hc, Hw0. by apply bool_decide_eq_true. }
  unfold starting, starting_ring, call.
  destruct (DisableGRPC (Generator.cfg g)) eqn:Hgrpc; simpl.
  - unfold starting_ingest. rewrite Hen. unfold call. rewrite Hngr. simpl.
    unfold Ongoing. rewrite Herr by done. simpl.
    unfold ErrCause. rewrite Herr by done.
    unfold starting_deferred, call. simpl.
    destruct (subservices g); [destruct (StopManager_err env)|]; simpl.
    all: eexists _, _, _; split; [reflexivity|]; simpl.
    all: split; [rewrite <- ?app_assoc; reflexivity|]. all: done.
  - destruct (Hring eq_refl) as [-> ->]. simpl.
    unfold starting_ingest. simpl. rewrite Hen. unfold call. rewrite Hngr. simpl.
    unfold Ongoing. rewrite Herr by done. simpl.
    unfold ErrCause. rewrite Herr by done.
    unfold starting_deferred, call. simpl.
    destruct (StopManager_err env); simpl.
    all: eexists _, _, _; split; [reflexivity|]; simpl.
    all: split; [rewrite <- ?app_assoc; reflexivity|]. all: done.
Qed.

End StartingCleanup.

(** ** More on shutdown *)

Section StoppingWaits.
Import Storage Generator Claims Invariants.
Local Set Warnings "-clear-no-such-hyp".
Variable env : GEnv.
Variable order : list string.
Variable g : Generator.
Variable w : World.
Hypothesis order_registry : forall id, id ∈ order -> id ∈ dom (instances g).

(** A shutdown is counted as ended only by the step that ends it. *)
Lemma finished_by_end sched : forall c c' id,
  run env order sched c = Some c' ->
  id ∈ finished c' -> id ∈ finished c \/ RunEnd id ∈ sched.
Proof.
  induction sched as [|ch sched IH]; intros c c' id; simpl.
  - intros [= <-]. by left.
  - destruct (step env order ch c) as [c1|] eqn:Hstep; [|done].
    intros Hrun Hid. destruct (IH c1 c' id Hrun Hid) as [Hin|Hin].
    2:{ right. apply elem_of_cons. by right. }
    destruct ch as [|x|x]; simpl in Hstep.
    + left. unfold step_main in Hstep. destruct (main c).
      * destruct (subservices (gen c)).
        -- unfold call in Hstep. by injection Hstep as <-.
        -- by injection Hstep as <-.
      * by injection Hstep as <-.
      * by injection Hstep as <-.
      * destruct (Enabled _); by injection Hstep as <-.
      * by injection Hstep as <-.
      * destruct rest; by injection Hstep as <-.
      * destruct (wg c =? 0); [|done]. by injection Hstep as <-.
      * done.
    + left. unfold step_begin in Hstep. destruct (decide _); [|done].
      by injection Hstep as <-.
    + unfold step_end in Hstep. destruct (decide _); [|done].
      destruct (instances (gen c) !! x); [|done].
      injection Hstep as <-. simpl in Hin.
      apply elem_of_union in Hin as [Hin|Hin]; [|by left].
      apply elem_of_singleton in Hin as ->. right. apply elem_of_cons. by left.
Qed.

(** X21.  [wg.Wait()] holds [stopping] back exactly as long as a
    shutdown is outstanding.  A schedule in which the shutdown of some
    tenant of the registry never ends (its flush stalls) never lets
    [stopping] return.  And whenever [stopping] is at its wait, the counter
    of the WaitGroup is the number of tenants whose shutdown has not ended,
    and [stopping] can go on if and only if every one of them has ended. *)
Theorem stopping_waits_for_shutdowns (sched : list choice) :
  (forall id, id ∈ dom (instances g) -> RunEnd id ∉ sched ->
     stopping env order sched g w = None) /\
  (forall c, run env order sched (stopping_init g w) = Some c ->
     main c = PcWait ->
     wg c = Z.of_nat (size (dom (instances g) ∖ finished c)) /\
     (is_Some (step_main env order c) <-> finished c = dom (instances g))).
Proof.
  split.
  - intros id Hid Hend. unfold stopping.
    destruct (run env order sched (stopping_init g w)) as [c|] eqn:Hrun; [|done].
    destruct (main c) eqn:Hpc; try done. exfalso.
    pose proof (stop_inv_run env order g w order_registry _ _ _
                  (stop_inv_init env g w) Hrun) as Hinv.
    pose proof (inv_returned _ _ _ _ Hinv Hpc) as Hfin.
    destruct (finished_by_end sched _ _ id Hrun) as [Hin|Hin].
    + by rewrite Hfin.
    + simpl in Hin. by apply not_elem_of_empty in Hin.
    + done.
  - intros c Hrun Hpc.
    pose proof (stop_inv_run env order g w order_registry _ _ _
                  (stop_inv_init env g w) Hrun) as Hinv.
    assert (Hsub : finished c ⊆ dom (instances g)).
    { etrans; [apply (inv_finished _ _ _ _ Hinv)|].
      etrans; [apply (inv_begun _ _ _ _ Hinv)|apply (inv_dom _ _ _ _ Hinv)]. }
    pose proof (inv_wg _ _ _ _ Hinv) as Hwg. rewrite Hpc in Hwg. simpl in Hwg.
    pose proof (subseteq_size _ _ Hsub) as Hle.
    pose proof (size_difference _ _ Hsub) as Hdiff.
    rewrite <- size_dom in Hwg.
    split; [lia|].
    unfold step_main. rewrite Hpc. split.
    + destruct (Z.eqb_spec (wg c) 0) as [Hz|]; [|by intros [? ?]]. intros _.
      apply set_subseteq_size_eq; [done|lia].
    + intros Hfin. rewrite Hfin in Hwg.
      destruct (Z.eqb_spec (wg c) 0) as [Hz|Hnz]; [by eexists|lia].
Qed.

End StoppingWaits.

Section StoppingClosesStorages.
Import Storage Generator Claims Invariants.
Local Set Warnings "-clear-no-such-hyp".
Variable env : GEnv.

Lemma closes_mono_refl w : closes_mono w w.
Proof.
  split; [|split; [|split]].
  - intros h s Hs. by exists s.
  - done.
  - intros h d Hd. by exists d.
  - intros h r Hr. by exists r.
Qed.

Lemma closes_mono_trans w1 w2 w3 :
  closes_mono w1 w2 -> closes_mono w2 w3 -> closes_mono w1 w3.
Proof.
  intros (S1 & N1 & W1 & R1) (S2 & N2 & W2 & R2). split; [|split; [|split]].
  - intros h s Hs. destruct (S1 h s Hs) as (s' & Hs' & ? & ? & ?).
    destruct (S2 h s' Hs') as (s'' & Hs'' & ? & ? & ?).
    exists s''. split; [done|]. split; [congruence|]. split; [congruence|auto].
  - auto.
  - intros h d Hd. destruct (W1 h d Hd) as (d' & Hd' & ?).
    destruct (W2 h d' Hd') as (d'' & Hd'' & ?). exists d''. auto.
  - intros h r Hr. destruct (R1 h r Hr) as (r' & Hr' & ?).
    destruct (R2 h r' Hr') as (r'' & Hr'' & ?). exists r''. auto.
Qed.

Lemma closes_mono_same w w' : same_objects w w' -> closes_mono w w'.
Proof.
  intros (_ & Hr & Hw & Hs). unfold closes_mono. rewrite Hr, Hw, Hs.
  apply closes_mono_refl.
Qed.

Lemma closed_wf_same w w' : same_objects w w' -> closed_wf w -> closed_wf w'.
Proof.
  intros (_ & Hr & Hw & Hs). unfold closed_wf. by rewrite Hr, Hw, Hs.
Qed.

(** What [Close] does to the objects: nothing is lost or reopened, the
    storage it is called on has its channel closed afterwards, and every
    storage with a closed channel still has its WAL and its remote-write
    storage closed. *)
Lemma Close_closes (e : Env) h w :
  closes_mono w (Storage.Close e h w).2 /\
  (closed_wf w -> closed_wf (Storage.Close e h w).2) /\
  (forall s', storages (Storage.Close e h w).2 !! h = Some s' ->
              closeCh s' = true).
Proof.
  destruct (storages w !! h) as [s|] eqn:Hs.
  2:{ unfold Storage.Close. rewrite Hs. simpl.
      split; [apply closes_mono_refl|]. split; [done|]. intros s'. by rewrite Hs. }
  destruct (closeCh s) eqn:Hc.
  { unfold Storage.Close. rewrite Hs, Hc. simpl.
    split; [apply closes_mono_same; by repeat split|].
    split; [apply closed_wf_same; by repeat split|].
    intros s'. rewrite Hs. by intros [= <-]. }
  destruct (Close_open e h w s Hs Hc) as (w' & -> & _ & Hst & Hw & Hr & _).
  simpl. split; [|split].
  - split; [|split; [|split]].
    + intros h0 s0 Hs0. rewrite Hst. destruct (decide (h0 = h)) as [->|Hne].
      * rewrite lookup_insert_eq. eexists. split; [done|].
        rewrite Hs in Hs0. injection Hs0 as <-. by repeat split.
      * rewrite lookup_insert_ne by done. by exists s0.
    + intros h0 Hs0. rewrite Hst. destruct (decide (h0 = h)) as [->|Hne].
      * by rewrite Hs in Hs0.
      * by rewrite lookup_insert_ne.
    + intros h0 d Hd. rewrite Hw.
      destruct (decide (h0 = primary (storage s))) as [->|Hne].
      * rewrite lookup_alter_eq, Hd. simpl. by eexists.
      * rewrite lookup_alter_ne by done. by exists d.
    + intros h0 r Hr0. rewrite Hr.
      destruct (decide (h0 = secondary (storage s))) as [->|Hne].
      * rewrite lookup_alter_eq, Hr0. simpl. by eexists.
      * rewrite lookup_alter_ne by done. by exists r.
  - intros Hwf h0 s0. rewrite Hst, Hw, Hr.
    destruct (decide (h0 = h)) as [->|Hne].
    + rewrite lookup_insert_eq. intros [= <-] _. simpl. split.
      * intros d. rewrite lookup_alter_eq.
        destruct (wals w !! primary (storage s)); simpl; [|done].
        by intros [= <-].
      * intros r. rewrite lookup_alter_eq.
        destruct (remotes w !! secondary (storage s)); simpl; [|done].
        by intros [= <-].
    + rewrite lookup_insert_ne by done. intros Hs0 Hc0.
      destruct (Hwf h0 s0 Hs0 Hc0) as [Hd Hr0]. split.
      * intros d.
        destruct (decide (primary (storage s0) = primary (storage s))) as [Heq|Hneq].
        -- rewrite Heq, lookup_alter_eq.
           destruct (wals w !! primary (storage s)); simpl; [|done].
           by intros [= <-].
        -- rewrite lookup_alter_ne by done. apply Hd.
      * intros r.
        destruct (decide (secondary (storage s0) = secondary (storage s)))
          as [Heq|Hneq].
        -- rewrite Heq, lookup_alter_eq.
           destruct (remotes w !! secondary (storage s)); simpl; [|done].
           by intros [= <-].
        -- rewrite lookup_alter_ne by done. apply Hr0.
  - intros s'. rewrite Hst, lookup_insert_eq. by intros [= <-].
Qed.

Lemma shutdown_body_closes inst w :
  closes_mono w (shutdown_body env inst w) /\
  (closed_wf w -> closed_wf (shutdown_body env inst w)) /\
  (forall s', storages (shutdown_body env inst w) !! wal inst = Some s' ->
              closeCh s' = true).
Proof.
  unfold shutdown_body.
  set (w0 := emit (EvCall "instance.flush" true) w).
  destruct (Close_closes (sys env) (wal inst) w0) as (Hm & Hwf & Hc).
  destruct (Storage.Close (sys env) (wal inst) w0) as [err w1]. simpl in *.
  assert (Hso : same_objects w1
            (emit (EvCall "instance.deregister" true)
               match err with
               | Some _ => log Error "closing wal failed" w1
               | None => w1
               end)).
  { destruct err; by repeat split. }
  split; [|split].
  - eapply closes_mono_trans; [|apply closes_mono_same, Hso].
    eapply closes_mono_trans; [|exact Hm].
    apply closes_mono_same. by repeat split.
  - intros H. eapply closed_wf_same; [exact Hso|]. apply Hwf.
    eapply closed_wf_same; [|exact H]. by repeat split.
  - intros s' Hs'. apply Hc. destruct err; exact Hs'.
Qed.

Lemma step_closes (order : list string) (g : Generator) (w : World) ch c c' :
  instances (gen c) = instances g ->
  step env order ch c = Some c' ->
  closes_mono (world c) (world c') /\
  (closed_wf (world c) -> closed_wf (world c')) /\
  (shut_inv g c -> shut_inv g c').
Proof.
  intros Hi.
  assert (Hsame : forall c1, same_objects (world c) (world c1) ->
            finished c1 = finished c ->
            closes_mono (world c) (world c1) /\
            (closed_wf (world c) -> closed_wf (world c1)) /\
            (shut_inv g c -> shut_inv g c1)).
  { intros c1 Hso Hf. split; [by apply closes_mono_same|].
    split; [by apply closed_wf_same|].
    unfold shut_inv. rewrite Hf. destruct Hso as (_ & _ & _ & ->). done. }
  destruct ch as [|id|id]; simpl.
  - unfold step_main. destruct (main c).
    + destruct (subservices (gen c)).
      * unfold call. destruct (StopManager_err env); intros [= <-];
          apply Hsame; simpl; by repeat split.
      * intros [= <-]. apply Hsame; simpl; by repeat split.
    + intros [= <-]. apply Hsame; simpl; by repeat split.
    + intros [= <-]. apply Hsame; simpl; by repeat split.
    + destruct (Enabled _); intros [= <-]; apply Hsame; simpl; by repeat split.
    + intros [= <-]. apply Hsame; simpl; by repeat split.
    + destruct rest; intros [= <-]; apply Hsame; simpl; by repeat split.
    + destruct (wg c =? 0); [|done]. intros [= <-].
      apply Hsame; simpl; by repeat split.
    + done.
  - unfold step_begin. destruct (decide _); [|done]. intros [= <-].
    apply Hsame; simpl; by repeat split.
  - unfold step_end. destruct (decide _); [|done].
    destruct (instances (gen c) !! id) as [inst|] eqn:Hinst; [|done].
    intros [= <-]. simpl.
    destruct (shutdown_body_closes inst (world c)) as (Hm & Hwf & Hc).
    assert (Hso : same_objects (shutdown_body env inst (world c))
                    (emit (EvShutdownEnd id) (shutdown_body env inst (world c))))
      by (by repeat split).
    split; [|split].
    + eapply closes_mono_trans; [exact Hm|by apply closes_mono_same].
    + intros H. eapply closed_wf_same; [exact Hso|by apply Hwf].
    + intros Hsh x i s [->%elem_of_singleton|Hx]%elem_of_union Hxi; simpl.
      * rewrite Hi in Hinst. rewrite Hinst in Hxi. injection Hxi as <-.
        apply Hc.
      * intros Hs. destruct Hm as (Hm & Hm').
        destruct (storages (world c) !! wal i) as [s0|] eqn:Hs0.
        -- destruct (Hm _ _ Hs0) as (s' & Hs' & _ & _ & Hmono).
           rewrite Hs in Hs'. injection Hs' as <-. apply Hmono.
           by apply (Hsh x i s0).
        -- destruct Hm' as (Hn & _). apply Hn in Hs0.
           by rewrite Hs0 in Hs.
Qed.

Lemma run_closes (order : list string) (g : Generator) (w : World) sched :
  (forall id, id ∈ order -> id ∈ dom (instances g)) ->
  forall c c',
  stop_inv env g w c ->
  run env order sched c = Some c' ->
  closes_mono (world c) (world c') /\
  (closed_wf (world c) -> closed_wf (world c')) /\
  (shut_inv g c -> shut_inv g c').
Proof.
  intros Hord. induction sched as [|ch sched IH]; intros c c' Hinv; simpl.
  - intros [= <-]. split; [apply closes_mono_refl|]. by split.
  - destruct (step env order ch c) as [c1|] eqn:Hstep; [|done]. intros Hrun.
    destruct (step_closes order g w ch c c1 (inv_instances _ _ _ _ Hinv) Hstep)
      as (H1 & H2 & H3).
    assert (Hinv1 : stop_inv env g w c1).
    { apply (stop_inv_run env order g w Hord [ch] c c1 Hinv). simpl.
      by rewrite Hstep. }
    destruct (IH c1 c' Hinv1 Hrun) as (H4 & H5 & H6).
    split; [by eapply closes_mono_trans|]. split; auto.
Qed.

(** X22.  When [stopping] has returned, the storage of every tenant of
    the registry is closed: its channel is closed, so that its poll task
    ends, and its WAL and its remote-write storage are closed. *)
Theorem stopping_closes_storages (order : list string) (sched : list choice)
    (g : Generator) (w : World) (g' : Generator) (w' : World) :
  (forall id, id ∈ order -> id ∈ dom (instances g)) ->
  closed_wf w ->
  stopping env order sched g w = Some (g', w') ->
  forall id inst s,
    instances g !! id = Some inst ->
    storages w !! wal inst = Some s ->
    exists s',
      storages w' !! wal inst = Some s' /\ closeCh s' = true /\
      (forall d, wals w' !! primary (storage s') = Some d -> db_closed d = true) /\
      (forall r, remotes w' !! secondary (storage s') = Some r ->
                 rs_closed r = true).
Proof.
  intros Hord Hwf. unfold stopping.
  destruct (run env order sched (stopping_init g w)) as [c|] eqn:Hrun; [|done].
  destruct (main c) eqn:Hpc; try done. intros [= <- <-] id inst s Hi Hs.
  pose proof (stop_inv_run env order g w Hord _ _ _ (stop_inv_init env g w) Hrun)
    as Hinv.
  destruct (run_closes order g w sched Hord _ _ (stop_inv_init env g w) Hrun)
    as ((Hm & _) & Hwf' & Hsh). simpl in *.
  destruct (Hm _ _ Hs) as (s' & Hs' & _ & _ & _).
  assert (Hc : closeCh s' = true).
  { apply (Hsh (fun _ _ _ Hx => False_ind _ (not_elem_of_empty _ Hx)) id inst s');
      [|done|done].
    rewrite (inv_returned _ _ _ _ Hinv Hpc). apply elem_of_dom. by eexists. }
  exists s'. split; [done|]. split; [done|]. by apply (Hwf' Hwf _ _ Hs').
Qed.

(** X23.  After [stopping] the generator is closed for pushes but not
    emptied: every push is refused with [ErrReadOnly], while the registry
    still holds the instances that were shut down; [stopping] deletes
    none of them. *)
Theorem stopping_leaves_registry (order : list string) (sched : list choice)
    (g : Generator) (w : World) (g' : Generator) (w' : World) :
  (forall id, id ∈ order -> id ∈ dom (instances g)) ->
  stopping env order sched g w = Some (g', w') ->
  instances g' = instances g /\
  (forall ctx req w'', PushSpans env ctx req g' w'' = (Err ErrReadOnly, g', w'')).
Proof.
  intros Hord. unfold stopping.
  destruct (run env order sched (stopping_init g w)) as [c|] eqn:Hrun; [|done].
  destruct (main c) eqn:Hpc; try done. intros [= <- <-].
  pose proof (stop_inv_run env order g w Hord _ _ _ (stop_inv_init env g w) Hrun)
    as Hinv.
  pose proof (inv_instances _ _ _ _ Hinv) as Hi.
  assert (Hro : readOnly (gen c) = true).
  { apply (inv_readOnly _ _ _ _ Hinv). by rewrite Hpc. }
  split; [done|].
  intros ctx req w''. unfold PushSpans. by rewrite Hro.
Qed.

End StoppingClosesStorages.

Section StoppingRemovesWALs.
Import Storage Generator Claims Invariants.
Local Set Warnings "-clear-no-such-hyp".
Variable env : GEnv.

Lemma removal_rel_init (e : Env) w : removal_rel e w w.
Proof.
  exists []. split; [by rewrite app_nil_r|].
  intros h s s' Hs Hc Hs' Hc'. rewrite Hs in Hs'. congruence.
Qed.

(** Events that touch no object add nothing to be accounted for. *)
Lemma removal_rel_same (e : Env) w w1 w2 evs1 :
  same_objects w1 w2 -> trace w2 = trace w1 ++ evs1 ->
  removal_rel e w w1 -> removal_rel e w w2.
Proof.
  intros (_ & _ & _ & Hs) Htr (evs & Hevs & Hrel).
  exists (evs ++ evs1). split; [by rewrite Htr, Hevs, app_assoc|].
  intros h s s' Hs0 Hc0 Hs' Hc'. rewrite Hs in Hs'.
  destruct (Hrel h s s' Hs0 Hc0 Hs' Hc') as (pre & post & -> & Hin).
  exists pre, (post ++ evs1). split; [by rewrite <- app_assoc|].
  apply elem_of_app. by left.
Qed.

Lemma Close_removal (e : Env) w wc h :
  closes_mono w wc -> removal_rel e w wc ->
  removal_rel e w (Storage.Close e h wc).2.
Proof.
  intros (Hm & _) Hrel.
  destruct (storages wc !! h) as [s|] eqn:Hs.
  2:{ unfold Storage.Close. by rewrite Hs. }
  destruct (closeCh s) eqn:Hc.
  { unfold Storage.Close. rewrite Hs, Hc. simpl.
    eapply (removal_rel_same e w wc _
              [EvLog Info "closing WAL"; EvPanic "close of closed channel"]);
      [by repeat split| |exact Hrel].
    simpl. by rewrite <- app_assoc. }
  destruct (Close_open e h wc s Hs Hc) as (w' & -> & Htr & Hst & _).
  simpl. destruct Hrel as (evs & Hevs & Hrel).
  eexists. split; [rewrite Htr, Hevs, <- app_assoc; reflexivity|].
  intros h0 s0 s' Hs0 Hc0. rewrite Hst.
  destruct (decide (h0 = h)) as [->|Hne].
  - rewrite lookup_insert_eq. intros _ _.
    destruct (Hm _ _ Hs0) as (s1 & Hs1 & _ & Hdir & _).
    rewrite Hs in Hs1. injection Hs1 as <-. rewrite Hdir.
    exists (evs ++ [EvLog Info "closing WAL"]), 
      [EvWalClose (primary (storage s)); EvRemoteClose (secondary (storage s));
       EvRemoveAll (walDir s0) (bool_decide (RemoveAll_err e (walDir s0) = None))].
    split; [by rewrite <- app_assoc|]. set_solver.
  - rewrite lookup_insert_ne by done. intros Hs' Hc'.
    destruct (Hrel h0 s0 s' Hs0 Hc0 Hs' Hc') as (pre & post & -> & Hin).
    eexists pre, (post ++ _). split; [by rewrite <- app_assoc|].
    apply elem_of_app. by left.
Qed.

Lemma shutdown_body_removal w wc inst :
  closes_mono w wc -> removal_rel (sys env) w wc ->
  removal_rel (sys env) w (shutdown_body env inst wc).
Proof.
  intros Hm Hrel. unfold shutdown_body.
  set (w0 := emit (EvCall "instance.flush" true) wc).
  assert (Hm0 : closes_mono w w0).
  { eapply closes_mono_trans; [exact Hm|]. apply closes_mono_same.
    by repeat split. }
  assert (Hrel0 : removal_rel (sys env) w w0).
  { eapply (removal_rel_same _ w wc w0 [_]); [by repeat split|done|exact Hrel]. }
  pose proof (Close_removal (sys env) w w0 (wal inst) Hm0 Hrel0) as HC.
  destruct (Storage.Close (sys env) (wal inst) w0) as [err w1]. simpl in HC.
  destruct err.
  - eapply (removal_rel_same _ w w1 _ [_; _]); [by repeat split| |exact HC].
    simpl. by rewrite <- app_assoc.
  - eapply (removal_rel_same _ w w1 _ [_]); [by repeat split|done|exact HC].
Qed.

Lemma step_removal (order : list string) (w : World) ch c c' :
  closes_mono w (world c) -> removal_rel (sys env) w (world c) ->
  step env order ch c = Some c' ->
  removal_rel (sys env) w (world c').
Proof.
  intros Hm Hrel.
  assert (Hsame : forall c1 evs1, same_objects (world c) (world c1) ->
            trace (world c1) = trace (world c) ++ evs1 ->
            removal_rel (sys env) w (world c1)).
  { intros c1 evs1 Hso Htr. by eapply removal_rel_same. }
  assert (Hnil : forall c1, world c1 = world c ->
            removal_rel (sys env) w (world c1)).
  { intros c1 ->. exact Hrel. }
  destruct ch as [|id|id]; simpl.
  - unfold step_main. destruct (main c).
    + destruct (subservices (gen c)).
      * unfold call. destruct (StopManager_err env); intros [= <-].
        -- eapply (Hsame _ [_; _]); simpl; [by repeat split|by rewrite <- app_assoc].
        -- eapply (Hsame _ [_]); simpl; [by repeat split|done].
      * intros [= <-]. by apply Hnil.
    + intros [= <-]. eapply (Hsame _ [_]); simpl; [by repeat split|done].
    + intros [= <-]. eapply (Hsame _ [_]); simpl; [by repeat split|done].
    + destruct (Enabled _); intros [= <-].
      * eapply (Hsame _ [_]); simpl; [by repeat split|done].
      * by apply Hnil.
    + intros [= <-]. by apply Hnil.
    + destruct rest; intros [= <-]; by apply Hnil.
    + destruct (wg c =? 0); [|done]. intros [= <-]. by apply Hnil.
    + done.
  - unfold step_begin. destruct (decide _); [|done]. intros [= <-].
    eapply (Hsame _ [_]); simpl; [by repeat split|done].
  - unfold step_end. destruct (decide _); [|done].
    destruct (instances (gen c) !! id) as [inst|] eqn:Hinst; [|done].
    intros [= <-]. simpl.
    eapply (removal_rel_same _ w _ _ [_]);
      [| |by apply (shutdown_body_removal w (world c) inst)].
    + by repeat split.
    + done.
Qed.

Lemma run_removal (order : list string) (g : Generator) (w : World) sched :
  (forall id, id ∈ order -> id ∈ dom (instances g)) ->
  forall c c',
  stop_inv env g w c ->
  closes_mono w (world c) -> removal_rel (sys env) w (world c) ->
  run env order sched c = Some c' ->
  removal_rel (sys env) w (world c').
Proof.
  intros Hord. induction sched as [|ch sched IH]; intros c c' Hinv Hm Hrel; simpl.
  - by intros [= <-].
  - destruct (step env order ch c) as [c1|] eqn:Hstep; [|done].
    apply IH.
    + apply (stop_inv_run env order g w Hord [ch] c c1 Hinv). simpl.
      by rewrite Hstep.
    + eapply closes_mono_trans; [exact Hm|].
      by apply (step_closes env order g w ch c c1 (inv_instances _ _ _ _ Hinv)).
    + by apply (step_removal order w ch c).
Qed.

(** X24.  [stopping] asks for the removal of every WAL: when it has
    returned, the events it added to the trace hold, for every tenant of
    the registry whose storage was open, the close of the channel of that
    storage and, after it, the call of [os.RemoveAll] on its WAL directory,
    marked with whether the call succeeded.  (What is then on the disk is
    not stated: it depends on what else writes there.) *)
Theorem stopping_removes_wal_dirs (order : list string) (sched : list choice)
    (g : Generator) (w : World) (g' : Generator) (w' : World) :
  (forall id, id ∈ order -> id ∈ dom (instances g)) ->
  stopping env order sched g w = Some (g', w') ->
  exists evs,
    trace w' = trace w ++ evs /\
    forall id inst s,
      instances g !! id = Some inst ->
      storages w !! wal inst = Some s -> closeCh s = false ->
      exists pre post,
        evs = pre ++ EvCloseCh (wal inst) :: post /\
        EvRemoveAll (walDir s)
          (bool_decide (RemoveAll_err (sys env) (walDir s) = None)) ∈ post.
Proof.
  intros Hord. unfold stopping.
  destruct (run env order sched (stopping_init g w)) as [c|] eqn:Hrun; [|done].
  destruct (main c) eqn:Hpc; try done.
  intros [= <- <-].
  pose proof (stop_inv_run env order g w Hord _ _ _ (stop_inv_init env g w) Hrun)
    as Hinv.
  destruct (run_closes env order g w sched Hord _ _ (stop_inv_init env g w) Hrun)
    as ((Hm & _) & _ & Hsh). simpl in *.
  destruct (run_removal order g w sched Hord _ _ (stop_inv_init env g w)
              (closes_mono_refl w) (removal_rel_init (sys env) w) Hrun)
    as (evs & Htr & Hrel).
  exists evs. split; [exact Htr|].
  intros id inst s Hi Hs Hc.
  destruct (Hm _ _ Hs) as (s' & Hs' & _ & _ & _).
  assert (Hc' : closeCh s' = true).
  { apply (Hsh (fun _ _ _ Hx => False_ind _ (not_elem_of_empty _ Hx)) id inst s');
      [|done|done].
    rewrite (inv_returned _ _ _ _ Hinv Hpc). apply elem_of_dom. by eexists. }
  by apply (Hrel (wal inst) s s').
Qed.

End StoppingRemovesWALs.

(** ** More on the ring delegate *)

Section RingDistinctTokens.
Import Ring Claims.

(** X25.  Called as the lifecycler calls it, with the entry the ring
    holds for the instance, the register callback returns tokens that are
    pairwise distinct whenever those of the entry are: no new token repeats
    one the instance already has. *)
Theorem OnRingInstanceRegister_NoDup (gen : TokenGenerator) (ringDesc : Desc)
    (id : string) (instanceDesc : InstanceDesc) :
  TokenGenerator_ok gen ->
  Ingesters ringDesc !! id = Some instanceDesc ->
  NoDup (Tokens instanceDesc) ->
  ringNumTokens - Z.of_nat (length (Tokens instanceDesc))
    + Z.of_nat (length (Desc_GetTokens ringDesc)) <= uint32_card ->
  NoDup (OnRingInstanceRegister gen ringDesc true id instanceDesc).2.
Proof.
  intros Hgen Hd Hnd Hroom. unfold OnRingInstanceRegister. simpl.
  unfold InstanceDesc_GetTokens. apply NoDup_app. split; [done|]. split.
  - intros t Ht Hnew.
    apply (GenerateTokens_fresh _ Hgen) in Hnew as [Hnew _]; [|done].
    apply Hnew. by apply (Desc_GetTokens_instance ringDesc id instanceDesc).
  - by apply (GenerateTokens_NoDup _ Hgen).
Qed.

(** Tokens that are not in the ring may come back twice: the generator
    only avoids the tokens of the ring. *)
Lemma OnRingInstanceRegister_repeats :
  ~ NoDup (OnRingInstanceRegister first_fit_tokens (mkDesc ∅) true "self"
             (mkInstanceDesc "10.0.0.1" ACTIVE [0])).2.
Proof.
  intros H. vm_compute in H. apply NoDup_cons in H as [H _].
  apply H. apply list_elem_of_In. simpl. auto.
Qed.

(** X25 at work. *)
Lemma OnRingInstanceRegister_NoDup_witness :
  TokenGenerator_ok first_fit_tokens /\
  Ingesters ring_one_peer !! "peer"
    = Some (mkInstanceDesc "10.0.0.2" ACTIVE [0; 1; 2]) /\
  NoDup [0; 1; 2] /\
  ringNumTokens - 3 + Z.of_nat (length (Desc_GetTokens ring_one_peer))
    <= uint32_card /\
  NoDup (OnRingInstanceRegister first_fit_tokens ring_one_peer true "peer"
           (mkInstanceDesc "10.0.0.2" ACTIVE [0; 1; 2])).2.
Proof.
  assert (Hd : Ingesters ring_one_peer !! "peer"
               = Some (mkInstanceDesc "10.0.0.2" ACTIVE [0; 1; 2]))
    by (vm_compute; reflexivity).
  assert (Hnd : NoDup [0; 1; 2]).
  { refine (bool_decide_unpack _ _). vm_compute. exact I. }
  assert (Hroom : ringNumTokens - 3
                  + Z.of_nat (length (Desc_GetTokens ring_one_peer))
                  <= uint32_card) by (vm_compute; discriminate).
  split; [exact first_fit_ok|]. split; [exact Hd|]. split; [exact Hnd|].
  split; [exact Hroom|].
  exact (OnRingInstanceRegister_NoDup first_fit_tokens ring_one_peer "peer"
           (mkInstanceDesc "10.0.0.2" ACTIVE [0; 1; 2]) first_fit_ok Hd Hnd Hroom).
Defined.

End RingDistinctTokens.

(** ** The further properties at work *)

Section PollAndStartingExamples.
Import Storage Generator Claims Invariants.

(** X5 at work. *)
Lemma watchOverrides_failure_counter_witness :
  storages (world_t env_bad_header) !! h_t = Some s_t /\
  exists evs,
    trace (watchOverrides env_bad_header
             [SelTick ovr_bad; SelTick ovr_bad; SelTick ovr_plain; SelTick ovr_bad]
             h_t (world_t env_bad_header))
    = trace (world_t env_bad_header) ++ evs /\
    count_failed evs = 2%nat /\
    update_failed_total
      (watchOverrides env_bad_header
         [SelTick ovr_bad; SelTick ovr_bad; SelTick ovr_plain; SelTick ovr_bad]
         h_t (world_t env_bad_header)) !! "t" = Some 2%nat.
Proof.
  assert (Hs : storages (world_t env_bad_header) !! h_t = Some s_t)
    by (vm_compute; reflexivity).
  split; [exact Hs|].
  destruct (watchOverrides_failure_counter env_bad_header
              [SelTick ovr_bad; SelTick ovr_bad; SelTick ovr_plain; SelTick ovr_bad]
              h_t (world_t env_bad_header) s_t Hs) as (evs & Ht & Hc & _).
  exists evs. split; [exact Ht|].
  assert (Hu : update_failed_total
      (watchOverrides env_bad_header
         [SelTick ovr_bad; SelTick ovr_bad; SelTick ovr_plain; SelTick ovr_bad]
         h_t (world_t env_bad_header)) !! "t" = Some 2%nat)
    by (vm_compute; reflexivity).
  split; [|exact Hu].
  change (tenantID s_t) with "t" in Hc. rewrite Hu in Hc.
  assert (H0 : update_failed_total (world_t env_bad_header) !! "t" = None)
    by (vm_compute; reflexivity).
  rewrite H0 in Hc. simpl in Hc. lia.
Defined.

(** X7 at work. *)
Lemma cache_is_applied_config_witness :
  (forall c, ApplyConfig_err env_ok c = None) /\
  Storage.New env_ok cfg0 ovr_plain "t" world0 = (Ok h_t, world_t env_ok) /\
  cache_applied (world_t env_ok) h_t /\
  cache_applied
    (watchOverrides env_ok [SelTick ovr_auth; SelTick ovr_plain] h_t
       (world_t env_ok)) h_t.
Proof.
  assert (Hok : forall c, ApplyConfig_err env_ok c = None) by reflexivity.
  assert (HN : Storage.New env_ok cfg0 ovr_plain "t" world0
               = (Ok h_t, world_t env_ok)) by (vm_compute; reflexivity).
  split; [exact Hok|]. split; [exact HN|].
  destruct (cache_is_applied_config env_ok [SelTick ovr_auth; SelTick ovr_plain]
              h_t Hok) as (Hnew & Hloop).
  pose proof (Hnew cfg0 ovr_plain "t" world0 (world_t env_ok) HN) as H1.
  split; [exact H1|]. exact (Hloop (world_t env_ok) H1).
Defined.

(** X18 at work. *)
Lemma starting_manager_cleanup_witness :
  starting genv_kafka_down 11 ctx_bg gen_new world0
    = Some (Some (ErrWrap "failed to ping kafka" (ErrOther "terminated after retries")),
            (default (None, gen_new, world0)
               (starting genv_kafka_down 11 ctx_bg gen_new world0)).1.2,
            (default (None, gen_new, world0)
               (starting genv_kafka_down 11 ctx_bg gen_new world0)).2) /\
  exists pre,
    trace (default (None, gen_new, world0)
             (starting genv_kafka_down 11 ctx_bg gen_new world0)).2
    = trace world0 ++ pre ++ [EvCall "services.StopManagerAndAwaitStopped" true] /\
    existsb is_stop_manager pre = false.
Proof.
  assert (Hs : starting genv_kafka_down 11 ctx_bg gen_new world0
    = Some (Some (ErrWrap "failed to ping kafka" (ErrOther "terminated after retries")),
            (default (None, gen_new, world0)
               (starting genv_kafka_down 11 ctx_bg gen_new world0)).1.2,
            (default (None, gen_new, world0)
               (starting genv_kafka_down 11 ctx_bg gen_new world0)).2))
    by (vm_compute; reflexivity).
  split; [exact Hs|].
  destruct (starting_manager_cleanup genv_kafka_down 11 ctx_bg gen_new world0
              _ _ _ Hs) as (evs & Ht & _ & _ & Hstop).
  destruct Hstop as (pre & -> & Hpre).
  - by eexists.
  - vm_compute. by eexists.
  - exists pre. split; [exact Ht|exact Hpre].
Defined.

(** X19 at work. *)
Lemma starting_frame_witness :
  starting genv_kafka_slow 11 ctx_bg gen_new world_crashed
    = Some (None,
            (default (None, gen_new, world0)
               (starting genv_kafka_slow 11 ctx_bg gen_new world_crashed)).1.2,
            (default (None, gen_new, world0)
               (starting genv_kafka_slow 11 ctx_bg gen_new world_crashed)).2) /\
  fs (default (None, gen_new, world0)
        (starting genv_kafka_slow 11 ctx_bg gen_new world_crashed)).2
  = fs world_crashed /\
  partitionClient
    (default (None, gen_new, world0)
       (starting genv_kafka_slow 11 ctx_bg gen_new world_crashed)).1.2 = true.
Proof.
  assert (Hs : starting genv_kafka_slow 11 ctx_bg gen_new world_crashed
    = Some (None,
            (default (None, gen_new, world0)
               (starting genv_kafka_slow 11 ctx_bg gen_new world_crashed)).1.2,
            (default (None, gen_new, world0)
               (starting genv_kafka_slow 11 ctx_bg gen_new world_crashed)).2))
    by (vm_compute; reflexivity).
  split; [exact Hs|].
  destruct (starting_frame genv_kafka_slow 11 ctx_bg gen_new world_crashed
              _ _ _ Hs) as ((Hfs & _) & _ & _ & _ & _ & Hok).
  split; [exact Hfs|].
  destruct (Hok eq_refl) as (_ & Hk). by destruct (Hk eq_refl) as (_ & _ & ->).
Defined.

(** X20 at work. *)
Lemma starting_cancelled_witness :
  (0 < 11)%nat /\ Enabled (Ingest (Generator.cfg gen_new)) = true /\
  cancelled_at (mkContext None (Some 0)) = Some 0 /\ 0 <= now world0 /\
  exists g' w' evs,
    starting (genv env_ok) 11 (mkContext None (Some 0)) gen_new world0
    = Some (Some (ErrWrap "failed to ping kafka" (ErrOther "context canceled")),
            g', w') /\
    trace w' = trace world0 ++ evs /\ count_pings evs = 0%nat.
Proof.
  split; [lia|]. split; [reflexivity|]. split; [reflexivity|].
  split; [reflexivity|].
  destruct (starting_cancelled (genv env_ok) 11 (mkContext None (Some 0))
              gen_new world0 0 ltac:(lia) eq_refl eq_refl ltac:(reflexivity)
              (fun _ => conj eq_refl eq_refl) eq_refl)
    as (g' & w' & evs & Hs & Ht & Hc & _).
  exists g', w', evs. split; [exact Hs|]. split; [exact Ht|exact Hc].
Defined.

End PollAndStartingExamples.

Section ShutdownExamples.
Import Storage Generator Claims Invariants.

Lemma registry2 : forall id, id ∈ ["t"; "u"] <-> id ∈ dom (instances gen2).
Proof.
  assert (Ht : instances gen2 !! "t" = Some (mkInstance "t" 2 None None [req1]))
    by (vm_compute; reflexivity).
  assert (Hu : instances gen2 !! "u" = Some (mkInstance "u" 5 None None [req1]))
    by (vm_compute; reflexivity).
  assert (Hall : map_Forall (fun k _ => k ∈ ["t"; "u"]) (instances gen2)).
  { refine (bool_decide_unpack _ _). vm_compute. exact I. }
  intros id. split.
  - intros Hid. apply elem_of_dom.
    apply elem_of_cons in Hid as [->|Hid]; [eexists; exact Ht|].
    apply elem_of_cons in Hid as [->|Hid]; [eexists; exact Hu|].
    apply elem_of_nil in Hid. destruct Hid.
  - intros [inst Hi]%elem_of_dom. exact (Hall id inst Hi).
Qed.

Lemma closed_wf_open w :
  map_Forall (fun _ s => closeCh s = false) (storages w) -> closed_wf w.
Proof. intros Hall h s Hs Hc. specialize (Hall h s Hs). simpl in Hall. congruence. Qed.

(** X21 at work: the shutdown of [t] begins and never ends. *)
Lemma stopping_waits_for_shutdowns_witness :
  (forall id, id ∈ ["t"; "u"] -> id ∈ dom (instances gen2)) /\
  "t" ∈ dom (instances gen2) /\
  (RunEnd "t" ∉ sched_stalled) /\
  stopping (genv env_ok) ["t"; "u"] sched_stalled gen2 world2 = None.
Proof.
  assert (Hord : forall id, id ∈ ["t"; "u"] -> id ∈ dom (instances gen2))
    by (intros id; apply registry2).
  assert (Ht : "t" ∈ dom (instances gen2))
    by (apply registry2, elem_of_cons; by left).
  assert (Hend : RunEnd "t" ∉ sched_stalled).
  { unfold sched_stalled. intros H.
    repeat (apply elem_of_cons in H as [H|H]; [discriminate|]).
    by apply elem_of_nil in H. }
  split; [exact Hord|]. split; [exact Ht|]. split; [exact Hend|].
  exact (proj1 (stopping_waits_for_shutdowns (genv env_ok) ["t"; "u"] gen2 world2
                  Hord _) "t" Ht Hend).
Defined.

(** X22 at work. *)
Lemma stopping_closes_storages_witness :
  (forall id, id ∈ ["t"; "u"] -> id ∈ dom (instances gen2)) /\
  closed_wf world2 /\
  stopping (genv env_ok) ["t"; "u"] sched2 gen2 world2
    = Some (stopped2.1, stopped2.2) /\
  instances gen2 !! "u" = Some (mkInstance "u" 5 None None [req1]) /\
  exists s',
    storages stopped2.2 !! 5%nat = Some s' /\ closeCh s' = true /\
    (forall d, wals stopped2.2 !! primary (storage s') = Some d ->
               db_closed d = true).
Proof.
  assert (Hord : forall id, id ∈ ["t"; "u"] -> id ∈ dom (instances gen2))
    by (intros id; apply registry2).
  assert (Hwf : closed_wf world2).
  { apply closed_wf_open. refine (bool_decide_unpack _ _). vm_compute. exact I. }
  assert (Hstop : stopping (genv env_ok) ["t"; "u"] sched2 gen2 world2
                  = Some (stopped2.1, stopped2.2)) by (vm_compute; reflexivity).
  assert (Hu : instances gen2 !! "u" = Some (mkInstance "u" 5 None None [req1]))
    by (vm_compute; reflexivity).
  assert (Hs : is_Some (storages world2 !! 5%nat)) by (vm_compute; by eexists).
  split; [exact Hord|]. split; [exact Hwf|]. split; [exact Hstop|].
  split; [exact Hu|]. destruct Hs as [s Hs].
  destruct (stopping_closes_storages (genv env_ok) ["t"; "u"] sched2 gen2 world2
              _ _ Hord Hwf Hstop "u" _ s Hu Hs) as (s' & Hs' & Hc & Hd & _).
  exists s'. split; [exact Hs'|]. split; [exact Hc|exact Hd].
Defined.

(** X23 at work. *)
Lemma stopping_leaves_registry_witness :
  (forall id, id ∈ ["t"; "u"] -> id ∈ dom (instances gen2)) /\
  stopping (genv env_ok) ["t"; "u"] sched2 gen2 world2
    = Some (stopped2.1, stopped2.2) /\
  instances stopped2.1 = instances gen2 /\
  PushSpans (genv env_ok) ctx_t req1 stopped2.1 stopped2.2
  = (Err ErrReadOnly, stopped2.1, stopped2.2).
Proof.
  assert (Hord : forall id, id ∈ ["t"; "u"] -> id ∈ dom (instances gen2))
    by (intros id; apply registry2).
  assert (Hstop : stopping (genv env_ok) ["t"; "u"] sched2 gen2 world2
                  = Some (stopped2.1, stopped2.2)) by (vm_compute; reflexivity).
  split; [exact Hord|]. split; [exact Hstop|].
  destruct (stopping_leaves_registry (genv env_ok) ["t"; "u"] sched2 gen2 world2
              _ _ Hord Hstop) as (Hi & Hpush).
  split; [exact Hi|]. exact (Hpush ctx_t req1 stopped2.2).
Defined.

(** X24 at work. *)
Lemma stopping_removes_wal_dirs_witness :
  (forall id, id ∈ ["t"; "u"] -> id ∈ dom (instances gen2)) /\
  stopping (genv env_ok) ["t"; "u"] sched2 gen2 world2
    = Some (stopped2.1, stopped2.2) /\
  instances gen2 !! "t" = Some (mkInstance "t" 2 None None [req1]) /\
  storages world2 !! 2%nat = Some s_t /\
  exists pre post,
    trace stopped2.2 = trace world2 ++ pre ++ EvCloseCh 2 :: post /\
    EvRemoveAll ["/var/tempo"; "t"] true ∈ post.
Proof.
  assert (Hord : forall id, id ∈ ["t"; "u"] -> id ∈ dom (instances gen2))
    by (intros id; apply registry2).
  assert (Hstop : stopping (genv env_ok) ["t"; "u"] sched2 gen2 world2
                  = Some (stopped2.1, stopped2.2)) by (vm_compute; reflexivity).
  assert (Ht : instances gen2 !! "t" = Some (mkInstance "t" 2 None None [req1]))
    by (vm_compute; reflexivity).
  assert (Hs : storages world2 !! 2%nat = Some s_t) by (vm_compute; reflexivity).
  split; [exact Hord|]. split; [exact Hstop|]. split; [exact Ht|].
  split; [exact Hs|].
  destruct (stopping_removes_wal_dirs (genv env_ok) ["t"; "u"] sched2 gen2 world2
              _ _ Hord Hstop) as (evs & Htr & Hall).
  destruct (Hall "t" _ s_t Ht Hs eq_refl) as (pre & post & -> & Hin).
  exists pre, post. split; [exact Htr|exact Hin].
Defined.

End ShutdownExamples.
